(** * NSF-HiFiGAN ONNX export: a shallow embedding of
      [onnx/export/export_nsf_hifigan.py]

    The script is read twice.

    In the first reading tensors hold real numbers: every arithmetic
    operation is exact ([R] of the Standard Library), with [sin], [tanh]
    and [PI] the real functions and constant.  There is no rounding, no
    NaN and no infinity in this reading; what is proved in it is a
    statement about exact real arithmetic.

    In the second reading tensors hold IEEE 754 binary32 values, as the
    float32 tensors of the script do: every operation rounds to nearest,
    and NaN, the infinities and the signed zeros behave as the format
    says.  This reading is used to run the arithmetic of the script on
    concrete inputs.

    Random draws ([torch.rand], [torch.randn_like]) are arguments: a draw
    is a function from positions to values, so that a tensor of any
    requested shape can be cut out of it.

    Python exceptions are values of [Exn]; a function that can raise
    returns a [Result]. *)

From Stdlib Require Import String Ascii.
From Stdlib Require Import Reals Lra Lia ZArith Bool Arith List.
From Stdlib Require Import SpecFloat.
Import ListNotations.
Open Scope string_scope.
Open Scope list_scope.
Open Scope R_scope.

(** ** Exceptions *)

Inductive Exn : Type :=
| IndexError
| RuntimeError
| ValueError
| TypeError
| KeyError
| FileNotFoundError
| AssertionError (msg : string).

Inductive Result (A : Type) : Type :=
| Ok (a : A)
| Raise (e : Exn).
Arguments Ok {A} a.
Arguments Raise {A} e.

Definition rbind {A B : Type} (m : Result A) (k : A -> Result B) : Result B :=
  match m with
  | Ok a => k a
  | Raise e => Raise e
  end.

Declare Scope result_scope.
Delimit Scope result_scope with result.
Notation "x <- m ;; k" := (rbind m (fun x => k))
  (at level 61, m at next level, right associativity) : result_scope.

(** ** Tensors

    A tensor of shape (1, L, D) is the list of its L rows, each a list of
    D reals: the batch axis of size one is not represented.  A tensor of
    shape (1, C, H, W) is the list of its C channels. *)

Local Open Scope result_scope.

Module torch.

Abbreviation Vector := (list R) (only parsing).
Abbreviation Matrix := (list (list R)) (only parsing).

Fixpoint zip_with {A B C : Type} (f : A -> B -> C) (xs : list A) (ys : list B) : list C :=
  match xs, ys with
  | x :: xs', y :: ys' => f x y :: zip_with f xs' ys'
  | _, _ => []
  end.

Definition vadd (a b : Vector) : Vector := zip_with Rplus a b.
Definition mmap (f : R -> R) (X : Matrix) : Matrix := map (map f) X.
Definition msub (X Y : Matrix) : Matrix := zip_with (zip_with Rminus) X Y.

(** The entry at time step [t] and channel [d]. *)
Definition entry (X : Matrix) (t d : nat) : R := nth d (nth t X []) 0.

(** [X] is a tensor of shape (1, L, D). *)
Definition has_shape (L D : nat) (X : Matrix) : Prop :=
  length X = L /\ Forall (fun row => length row = D) X.

Definition zeros (D : nat) : Vector := repeat 0 D.

(** [torch.rand(1, D)] and [torch.randn_like(X)] cut out of a draw. *)
Definition rand (u : nat -> R) (D : nat) : Vector := map u (seq 0 D).
Definition randn_like (g : nat -> nat -> R) (X : Matrix) : Matrix :=
  zip_with (fun t row => map (g t) (seq 0 (length row))) (seq 0 (length X)) X.

(** [x.fmod(y)]: the remainder of the division truncated towards zero. *)
Definition trunc (x : R) : Z :=
  if Rle_dec 0 x then Int_part x else (- Int_part (- x))%Z.
Definition fmod (x y : R) : R := x - IZR (trunc (x / y)) * y.

(** [torch.cumsum(X, dim=1)]: running sums along the time axis. *)
Fixpoint cumsum_from (acc : Vector) (X : Matrix) : Matrix :=
  match X with
  | [] => []
  | row :: X' => let acc' := vadd acc row in acc' :: cumsum_from acc' X'
  end.
Definition cumsum (X : Matrix) : Matrix :=
  match X with
  | [] => []
  | row :: X' => row :: cumsum_from row X'
  end.

(** [X.unsqueeze(1)] of a (1, L, D) tensor, and [Y.squeeze(1)] of a
    (1, C, H, W) tensor.  With more than one channel [squeeze(1)] leaves
    four axes, which no three-axis operation after it accepts. *)
Definition unsqueeze1 (X : Matrix) : list Matrix := [X].
Definition squeeze1 (Y : list Matrix) : Result Matrix :=
  match Y with
  | [X] => Ok X
  | _ => Raise RuntimeError
  end.

(** [Conv2d] with stride 1, padding 0, dilation 1 and no bias.  [weight]
    has shape (out_channels, in_channels, kh, kw).  The output entry at
    (o, t, d) is the sum over input channels c and kernel offsets (i, j)
    of weight[o][c][i][j] * x[c][t+i][d+j]. *)
Definition dot (w x : Vector) : R := fold_right Rplus 0 (zip_with Rmult w x).
Definition window (w x : Matrix) (t d : nat) : R :=
  fold_right Rplus 0
    (zip_with (fun w_i x_i => dot w_i (skipn d x_i)) w (skipn t x)).
Definition Conv2d (weight : list (list Matrix)) (x : list Matrix)
  : Result (list Matrix) :=
  let in_channels := length (hd [] weight) in
  let kh := length (hd [] (hd [] weight)) in
  let kw := length (hd [] (hd [] (hd [] weight))) in
  let H := length (hd [] x) in
  let W := length (hd [] (hd [] x)) in
  if (length x =? in_channels)%nat && (kh <=? H)%nat && (kw <=? W)%nat then
    Ok (map (fun w_o =>
          map (fun t =>
            map (fun d =>
              fold_right Rplus 0
                (zip_with (fun w_c x_c => window w_c x_c t d) w_o x))
              (seq 0 (W - kw + 1)))
            (seq 0 (H - kh + 1)))
          weight)
  else Raise RuntimeError.

(** [torch.diff(X, dim=1)]: the difference of consecutive rows. *)
Definition diff (X : Matrix) : Matrix :=
  zip_with (zip_with (fun prev next => next - prev)) X (tl X).

(** [torch.cat((A, B), dim=1)] of two three-axis tensors: the last axes
    must agree. *)
Definition cat1 (A B : Matrix) : Result Matrix :=
  match A, B with
  | a :: _, b :: _ =>
      if (length a =? length b)%nat then Ok (A ++ B) else Raise RuntimeError
  | _, _ => Ok (A ++ B)
  end.

(** [(X < 0).float()] *)
Definition lt0 (x : R) : R := if Rlt_dec x 0 then 1 else 0.
(** [(x > thr).float()] *)
Definition gt (thr x : R) : R := if Rgt_dec x thr then 1 else 0.

(** The transpose of a tensor whose last axis has size [W].  (The list of
    rows of a tensor with no rows does not record [W], so it is passed.) *)
Definition transpose (W : nat) (X : Matrix) : Matrix :=
  map (fun j => map (fun row => nth j row 0) X) (seq 0 W).

(** [functional.leaky_relu(x, negative_slope)] *)
Definition leaky_relu (negative_slope x : R) : R :=
  if Rle_dec 0 x then x else negative_slope * x.

(** The product of a list of whole numbers, [np.prod]. *)
Definition prod (ns : list nat) : nat := fold_right Nat.mul 1%nat ns.

(** Three-axis tensors whose shape matters even when an axis is empty
    carry their sizes. *)
Record Tensor (A : Type) : Type := {
  size0 : nat;
  size1 : nat;
  size2 : nat;
  data : list (list (list A))
}.
Arguments size0 {A} _.
Arguments size1 {A} _.
Arguments size2 {A} _.
Arguments data {A} _.

Abbreviation Tensor3 := (Tensor R) (only parsing).

Definition well_formed (T : Tensor3) : Prop :=
  length (data T) = size0 T /\ Forall (has_shape (size1 T) (size2 T)) (data T).

(** [T.transpose(2, 1)] and [T * c] *)
Definition transpose_2_1 (T : Tensor3) : Tensor3 :=
  {| size0 := size0 T;
     size1 := size2 T;
     size2 := size1 T;
     data := map (transpose (size2 T)) (data T) |}.
Definition scale (c : R) (T : Tensor3) : Tensor3 :=
  {| size0 := size0 T;
     size1 := size1 T;
     size2 := size2 T;
     data := map (mmap (fun x => x * c)) (data T) |}.
Definition entry3 (T : Tensor3) (b i j : nat) : R := entry (nth b (data T) []) i j.

(** [torch.nn.Parameter], a parameter of a module: its shape and its values in row-major
    order. *)
Record nn_Parameter : Type := {
  pshape : list nat;
  pvalues : list R
}.

(** The slices of a parameter along its first axis. *)
Definition rows_of (p : nn_Parameter) : list (list R) :=
  let size := prod (tl (pshape p)) in
  map (fun o => firstn size (skipn (o * size) (pvalues p)))
      (seq 0 (hd 0%nat (pshape p))).
Definition norm (xs : list R) : R :=
  sqrt (fold_right Rplus 0 (map (fun x => x * x) xs)).

(** [torch.norm_except_dim(w, 2, 0)]: the norm of every slice, and
    [torch._weight_norm(v, g, 0)]: every slice of [v] scaled to the norm
    that [g] gives for it, v * (g / ||v||). *)
Definition norm_except_dim (w : nn_Parameter) : nn_Parameter :=
  {| pshape := hd 0%nat (pshape w) :: map (fun _ => 1%nat) (tl (pshape w));
     pvalues := map norm (rows_of w) |}.
Definition _weight_norm (v g : nn_Parameter) : nn_Parameter :=
  {| pshape := pshape v;
     pvalues :=
       concat (zip_with (fun row g_o => map (fun x => x * (g_o / norm row)) row)
                 (rows_of v) (pvalues g)) |}.

(** The sizes of a tensor, and an elementwise function. *)
Definition sizes {A : Type} (T : Tensor A) : nat * nat * nat :=
  (size0 T, size1 T, size2 T).
Definition tmap {A B : Type} (f : A -> B) (T : Tensor A) : Tensor B :=
  {| size0 := size0 T;
     size1 := size1 T;
     size2 := size2 T;
     data := map (map (map f)) (data T) |}.
Definition tentry {A : Type} (d : A) (T : Tensor A) (b i j : nat) : A :=
  nth j (nth i (nth b (data T) []) []) d.

(** Elementwise binary operations with broadcasting, as [X + Y] does: the
    sizes of an axis must be equal, or one of them 1, and the axis of
    size 1 is repeated; sizes that cannot be broadcast together raise. *)
Definition bsize (m n : nat) : option nat :=
  if (m =? n)%nat then Some m
  else if (m =? 1)%nat then Some n
  else if (n =? 1)%nat then Some m
  else None.
Definition bindex (size i : nat) : nat := if (size =? 1)%nat then 0%nat else i.
Definition broadcast {A : Type} (d : A) (f : A -> A -> A) (X Y : Tensor A)
  : Result (Tensor A) :=
  match bsize (size0 X) (size0 Y), bsize (size1 X) (size1 Y),
        bsize (size2 X) (size2 Y) with
  | Some n0, Some n1, Some n2 =>
      Ok {| size0 := n0;
            size1 := n1;
            size2 := n2;
            data :=
              map (fun b =>
                map (fun i =>
                  map (fun j =>
                    f (tentry d X (bindex (size0 X) b) (bindex (size1 X) i)
                         (bindex (size2 X) j))
                      (tentry d Y (bindex (size0 Y) b) (bindex (size1 Y) i)
                         (bindex (size2 Y) j)))
                    (seq 0 n2))
                  (seq 0 n1))
                (seq 0 n0) |}
  | _, _, _ => Raise RuntimeError
  end.

(** The in-place form, as [X += Y] does: [Y] is broadcast to the shape of
    [X], which cannot change. *)
Definition broadcast_ {A : Type} (d : A) (f : A -> A -> A) (X Y : Tensor A)
  : Result (Tensor A) :=
  Z <- broadcast d f X Y ;;
  if ((size0 Z =? size0 X) && (size1 Z =? size1 X) && (size2 Z =? size2 X))%nat
  then Ok Z
  else Raise RuntimeError.

(** [x.squeeze(1)] of a (B, C, T) tensor drops the channel axis when
    C = 1, giving the B rows of a (B, T) tensor, and leaves the tensor as
    it is otherwise. *)
Inductive Squeezed (A : Type) : Type :=
| Dropped (B T : nat) (rows : list (list A))
| Kept (X : Tensor A).
Arguments Dropped {A} B T rows.
Arguments Kept {A} X.
Definition squeeze1_3d {A : Type} (X : Tensor A) : Squeezed A :=
  if (size1 X =? 1)%nat
  then Dropped (size0 X) (size2 X) (map (fun channels => hd [] channels) (data X))
  else Kept X.
Definition samples {A : Type} (y : Squeezed A) : list A :=
  match y with
  | Dropped _ _ rows => concat rows
  | Kept X => concat (concat (data X))
  end.

End torch.

Import torch.

(** ** class SineGen *)

Module SineGen.

Record t : Type := {
  sine_amp : R;
  noise_std : R;
  harmonic_num : nat;
  dim : nat;
  sampling_rate : R;
  voiced_threshold : R;
  diff : list (list Matrix)   (* the weight of the Conv2d [self.diff] *)
}.

Definition __init__ (samp_rate : R) (harmonic_num : nat)
    (sine_amp noise_std voiced_threshold : R) : t :=
  {| sine_amp := sine_amp;
     noise_std := noise_std;
     harmonic_num := harmonic_num;
     dim := harmonic_num + 1;
     sampling_rate := samp_rate;
     voiced_threshold := voiced_threshold;
     diff := [[[[-1]; [1]]]] |}.

(** Lines 65-70: the per-step phase increments, the initial phase noise
    added to the first time step ([u] is the draw of [torch.rand]). *)
Definition rad_values (self : t) (u : nat -> R) (f0_values : Matrix)
  : Result Matrix :=
  let rad_values := mmap (fun x => fmod (x / sampling_rate self) 1) f0_values in
  rand_ini <- match rand u (dim self) with
              | [] => Raise IndexError
              | _ :: rest => Ok (0 :: rest)
              end ;;
  match rad_values with
  | [] => Raise IndexError
  | first :: rest =>
      if (length first =? length rand_ini)%nat then
        Ok (vadd first rand_ini :: rest)
      else if (length rand_ini =? 1)%nat then
        Ok (map (fun x => x + hd 0 rand_ini) first :: rest)
      else Raise RuntimeError
  end.

(** Lines 78-82: the time steps at which 1 is taken off the running sum. *)
Definition cumsum_shift (self : t) (rad_values : Matrix) : Result Matrix :=
  let tmp_over_one := mmap (fun x => fmod x 1) (cumsum rad_values) in
  conv <- Conv2d (diff self) (unsqueeze1 tmp_over_one) ;;
  diff <- squeeze1 conv ;;
  let cumsum_shift := mmap lt0 diff in
  cat1 [zeros (dim self)] cumsum_shift.

(** The argument of [torch.sin] on line 83 before the factor 2*pi. *)
Definition phase (self : t) (u : nat -> R) (f0_values : Matrix)
  : Result Matrix :=
  rad_values <- rad_values self u f0_values ;;
  cumsum_shift <- cumsum_shift self rad_values ;;
  Ok (cumsum (msub rad_values cumsum_shift)).

Definition _f02sine (self : t) (u : nat -> R) (f0_values : Matrix)
  : Result Matrix :=
  phase <- phase self u f0_values ;;
  Ok (mmap (fun x => sin (x * (2 * PI))) phase).

(** The phase the comment on line 72 describes, with no overflow
    correction: sine[t] = sin(2*pi * sum of rad up to t). *)
Definition naive_sines (self : t) (u : nat -> R) (f0_values : Matrix)
  : Result Matrix :=
  rad_values <- rad_values self u f0_values ;;
  Ok (mmap (fun x => sin (x * (2 * PI))) (cumsum rad_values)).

(** [range(1, self.harmonic_num + 2)] as a row of reals. *)
Definition harmonics (self : t) : Vector :=
  map INR (seq 1 (harmonic_num self + 1)).

(** Line 95: the frequency of every harmonic at every time step.  The
    input [f0], of shape (1, L, 1), is the list of its L values. *)
Definition fn (self : t) (f0 : Vector) : Matrix :=
  map (fun x => map (fun k => x * k) (harmonics self)) f0.

(** [forward]: [u] is the draw of [torch.rand] in [_f02sine] and [g] the
    draw of [torch.randn_like].  [uv], of shape (1, L, 1), is the list of
    its L values. *)
Definition forward (self : t) (u : nat -> R) (g : nat -> nat -> R)
    (f0 : Vector) : Result (Matrix * Vector * Matrix) :=
  let fn := fn self f0 in
  sines <- _f02sine self u fn ;;
  let sine_waves := mmap (fun x => x * sine_amp self) sines in
  let uv := map (gt (voiced_threshold self)) f0 in
  let noise_amp :=
    map (fun v => v * noise_std self + (1 - v) * (sine_amp self / 3)) uv in
  let noise :=
    zip_with (fun a row => map (fun z => a * z) row)
      noise_amp (randn_like g sine_waves) in
  let sine_waves :=
    zip_with vadd
      (zip_with (fun row v => map (fun x => x * v) row) sine_waves uv)
      noise in
  Ok (sine_waves, uv, noise).

End SineGen.

(** ** Sums along the time axis

    [psum r t] is r(0) + ... + r(t): what [torch.cumsum] holds at time
    step [t] of a channel whose values are [r]. *)

Fixpoint psum (r : nat -> R) (t : nat) : R :=
  match t with
  | O => r O
  | S t' => psum r t' + r t
  end.

(** ** Random draws of one forward pass *)

Record Draws : Type := {
  rand_ini : nat -> R;            (* [torch.rand(1, dim)] in [_f02sine] *)
  randn_sine : nat -> nat -> R;   (* [torch.randn_like(sine_waves)] *)
  randn_noise : nat -> R          (* [torch.randn_like(uv)] *)
}.

(** ** [torch.nn.Linear] *)

Module Linear.

Record t : Type := {
  in_features : nat;
  out_features : nat;
  weight : nat -> nat -> R;   (* weight[o][i] *)
  bias : nat -> R
}.

Definition forward (self : t) (X : Matrix) : Result Matrix :=
  if forallb (fun row => (length row =? in_features self)%nat) X then
    Ok (map (fun row =>
          map (fun o =>
                 dot row (map (weight self o) (seq 0 (in_features self)))
                 + bias self o)
              (seq 0 (out_features self)))
          X)
  else Raise RuntimeError.

End Linear.

(** ** class SourceModuleHnNSF *)

Module SourceModuleHnNSF.

Record t : Type := {
  sine_amp : R;
  noise_std : R;
  l_sin_gen : SineGen.t;
  l_linear : Linear.t
}.

(** [W] and [b] are the values of the parameters of [l_linear]. *)
Definition __init__ (sampling_rate : R) (harmonic_num : nat)
    (sine_amp add_noise_std voiced_threshod : R)
    (W : nat -> nat -> R) (b : nat -> R) : t :=
  {| sine_amp := sine_amp;
     noise_std := add_noise_std;
     l_sin_gen :=
       SineGen.__init__ sampling_rate harmonic_num sine_amp add_noise_std
         voiced_threshod;
     l_linear :=
       {| Linear.in_features := harmonic_num + 1;
          Linear.out_features := 1;
          Linear.weight := W;
          Linear.bias := b |} |}.

(** Returns (sine_merge, noise, uv); [noise] and [uv], of shape
    (1, L, 1), are the lists of their L values. *)
Definition forward (self : t) (rng : Draws) (x : Vector)
  : Result (Matrix * Vector * Vector) :=
  gen <- SineGen.forward (l_sin_gen self) (rand_ini rng) (randn_sine rng) x ;;
  let '(sine_wavs, uv, _) := gen in
  lin <- Linear.forward (l_linear self) sine_wavs ;;
  let sine_merge := mmap tanh lin in
  let noise :=
    map (fun t => randn_noise rng t * (sine_amp self / 3)) (seq 0 (length uv)) in
  Ok (sine_merge, noise, uv).

End SourceModuleHnNSF.

(** ** Layers with learned weights

    A convolution holds its weight either as one parameter [weight], or,
    under [torch.nn.utils.weight_norm], as the two parameters [weight_g]
    and [weight_v] from which the weight is computed before every call.
    What the layer computes from a weight, a bias and an input is the
    library's convolution with the sizes the layer was built with; it is
    the field [functional]. *)

Inductive Weights : Type :=
| Normed (g v : nn_Parameter)
| Plain (w : nn_Parameter).

Record Layer : Type := {
  weights : Weights;
  bias : option nn_Parameter;
  functional : nn_Parameter -> option nn_Parameter -> Tensor3 -> Result Tensor3
}.

(** Whether the layer holds a weight norm, and the weight it computes
    with. *)
Definition weight_normed (m : Layer) : bool :=
  match weights m with
  | Normed _ _ => true
  | Plain _ => false
  end.
Definition weight (m : Layer) : nn_Parameter :=
  match weights m with
  | Normed g v => _weight_norm v g
  | Plain w => w
  end.
Definition call (m : Layer) (x : Tensor3) : Result Tensor3 :=
  functional m (weight m) (bias m) x.

(** [torch.nn.utils.weight_norm] and [torch.nn.utils.remove_weight_norm]:
    the first splits the weight into its norm and its direction and
    raises on a module that already holds a weight norm, the second puts
    the computed weight back as one parameter and raises on a module
    that holds no weight norm. *)
Module utils.

Definition weight_norm (m : Layer) : Result Layer :=
  match weights m with
  | Plain w =>
      Ok {| weights := Normed (norm_except_dim w) w;
            bias := bias m;
            functional := functional m |}
  | Normed _ _ => Raise RuntimeError
  end.
Definition remove_weight_norm (m : Layer) : Result Layer :=
  match weights m with
  | Normed g v =>
      Ok {| weights := Plain (_weight_norm v g);
            bias := bias m;
            functional := functional m |}
  | Plain _ => Raise ValueError
  end.

End utils.

Fixpoint mapM {A B : Type} (f : A -> Result B) (xs : list A) : Result (list B) :=
  match xs with
  | [] => Ok []
  | x :: xs' => y <- f x ;; ys <- mapM f xs' ;; Ok (y :: ys)
  end.

(** Modelled from the spec: the residual blocks ([ResBlock1], [ResBlock2]
    of modules/nsf_hifigan/models.py) are not among the sources.  A block
    is a stack of weight-normalised convolutions, and its
    [remove_weight_norm] removes the reparameterization from each of
    them ("Weight normalization: a reparameterization of convolution
    weights removed before inference export").  The block keeps its
    convolutions, and what it computes on an input given what each of
    its convolutions computes. *)
Module ResBlock.

Record t : Type := {
  convs : list Layer;
  body : list (Tensor3 -> Result Tensor3) -> Tensor3 -> Result Tensor3
}.

Definition __init__ (convs : list Layer)
    (body : list (Tensor3 -> Result Tensor3) -> Tensor3 -> Result Tensor3)
  : Result t :=
  convs' <- mapM utils.weight_norm convs ;;
  Ok {| convs := convs'; body := body |}.

Definition forward (self : t) (x : Tensor3) : Result Tensor3 :=
  body self (map call (convs self)) x.

Definition remove_weight_norm (self : t) : Result t :=
  convs' <- mapM utils.remove_weight_norm (convs self) ;;
  Ok {| convs := convs'; body := body self |}.

Definition convs_weight_normed (self : t) : list bool :=
  map weight_normed (convs self).

End ResBlock.

(** ** The hyperparameters read by [Generator] *)

Record AttrDict : Type := {
  sampling_rate : R;
  num_mels : nat;
  upsample_rates : list nat;
  upsample_kernel_sizes : list nat;
  upsample_initial_channel : nat;
  resblock : string;
  resblock_kernel_sizes : list nat;
  resblock_dilation_sizes : list (list nat)
}.

(** ** The module constructors

    What [Generator.__init__] takes from [torch.nn] and from the modules
    of the repository that are not among the sources.  A constructor
    returns a convolution with its initial parameters, its weight held
    as one parameter, or raises (on a channel count or a kernel size it
    does not accept). *)
Record Convolution : Type := {
  initial_weight : nn_Parameter;
  initial_bias : option nn_Parameter;
  convolve : nn_Parameter -> option nn_Parameter -> Tensor3 -> Result Tensor3
}.

Definition layer (c : Convolution) : Layer :=
  {| weights := Plain (initial_weight c);
     bias := initial_bias c;
     functional := convolve c |}.

Record Modules : Type := {
  (** [Conv1d(in_channels, out_channels, kernel_size, stride, padding)]
      and [ConvTranspose1d] with the same arguments. *)
  Conv1d : nat -> nat -> nat -> nat -> Z -> Result Convolution;
  ConvTranspose1d : nat -> nat -> nat -> nat -> Z -> Result Convolution;
  (** The initial weight and bias of [torch.nn.Linear(in_features,
      out_features)]. *)
  Linear_weight : nat -> nat -> nat -> nat -> R;
  Linear_bias : nat -> nat -> nat -> R;
  (** What [torch.nn.Upsample(scale_factor=float(s))] computes on one
      row of a (B, C, n) tensor: [functional.interpolate] with the
      nearest neighbour. *)
  interpolate : nat -> Vector -> Result Vector;
  (** [ResBlock1(h, channels, kernel_size, dilation)] and [ResBlock2]:
      the convolutions of the block before they are wrapped in
      [weight_norm], and what the block computes. *)
  ResBlock1 : AttrDict -> nat -> nat -> list nat
              -> Result (list Convolution
                         * (list (Tensor3 -> Result Tensor3)
                            -> Tensor3 -> Result Tensor3));
  ResBlock2 : AttrDict -> nat -> nat -> list nat
              -> Result (list Convolution
                         * (list (Tensor3 -> Result Tensor3)
                            -> Tensor3 -> Result Tensor3));
  (** [init_weights] of modules/nsf_hifigan/utils.py, applied to one
      module: it redraws the values of the attribute [weight], which a
      module under [weight_norm] computes anew from [weight_g] and
      [weight_v] before every call; it can raise. *)
  init_weights : Layer -> Result unit
}.

(** [torch.nn.Upsample]: the module keeps its scale factor, the float of
    a whole number. *)
Module Upsample.

Record t : Type := {
  scale_factor : nat;
  nearest : nat -> Vector -> Result Vector
}.

Definition __init__ (nn : Modules) (scale_factor : nat) : t :=
  {| scale_factor := scale_factor; nearest := interpolate nn |}.

Definition forward (self : t) (row : Vector) : Result Vector :=
  nearest self (scale_factor self) row.

End Upsample.

Definition LRELU_SLOPE : R := 0.1.

Definition lookup {A : Type} (xs : list A) (i : nat) : Result A :=
  match nth_error xs i with
  | Some x => Ok x
  | None => Raise IndexError
  end.

(** ** State dicts

    The keys of the state dict of a [Generator]: the parameter [slot] of
    the module at a place of the module tree.  [K_resblocks k j slot] is
    the parameter of the j-th convolution of [resblocks[k]]. *)

Inductive Slot : Type :=
| Weight
| Weight_g
| Weight_v
| Bias.

Inductive Key : Type :=
| K_diff                                  (* m_source.l_sin_gen.diff.weight *)
| K_l_linear (slot : Slot)                (* m_source.l_linear.* *)
| K_noise_convs (i : nat) (slot : Slot)   (* noise_convs.i.* *)
| K_conv_pre (slot : Slot)                (* conv_pre.* *)
| K_ups (i : nat) (slot : Slot)           (* ups.i.* *)
| K_resblocks (k j : nat) (slot : Slot)   (* resblocks.k.*.j.* *)
| K_conv_post (slot : Slot).              (* conv_post.* *)

Definition StateDict : Type := Key -> option nn_Parameter.

Fixpoint same_shape (a b : list nat) : bool :=
  match a, b with
  | [], [] => true
  | m :: a', n :: b' => (m =? n)%nat && same_shape a' b'
  | _, _ => false
  end.

(** [load_state_dict(sd, strict=False)] on one parameter: a key that is
    missing leaves the parameter as it is, a value of another shape
    raises.  Keys of [sd] that name no parameter of the module are not
    looked at. *)
Definition load_parameter (sd : StateDict) (key : Key) (p : nn_Parameter)
  : Result nn_Parameter :=
  match sd key with
  | None => Ok p
  | Some q =>
      if same_shape (pshape q) (pshape p) then Ok q
      else Raise RuntimeError
  end.

(** The parameters of a layer are [weight_g], [weight_v] under a weight
    norm and [weight] without, and [bias] when there is one. *)
Definition load_layer (sd : StateDict) (key : Slot -> Key) (m : Layer)
  : Result Layer :=
  weights' <- match weights m with
              | Normed g v =>
                  g' <- load_parameter sd (key Weight_g) g ;;
                  v' <- load_parameter sd (key Weight_v) v ;;
                  Ok (Normed g' v')
              | Plain w =>
                  w' <- load_parameter sd (key Weight) w ;;
                  Ok (Plain w')
              end ;;
  bias' <- match bias m with
           | None => Ok None
           | Some b => b' <- load_parameter sd (key Bias) b ;; Ok (Some b')
           end ;;
  Ok {| weights := weights'; bias := bias'; functional := functional m |}.

Fixpoint load_layers (sd : StateDict) (key : nat -> Slot -> Key) (i : nat)
    (ms : list Layer) : Result (list Layer) :=
  match ms with
  | [] => Ok []
  | m :: ms' =>
      m' <- load_layer sd (key i) m ;;
      rest <- load_layers sd key (S i) ms' ;;
      Ok (m' :: rest)
  end.

Fixpoint load_blocks (sd : StateDict) (k : nat) (blocks : list ResBlock.t)
  : Result (list ResBlock.t) :=
  match blocks with
  | [] => Ok []
  | b :: blocks' =>
      convs' <- load_layers sd (K_resblocks k) 0 (ResBlock.convs b) ;;
      rest <- load_blocks sd (S k) blocks' ;;
      Ok ({| ResBlock.convs := convs'; ResBlock.body := ResBlock.body b |} :: rest)
  end.

(** The weight (out_features, in_features) and the bias (out_features)
    of a linear layer. *)
Definition load_linear (sd : StateDict) (lin : Linear.t) : Result Linear.t :=
  let n_in := Linear.in_features lin in
  let n_out := Linear.out_features lin in
  W <- match sd (K_l_linear Weight) with
       | None => Ok (Linear.weight lin)
       | Some q =>
           if same_shape (pshape q) [n_out; n_in]
           then Ok (fun o i => nth (o * n_in + i) (pvalues q) 0)
           else Raise RuntimeError
       end ;;
  b <- match sd (K_l_linear Bias) with
       | None => Ok (Linear.bias lin)
       | Some q =>
           if same_shape (pshape q) [n_out]
           then Ok (fun o => nth o (pvalues q) 0)
           else Raise RuntimeError
       end ;;
  Ok {| Linear.in_features := n_in;
        Linear.out_features := n_out;
        Linear.weight := W;
        Linear.bias := b |}.

(** The weight (out, in, kh, kw) of the Conv2d [diff] of the sine
    generator. *)
Definition load_diff (sd : StateDict) (gen : SineGen.t) : Result SineGen.t :=
  let W := SineGen.diff gen in
  let n0 := length W in
  let n1 := length (hd [] W) in
  let n2 := length (hd [] (hd [] W)) in
  let n3 := length (hd [] (hd [] (hd [] W))) in
  W' <- match sd K_diff with
        | None => Ok W
        | Some q =>
            if same_shape (pshape q) [n0; n1; n2; n3]
            then
              Ok (map (fun o =>
                    map (fun c =>
                      map (fun i =>
                        map (fun j =>
                               nth (((o * n1 + c) * n2 + i) * n3 + j)%nat
                                   (pvalues q) 0)
                            (seq 0 n3))
                        (seq 0 n2))
                      (seq 0 n1))
                    (seq 0 n0))
            else Raise RuntimeError
        end ;;
  Ok {| SineGen.sine_amp := SineGen.sine_amp gen;
        SineGen.noise_std := SineGen.noise_std gen;
        SineGen.harmonic_num := SineGen.harmonic_num gen;
        SineGen.dim := SineGen.dim gen;
        SineGen.sampling_rate := SineGen.sampling_rate gen;
        SineGen.voiced_threshold := SineGen.voiced_threshold gen;
        SineGen.diff := W' |}.

(** ** class Generator *)

(** The methods of [torch.nn.Module] and of [Generator] that [load_model]
    calls on the generator. *)
Inductive Method : Type :=
| called_load_state_dict
| called_eval
| called_remove_weight_norm.

Module Generator.

Record t : Type := {
  h : AttrDict;
  num_kernels : nat;
  num_upsamples : nat;
  f0_upsamp : Upsample.t;
  m_source : SourceModuleHnNSF.t;
  noise_convs : list Layer;
  conv_pre : Layer;
  ups : list Layer;
  resblocks : list ResBlock.t;
  conv_post : Layer;
  training : bool;
  (** The calls of [load_state_dict], [eval] and [remove_weight_norm]
      made on the module so far, oldest first.  The Python object keeps
      no such list; the model keeps it so that the order of the calls
      can be stated. *)
  history : list Method
}.

(** Lines 178-188: one upsampling layer and one noise convolution per
    pair of [zip(h.upsample_rates, h.upsample_kernel_sizes)]. *)
Definition init_stage (nn : Modules) (h : AttrDict) (iuk : nat * (nat * nat))
  : Result (Layer * Layer) :=
  let '(i, (u, k)) := iuk in
  let uic := upsample_initial_channel h in
  let c_cur := (uic / 2 ^ (i + 1))%nat in
  up <- ConvTranspose1d nn (uic / 2 ^ i)%nat (uic / 2 ^ (i + 1))%nat k u
          ((Z.of_nat k - Z.of_nat u) / 2)%Z ;;
  up <- utils.weight_norm (layer up) ;;
  noise_conv <-
    (if (i + 1 <? length (upsample_rates h))%nat then
       let stride_f0 := prod (skipn (i + 1) (upsample_rates h)) in
       Conv1d nn 1 c_cur (stride_f0 * 2) stride_f0
         (Z.of_nat (stride_f0 / 2))
     else Conv1d nn 1 c_cur 1 1 0) ;;
  Ok (up, layer noise_conv).

(** Lines 191-194: the residual blocks of the stage after [ups[i]]. *)
Definition init_blocks (nn : Modules) (h : AttrDict) (i : nat)
  : Result (list ResBlock.t) :=
  let resblock :=
    if String.eqb (resblock h) "1" then ResBlock1 nn else ResBlock2 nn in
  let ch := (upsample_initial_channel h / 2 ^ (i + 1))%nat in
  mapM (fun kd : nat * list nat =>
          parts <- resblock h ch (fst kd) (snd kd) ;;
          ResBlock.__init__ (map layer (fst parts)) (snd parts))
       (combine (resblock_kernel_sizes h) (resblock_dilation_sizes h)).

(** With no upsampling layer [ch] is still [None] at the construction of
    [conv_post]. *)
Definition __init__ (nn : Modules) (h : AttrDict) : Result t :=
  let num_kernels := length (resblock_kernel_sizes h) in
  let num_upsamples := length (upsample_rates h) in
  let f0_upsamp := Upsample.__init__ nn (prod (upsample_rates h)) in
  let m_source :=
    SourceModuleHnNSF.__init__ (sampling_rate h) 8 0.1 0.003 0
      (Linear_weight nn 9 1) (Linear_bias nn 9 1) in
  conv_pre <- Conv1d nn (num_mels h) (upsample_initial_channel h) 7 1 3 ;;
  conv_pre <- utils.weight_norm (layer conv_pre) ;;
  let pairs := combine (upsample_rates h) (upsample_kernel_sizes h) in
  stages <- mapM (init_stage nn h) (combine (seq 0 (length pairs)) pairs) ;;
  let ups := map fst stages in
  let noise_convs := map snd stages in
  blocks <- mapM (init_blocks nn h) (seq 0 (length ups)) ;;
  let resblocks := concat blocks in
  conv_post <- match ups with
               | [] => Raise TypeError
               | _ :: _ =>
                   Conv1d nn (upsample_initial_channel h / 2 ^ length ups)%nat
                     1 7 1 3
               end ;;
  conv_post <- utils.weight_norm (layer conv_post) ;;
  _ <- mapM (init_weights nn) ups ;;
  _ <- init_weights nn conv_post ;;
  Ok {| h := h;
        num_kernels := num_kernels;
        num_upsamples := num_upsamples;
        f0_upsamp := f0_upsamp;
        m_source := m_source;
        noise_convs := noise_convs;
        conv_pre := conv_pre;
        ups := ups;
        resblocks := resblocks;
        conv_post := conv_post;
        training := true;
        history := [] |}.

(** Lines 214-218: the sum of the residual blocks of stage [i]. *)
Fixpoint sum_resblocks (self : t) (i : nat) (x : Tensor3) (js : list nat)
    (xs : option Tensor3) : Result (option Tensor3) :=
  match js with
  | [] => Ok xs
  | j :: js' =>
      block <- lookup (resblocks self) (i * num_kernels self + j) ;;
      r <- ResBlock.forward block x ;;
      xs' <- match xs with
             | None => Ok r
             | Some s => broadcast_ 0 Rplus s r
             end ;;
      sum_resblocks self i x js' (Some xs')
  end.

(** Lines 206-219: the upsampling stages. *)
Fixpoint stages (self : t) (har_source : Tensor3) (stage : list nat)
    (x : Tensor3) : Result Tensor3 :=
  match stage with
  | [] => Ok x
  | i :: stage' =>
      let x := tmap (leaky_relu LRELU_SLOPE) x in
      up <- lookup (ups self) i ;;
      x <- call up x ;;
      noise_conv <- lookup (noise_convs self) i ;;
      x_source <- call noise_conv har_source ;;
      x <- broadcast 0 Rplus x x_source ;;
      xs <- sum_resblocks self i x (seq 0 (num_kernels self)) None ;;
      x <- match xs with
           | None => Raise TypeError
           | Some xs => Ok (tmap (fun v => v / INR (num_kernels self)) xs)
           end ;;
      stages self har_source stage' x
  end.

(** Line 202, [self.m_source(f0)] on an f0 of shape (B, N, 1), the list
    of its B rows.  The sine generator concatenates with a tensor of
    batch size one on line 82, which raises for every other batch size;
    with no time step line 70 raises before. *)
Definition source (self : t) (rng : Draws) (f0 : list Vector)
  : Result (Matrix * Vector * Vector) :=
  match f0 with
  | [row] => SourceModuleHnNSF.forward (m_source self) rng row
  | [] => Raise RuntimeError
  | row :: _ :: _ =>
      if (length row =? 0)%nat then Raise IndexError else Raise RuntimeError
  end.

(** [forward]: [x] has shape (B, num_mels, n) and [f0], of shape (B', n),
    is the list of its B' rows. *)
Definition forward (self : t) (rng : Draws) (x : Tensor3) (f0 : list Vector)
  : Result (Squeezed R) :=
  f0 <- mapM (Upsample.forward (f0_upsamp self)) f0 ;;
  src <- source self rng f0 ;;
  let '(har_source, noi_source, uv) := src in
  let har_source :=
    {| size0 := 1;
       size1 := 1;
       size2 := length har_source;
       data := [transpose 1 har_source] |} in
  x <- call (conv_pre self) x ;;
  x <- stages self har_source (seq 0 (num_upsamples self)) x ;;
  let x := tmap (leaky_relu 0.01) x in
  x <- call (conv_post self) x ;;
  let x := tmap tanh x in
  Ok (squeeze1_3d x).

(** [remove_weight_norm], without its [print]. *)
Definition remove_weight_norm (self : t) : Result t :=
  ups' <- mapM utils.remove_weight_norm (ups self) ;;
  resblocks' <- mapM ResBlock.remove_weight_norm (resblocks self) ;;
  conv_pre' <- utils.remove_weight_norm (conv_pre self) ;;
  conv_post' <- utils.remove_weight_norm (conv_post self) ;;
  Ok {| h := h self;
        num_kernels := num_kernels self;
        num_upsamples := num_upsamples self;
        f0_upsamp := f0_upsamp self;
        m_source := m_source self;
        noise_convs := noise_convs self;
        conv_pre := conv_pre';
        ups := ups';
        resblocks := resblocks';
        conv_post := conv_post';
        training := training self;
        history := history self ++ [called_remove_weight_norm] |}.

(** [torch.nn.Module.eval] *)
Definition eval (self : t) : t :=
  {| h := h self;
     num_kernels := num_kernels self;
     num_upsamples := num_upsamples self;
     f0_upsamp := f0_upsamp self;
     m_source := m_source self;
     noise_convs := noise_convs self;
     conv_pre := conv_pre self;
     ups := ups self;
     resblocks := resblocks self;
     conv_post := conv_post self;
     training := false;
     history := history self ++ [called_eval] |}.

(** [load_state_dict(sd, strict=False)]: every parameter of the module
    tree that [sd] has a key for takes the value of [sd]; a value of
    another shape raises. *)
Definition load_state_dict (self : t) (sd : StateDict) : Result t :=
  let src := m_source self in
  gen <- load_diff sd (SourceModuleHnNSF.l_sin_gen src) ;;
  lin <- load_linear sd (SourceModuleHnNSF.l_linear src) ;;
  noise_convs' <- load_layers sd K_noise_convs 0 (noise_convs self) ;;
  conv_pre' <- load_layer sd K_conv_pre (conv_pre self) ;;
  ups' <- load_layers sd K_ups 0 (ups self) ;;
  resblocks' <- load_blocks sd 0 (resblocks self) ;;
  conv_post' <- load_layer sd K_conv_post (conv_post self) ;;
  Ok {| h := h self;
        num_kernels := num_kernels self;
        num_upsamples := num_upsamples self;
        f0_upsamp := f0_upsamp self;
        m_source :=
          {| SourceModuleHnNSF.sine_amp := SourceModuleHnNSF.sine_amp src;
             SourceModuleHnNSF.noise_std := SourceModuleHnNSF.noise_std src;
             SourceModuleHnNSF.l_sin_gen := gen;
             SourceModuleHnNSF.l_linear := lin |};
        noise_convs := noise_convs';
        conv_pre := conv_pre';
        ups := ups';
        resblocks := resblocks';
        conv_post := conv_post';
        training := training self;
        history := history self ++ [called_load_state_dict] |}.

(** No layer that was given a weight norm still holds one. *)
Definition no_weight_norm (self : t) : Prop :=
  Forall (fun up => weight_normed up = false) (ups self)
  /\ Forall (fun block =>
               Forall (fun normed => normed = false)
                      (ResBlock.convs_weight_normed block))
            (resblocks self)
  /\ weight_normed (conv_pre self) = false
  /\ weight_normed (conv_post self) = false.

End Generator.
(** ** ONNX models *)

Module onnx.

Inductive Dimension : Type :=
| Value (n : Z)           (* [dim_value] *)
| Param (s : string).     (* [dim_param] *)

(** Reading [dim_value] of a symbolic dimension gives the default 0. *)
Definition dim_value (d : Dimension) : Z :=
  match d with
  | Value n => n
  | Param _ => 0%Z
  end.

(** [onnx.TensorProto.FLOAT] *)
Definition FLOAT : nat := 1.

Record ValueInfoProto : Type := {
  name : string;
  elem_type : nat;
  shape : list Dimension
}.

Record ModelProto : Type := {
  input : list ValueInfoProto;     (* [model.graph.input] *)
  output : list ValueInfoProto;    (* [model.graph.output] *)
  node : list string;              (* [model.graph.node] *)
  opset : nat
}.

(** [onnx.helper.make_value_info] over [make_tensor_type_proto]. *)
Definition make_value_info (name : string) (elem_type : nat)
    (shape : list Dimension) : ValueInfoProto :=
  {| name := name; elem_type := elem_type; shape := shape |}.

Definition with_output (m : ModelProto) (outputs : list ValueInfoProto)
  : ModelProto :=
  {| input := input m; output := outputs; node := node m; opset := opset m |}.

End onnx.

(** ** The world of the script *)

(** The keyword arguments of [torch.onnx.export]. *)
Record ExportOptions : Type := {
  input_names : list string;
  output_names : list string;
  dynamic_axes : list (string * list (nat * string));
  opset_version : nat
}.

Inductive File : Type :=
| TextFile (content : string)
| CheckpointFile (cp_dict : string -> option StateDict)
| OnnxFile (model : onnx.ModelProto).

(** class NsfHiFiGAN, as a value. *)
Record NsfHiFiGAN_t : Type := {
  device : string;
  generator : Generator.t;
  vocoder_hparams : AttrDict
}.

(** Calls into the libraries that read or write models, in the order
    they are made. *)
Inductive Call : Type :=
| torch_load (path : string)
| torch_onnx_export (model : NsfHiFiGAN_t) (path : string) (opts : ExportOptions)
| onnx_load (path : string)
| onnxsim_simplify (model : onnx.ModelProto) (include_subgraph : bool)
| onnx_save (model : onnx.ModelProto) (path : string).

Record World : Type := {
  files : string -> option File;
  stdout : list string;
  argv : list string;                 (* [sys.argv] *)
  hparams : string -> option string;  (* the global [hparams] *)
  calls : list Call
}.

(** What the script takes from its libraries and from the modules of the
    repository that are not among the sources. *)
Record Externals : Type := {
  cuda_is_available : bool;
  os_path_split : string -> string * string;
  os_path_join : string -> string -> string;
  json_loads : string -> Result AttrDict;
  (** [utils.hparams.set_hparams]: the dictionary read from the
      configuration named on the command line. *)
  read_hparams : list string -> (string -> option File)
                 -> Result (string -> option string);
  (** The module constructors of [torch.nn] and of the repository. *)
  nn : Modules;
  (** The graph [torch.onnx.export] traces from a module on example
      inputs. *)
  trace : NsfHiFiGAN_t -> Tensor3 -> list Vector -> ExportOptions
          -> Result onnx.ModelProto;
  (** [onnxsim.simplify]: the simplified model and the outcome of its
      check. *)
  simplify_model : onnx.ModelProto -> bool -> onnx.ModelProto * bool;
  (** The example inputs drawn by [torch.rand] in [export]. *)
  rand_mel : nat -> nat -> R;
  rand_f0 : nat -> R
}.

(** A computation of the script: it reads and changes the world, and
    returns or raises.  What was changed before an exception stays
    changed. *)
Definition M (A : Type) : Type := World -> Result A * World.

Definition ret {A : Type} (a : A) : M A := fun w => (Ok a, w).
Definition raise {A : Type} (e : Exn) : M A := fun w => (Raise e, w).
Definition bind {A B : Type} (m : M A) (k : A -> M B) : M B :=
  fun w =>
    match m w with
    | (Ok a, w') => k a w'
    | (Raise e, w') => (Raise e, w')
    end.
Definition lift {A : Type} (r : Result A) : M A := fun w => (r, w).

Declare Scope world_scope.
Delimit Scope world_scope with world.
Notation "x <~ m ;; k" := (bind m (fun x => k))
  (at level 61, m at next level, right associativity) : world_scope.
Notation "m ;;; k" := (bind m (fun _ => k))
  (at level 61, right associativity) : world_scope.
Local Open Scope world_scope.

Definition print (line : string) : M unit :=
  fun w =>
    (Ok tt,
     {| files := files w;
        stdout := stdout w ++ [line];
        argv := argv w;
        hparams := hparams w;
        calls := calls w |}).

Definition record (c : Call) : M unit :=
  fun w =>
    (Ok tt,
     {| files := files w;
        stdout := stdout w;
        argv := argv w;
        hparams := hparams w;
        calls := calls w ++ [c] |}).

Definition write (path : string) (f : File) : M unit :=
  fun w =>
    (Ok tt,
     {| files := fun p => if String.eqb p path then Some f else files w p;
        stdout := stdout w;
        argv := argv w;
        hparams := hparams w;
        calls := calls w |}).

Definition read (path : string) : M File :=
  fun w =>
    match files w path with
    | Some f => (Ok f, w)
    | None => (Raise FileNotFoundError, w)
    end.

(** ** [Generator.remove_weight_norm], with its [print] *)

Definition Generator_remove_weight_norm (self : Generator.t) : M Generator.t :=
  print "Removing weight norm..." ;;;
  lift (Generator.remove_weight_norm self).

(** ** [load_model] *)

Definition load_model (ext : Externals) (model_path : string) (device : string)
  : M (Generator.t * AttrDict) :=
  let config_file :=
    os_path_join ext (fst (os_path_split ext model_path)) "config.json" in
  f <~ read config_file ;;
  data <~ match f with
          | TextFile data => ret data
          | _ => raise ValueError
          end ;;
  h <~ lift (json_loads ext data) ;;
  generator <~ lift (Generator.__init__ (nn ext) h) ;;
  record (torch_load model_path) ;;;
  f <~ read model_path ;;
  cp_dict <~ match f with
             | CheckpointFile cp_dict => ret cp_dict
             | _ => raise RuntimeError
             end ;;
  sd <~ match cp_dict "generator" with
        | Some sd => ret sd
        | None => raise KeyError
        end ;;
  generator <~ lift (Generator.load_state_dict generator sd) ;;
  let generator := Generator.eval generator in
  generator <~ Generator_remove_weight_norm generator ;;
  ret (generator, h).

(** ** class NsfHiFiGAN *)

Module NsfHiFiGAN.

Definition t : Type := NsfHiFiGAN_t.

Definition __init__ (ext : Externals) (device : option string) : M t :=
  let device :=
    match device with
    | Some d => d
    | None => if cuda_is_available ext then "cuda" else "cpu"
    end in
  ckpt <~ (fun w => match hparams w "vocoder_ckpt" with
                    | Some path => (Ok path, w)
                    | None => (Raise KeyError, w)
                    end) ;;
  loaded <~ load_model ext ckpt device ;;
  ret {| device := device;
         generator := fst loaded;
         vocoder_hparams := snd loaded |}.

(** [mel] has shape (batch, n_frames, num_mels), [f0] (batch, n_frames). *)
Definition forward (self : t) (rng : Draws) (mel : Tensor3) (f0 : list Vector)
  : Result (Squeezed R) :=
  let mel := scale 2.30259 (transpose_2_1 mel) in
  let wav := Generator.forward (generator self) rng mel f0 in
  wav.

End NsfHiFiGAN.

(** ** [simplify] *)

Definition simplify (ext : Externals) (src target : string) : M unit :=
  record (onnx_load src) ;;;
  f <~ read src ;;
  model <~ match f with
           | OnnxFile model => ret model
           | _ => raise ValueError
           end ;;
  input0 <~ lift (lookup (onnx.input model) 0) ;;
  let in_dims := onnx.shape input0 in
  let outputs := onnx.output model in
  output0 <~ lift (lookup outputs 0) ;;
  in_dim0 <~ lift (lookup in_dims 0) ;;
  let new_output :=
    onnx.make_value_info (onnx.name output0) onnx.FLOAT
      [onnx.Value (onnx.dim_value in_dim0); onnx.Param "n_samples"] in
  (* [outputs.remove(outputs[0])] takes out the first element equal to
     [outputs[0]], which is the one at index 0. *)
  let outputs := tl outputs in
  let outputs := new_output :: outputs in
  let model := onnx.with_output model outputs in
  output0' <~ lift (lookup (onnx.output model) 0) ;;
  print (String.append "Fix output: '" (String.append (onnx.name output0') "'")) ;;;
  record (onnxsim_simplify model true) ;;;
  let '(model, check) := simplify_model ext model true in
  (if check then ret tt
   else raise (AssertionError "Simplified ONNX model could not be validated")) ;;;
  record (onnx_save model target) ;;;
  write target (OnnxFile model).

(** ** [export] *)

Definition export_options : ExportOptions :=
  {| input_names := ["mel"; "f0"];
     output_names := ["waveform"];
     dynamic_axes := [("mel", [(1%nat, "n_frames")]); ("f0", [(1%nat, "n_frames")])];
     opset_version := 11 |}.

(** [torch.rand((1, n_frames, 128))] and [torch.rand((1, n_frames))] *)
Definition export_mel (ext : Externals) (n_frames : nat) : Tensor3 :=
  {| size0 := 1;
     size1 := n_frames;
     size2 := 128;
     data := [map (fun i => map (rand_mel ext i) (seq 0 128))
                  (seq 0 n_frames)] |}.
Definition export_f0 (ext : Externals) (n_frames : nat) : list Vector :=
  [map (rand_f0 ext) (seq 0 n_frames)].

Definition export (ext : Externals) (path : string) : M unit :=
  hp <~ (fun w => (read_hparams ext (argv w) (files w), w)) ;;
  (fun w => (Ok tt,
             {| files := files w;
                stdout := stdout w;
                argv := argv w;
                hparams := hp;
                calls := calls w |})) ;;;
  let device := if cuda_is_available ext then "cuda" else "cpu" in
  vocoder <~ NsfHiFiGAN.__init__ ext (Some device) ;;
  let n_frames := 10%nat in
  let mel := export_mel ext n_frames in
  let f0 := export_f0 ext n_frames in
  record (torch_onnx_export vocoder path export_options) ;;;
  graph <~ lift (trace ext vocoder mel f0 export_options) ;;
  write path (OnnxFile graph).

(** ** The script run as [__main__] *)

Definition main (ext : Externals) : M unit :=
  (fun w => (Ok tt,
             {| files := files w;
                stdout := stdout w;
                argv := ["inference/svs/ds_e2e.py"; "--config";
                         "configs/midi/cascade/opencs/test.yaml"];
                hparams := hparams w;
                calls := calls w |})) ;;;
  export ext "onnx/assets/nsf_hifigan.onnx" ;;;
  simplify ext "onnx/assets/nsf_hifigan.onnx" "onnx/assets/nsf_hifigan.onnx".

(** ** What the export is expected to trace

    [stripped G] is [G] after [remove_weight_norm]: every layer that
    [Generator.__init__] wraps in [weight_norm] (the layers of [ups],
    the convolutions of the blocks of [resblocks], [conv_pre] and
    [conv_post]) holds the weight computed from its [weight_g] and
    [weight_v] as one parameter. *)

Definition stripped_layer (m : Layer) : Layer :=
  {| weights := Plain (weight m); bias := bias m; functional := functional m |}.

Definition stripped_block (b : ResBlock.t) : ResBlock.t :=
  {| ResBlock.convs := map stripped_layer (ResBlock.convs b);
     ResBlock.body := ResBlock.body b |}.

Definition stripped (G : Generator.t) : Generator.t :=
  {| Generator.h := Generator.h G;
     Generator.num_kernels := Generator.num_kernels G;
     Generator.num_upsamples := Generator.num_upsamples G;
     Generator.f0_upsamp := Generator.f0_upsamp G;
     Generator.m_source := Generator.m_source G;
     Generator.noise_convs := Generator.noise_convs G;
     Generator.conv_pre := stripped_layer (Generator.conv_pre G);
     Generator.ups := map stripped_layer (Generator.ups G);
     Generator.resblocks := map stripped_block (Generator.resblocks G);
     Generator.conv_post := stripped_layer (Generator.conv_post G);
     Generator.training := Generator.training G;
     Generator.history := Generator.history G ++ [called_remove_weight_norm] |}.

(** Every layer that [Generator.__init__] wraps in [weight_norm] holds
    its weight norm. *)
Definition all_weight_normed (G : Generator.t) : Prop :=
  Forall (fun up => weight_normed up = true) (Generator.ups G)
  /\ Forall (fun block =>
               Forall (fun normed => normed = true)
                      (ResBlock.convs_weight_normed block))
            (Generator.resblocks G)
  /\ weight_normed (Generator.conv_pre G) = true
  /\ weight_normed (Generator.conv_post G) = true.

(** ** Layers that fit their inputs

    [fits G B N C T]: on a mel input of batch size [B] and a source of
    [N] samples the layers of [G] return tensors whose sizes agree.
    After [conv_pre] the tensor has [C 0] channels and length [T 0];
    the upsampling layer of stage [i] takes it from ([C i], [T i]) to
    ([C (i+1)], [T (i+1)]), the noise convolution of the stage takes the
    source to these sizes, the residual blocks of the stage keep them,
    and [conv_post] returns one channel.  There is at least one residual
    kernel size. *)
Definition fits (G : Generator.t) (B N : nat) (C T : nat -> nat) : Prop :=
  Generator.num_kernels G <> 0%nat
  /\ (forall i, (i < Generator.num_upsamples G)%nat ->
        exists up,
          lookup (Generator.ups G) i = Ok up
          /\ forall x, sizes x = (B, C i, T i) ->
               exists y, call up x = Ok y /\ sizes y = (B, C (S i), T (S i)))
  /\ (forall i, (i < Generator.num_upsamples G)%nat ->
        exists noise_conv,
          lookup (Generator.noise_convs G) i = Ok noise_conv
          /\ forall s, sizes s = (1%nat, 1%nat, N) ->
               exists y, call noise_conv s = Ok y
                         /\ sizes y = (1%nat, C (S i), T (S i)))
  /\ (forall i j, (i < Generator.num_upsamples G)%nat ->
        (j < Generator.num_kernels G)%nat ->
        exists block,
          lookup (Generator.resblocks G) (i * Generator.num_kernels G + j)
          = Ok block
          /\ forall x, sizes x = (B, C (S i), T (S i)) ->
               exists y, ResBlock.forward block x = Ok y
                         /\ sizes y = (B, C (S i), T (S i)))
  /\ (forall x,
        sizes x = (B, C (Generator.num_upsamples G), T (Generator.num_upsamples G)) ->
        exists y, call (Generator.conv_post G) x = Ok y
                  /\ sizes y = (B, 1%nat, T (Generator.num_upsamples G))).

(** The world after [write path f]. *)
Definition with_file (w : World) (path : string) (f : File) : string -> option File :=
  fun p => if String.eqb p path then Some f else files w p.

(** ** What [simplify] feeds the simplifier

    The model read from [src] with its first graph output replaced by a
    value info of the same name, element type FLOAT and shape
    (batch dimension of the first input, 'n_samples'). *)

Definition fixed_output (output0 : onnx.ValueInfoProto) (in_dim0 : onnx.Dimension)
  : onnx.ValueInfoProto :=
  {| onnx.name := onnx.name output0;
     onnx.elem_type := onnx.FLOAT;
     onnx.shape := [onnx.Value (onnx.dim_value in_dim0); onnx.Param "n_samples"] |}.

Definition fixed_model (model : onnx.ModelProto) (output0 : onnx.ValueInfoProto)
    (outputs : list onnx.ValueInfoProto) (in_dim0 : onnx.Dimension)
  : onnx.ModelProto :=
  {| onnx.input := onnx.input model;
     onnx.output := fixed_output output0 in_dim0 :: outputs;
     onnx.node := onnx.node model;
     onnx.opset := onnx.opset model |}.

Definition not_validated : string := "Simplified ONNX model could not be validated".
Definition exported_path : string := "onnx/assets/nsf_hifigan.onnx".

(** * The binary32 reading

    The tensors of the script hold float32 values.  The definitions
    below read the arithmetic of [SineGen], [SourceModuleHnNSF] and
    [Generator.forward] once more, over IEEE 754 binary32 with rounding
    to nearest, ties to even ([SpecFloat] of the Standard Library at
    precision 24 and maximal exponent 128): NaN, the infinities, the
    signed zeros and the rounding of every operation are those of the
    format.  A Python number ([float] or [int]) is a binary64 value; it
    is rounded to binary32 when it meets a tensor in an operation. *)

(** ** Python floats: binary64 *)

Module f64.

Abbreviation t := spec_float (only parsing).

Definition prec : Z := 53.
Definition emax : Z := 1024.

Definition zero : t := S754_zero false.
Definition of_Z (z : Z) : t := binary_normalize prec emax z 0 false.
Definition add : t -> t -> t := SFadd prec emax.
Definition mul : t -> t -> t := SFmul prec emax.
Definition div : t -> t -> t := SFdiv prec emax.

End f64.

(** ** Tensor elements: binary32 *)

Module f32.

Abbreviation t := spec_float (only parsing).

Definition prec : Z := 24.
Definition emax : Z := 128.

Definition zero : t := S754_zero false.
Definition nan : t := S754_nan.
Definition of_Z (z : Z) : t := binary_normalize prec emax z 0 false.
Definition one : t := of_Z 1.

(** The conversion of a binary64 value, as in [float(x)] of C and in the
    meeting of a Python number with a float32 tensor. *)
Definition of_f64 (x : f64.t) : t :=
  match x with
  | S754_finite s m e => binary_round prec emax s m e
  | _ => x
  end.

Definition add : t -> t -> t := SFadd prec emax.
Definition sub : t -> t -> t := SFsub prec emax.
Definition mul : t -> t -> t := SFmul prec emax.
Definition div : t -> t -> t := SFdiv prec emax.
Definition ltb : t -> t -> bool := SFltb.
Definition eqb : t -> t -> bool := SFeqb.

Definition is_nan (x : t) : bool :=
  match x with
  | S754_nan => true
  | _ => false
  end.

(** [x.fmod(1.)], the C function [fmodf]: exact, with the sign of [x];
    NaN on NaN and on the infinities. *)
Definition fmod1 (x : t) : t :=
  match x with
  | S754_nan | S754_infinity _ => S754_nan
  | S754_zero _ => x
  | S754_finite s m e =>
      match e with
      | Zneg k =>
          match (Zpos m mod 2 ^ Zpos k)%Z with
          | Zpos r => binary_round prec emax s r e
          | _ => S754_zero s
          end
      | _ => S754_zero s
      end
  end.

(** [(x < 0).float()] and [(x > thr).float()]: a comparison with NaN is
    false. *)
Definition lt0 (x : t) : t := if ltb x zero then one else zero.
Definition gt (thr x : t) : t := if ltb thr x then one else zero.

(** The real number a finite value stands for. *)
Definition to_R (x : t) : R :=
  match x with
  | S754_finite s m e => IZR (cond_Zopp s (Zpos m)) * powerRZ 2 e
  | _ => 0
  end.

(** Rounding of a real number to nearest, ties to even: [mag x] is the
    exponent with 2^(mag x - 1) <= |x| < 2^(mag x), [fexp] the exponent
    of the last place, [rne] the nearest whole number. *)
Definition mag (x : R) : Z := (Int_part (ln (Rabs x) / ln 2) + 1)%Z.
Definition rne (x : R) : Z :=
  let n := Int_part x in
  let f := x - IZR n in
  if Rlt_dec f (1 / 2) then n
  else if Rlt_dec (1 / 2) f then (n + 1)%Z
  else if Z.even n then n else (n + 1)%Z.
Definition round (x : R) : t :=
  if Req_dec_T x 0 then zero
  else
    let e := fexp prec emax (mag x) in
    let m := rne (Rabs x * powerRZ 2 (- e)) in
    if Rlt_dec x 0 then binary_normalize prec emax (- m) e true
    else binary_normalize prec emax m e false.

(** [torch.sin] and [torch.tanh] on the values that are neither NaN, nor
    infinite, nor zero: the real function, rounded. *)
Definition sin_finite (x : t) : t := round (sin (to_R x)).
Definition tanh_finite (x : t) : t := round (tanh (to_R x)).

(** [torch.sin] and [torch.tanh] (C's [sinf] and [tanhf]): NaN on NaN,
    the zero itself on a zero; [sin] of an infinity is NaN, [tanh] of an
    infinity is 1 or -1. *)
Definition sin (x : t) : t :=
  match x with
  | S754_nan | S754_infinity _ => S754_nan
  | S754_zero _ => x
  | S754_finite _ _ _ => sin_finite x
  end.
Definition tanh (x : t) : t :=
  match x with
  | S754_nan => S754_nan
  | S754_infinity s => if s then SFopp one else one
  | S754_zero _ => x
  | S754_finite _ _ _ => tanh_finite x
  end.

End f32.

(** ** Tensor operations over binary32 *)

Module torch32.

Abbreviation Vector := (list spec_float) (only parsing).
Abbreviation Matrix := (list (list spec_float)) (only parsing).

Definition entry (X : Matrix) (t d : nat) : spec_float :=
  nth d (nth t X []) S754_nan.

Definition vadd (a b : Vector) : Vector := zip_with f32.add a b.
Definition mmap (f : spec_float -> spec_float) (X : Matrix) : Matrix :=
  map (map f) X.
Definition msub (X Y : Matrix) : Matrix := zip_with (zip_with f32.sub) X Y.
Definition zeros (D : nat) : Vector := repeat f32.zero D.
Definition rand (u : nat -> spec_float) (D : nat) : Vector := map u (seq 0 D).
Definition randn_like (g : nat -> nat -> spec_float) (X : Matrix) : Matrix :=
  zip_with (fun t row => map (g t) (seq 0 (length row))) (seq 0 (length X)) X.

(** [torch.cumsum(X, dim=1)] on a float32 tensor: the running sum of a
    channel is kept in binary64, starting from 0, and every prefix is
    stored rounded to binary32. *)
Fixpoint cumsum_from (acc : list f64.t) (X : Matrix) : Matrix :=
  match X with
  | [] => []
  | row :: X' =>
      let acc' := zip_with f64.add acc row in
      map f32.of_f64 acc' :: cumsum_from acc' X'
  end.
Definition cumsum (X : Matrix) : Matrix :=
  cumsum_from (map (fun _ => f64.zero) (hd [] X)) X.

(** [Conv2d] with stride 1, padding 0, dilation 1 and no bias, as in
    [torch.Conv2d] above, every product and sum rounded. *)
Definition dot (w x : Vector) : spec_float :=
  fold_right f32.add f32.zero (zip_with f32.mul w x).
Definition window (w x : Matrix) (t d : nat) : spec_float :=
  fold_right f32.add f32.zero
    (zip_with (fun w_i x_i => dot w_i (skipn d x_i)) w (skipn t x)).
Definition Conv2d (weight : list (list Matrix)) (x : list Matrix)
  : Result (list Matrix) :=
  let in_channels := length (hd [] weight) in
  let kh := length (hd [] (hd [] weight)) in
  let kw := length (hd [] (hd [] (hd [] weight))) in
  let H := length (hd [] x) in
  let W := length (hd [] (hd [] x)) in
  if (length x =? in_channels)%nat && (kh <=? H)%nat && (kw <=? W)%nat then
    Ok (map (fun w_o =>
          map (fun t =>
            map (fun d =>
              fold_right f32.add f32.zero
                (zip_with (fun w_c x_c => window w_c x_c t d) w_o x))
              (seq 0 (W - kw + 1)))
            (seq 0 (H - kh + 1)))
          weight)
  else Raise RuntimeError.

Definition unsqueeze1 (X : Matrix) : list Matrix := [X].
Definition squeeze1 (Y : list Matrix) : Result Matrix :=
  match Y with
  | [X] => Ok X
  | _ => Raise RuntimeError
  end.
Definition cat1 (A B : Matrix) : Result Matrix :=
  match A, B with
  | a :: _, b :: _ =>
      if (length a =? length b)%nat then Ok (A ++ B) else Raise RuntimeError
  | _, _ => Ok (A ++ B)
  end.

End torch32.

(** ** class SineGen over binary32 *)

Module SineGen32.

(** The attributes set from Python numbers are binary64 values. *)
Record t : Type := {
  sine_amp : f64.t;
  noise_std : f64.t;
  harmonic_num : nat;
  dim : nat;
  sampling_rate : f64.t;
  voiced_threshold : f64.t;
  diff : list (list torch32.Matrix)
}.

Definition __init__ (samp_rate : f64.t) (harmonic_num : nat)
    (sine_amp noise_std voiced_threshold : f64.t) : t :=
  {| sine_amp := sine_amp;
     noise_std := noise_std;
     harmonic_num := harmonic_num;
     dim := harmonic_num + 1;
     sampling_rate := samp_rate;
     voiced_threshold := voiced_threshold;
     diff := [[[[f32.of_Z (-1)]; [f32.of_Z 1]]]] |}.

(** Lines 65-70. *)
Definition rad_values (self : t) (u : nat -> spec_float)
    (f0_values : torch32.Matrix) : Result torch32.Matrix :=
  let sr := f32.of_f64 (sampling_rate self) in
  let rad_values :=
    torch32.mmap (fun x => f32.fmod1 (f32.div x sr)) f0_values in
  rand_ini <- match torch32.rand u (dim self) with
              | [] => Raise IndexError
              | _ :: rest => Ok (f32.zero :: rest)
              end ;;
  match rad_values with
  | [] => Raise IndexError
  | first :: rest =>
      if (length first =? length rand_ini)%nat then
        Ok (torch32.vadd first rand_ini :: rest)
      else if (length rand_ini =? 1)%nat then
        Ok (map (fun x => f32.add x (hd f32.zero rand_ini)) first :: rest)
      else Raise RuntimeError
  end.

(** Lines 78-82. *)
Definition cumsum_shift (self : t) (rad_values : torch32.Matrix)
  : Result torch32.Matrix :=
  let tmp_over_one := torch32.mmap f32.fmod1 (torch32.cumsum rad_values) in
  conv <- torch32.Conv2d (diff self) (torch32.unsqueeze1 tmp_over_one) ;;
  diff <- torch32.squeeze1 conv ;;
  let cumsum_shift := torch32.mmap f32.lt0 diff in
  torch32.cat1 [torch32.zeros (dim self)] cumsum_shift.

(** The argument of [torch.sin] on line 83 before the factor 2*pi. *)
Definition phase (self : t) (u : nat -> spec_float)
    (f0_values : torch32.Matrix) : Result torch32.Matrix :=
  rad_values <- rad_values self u f0_values ;;
  cumsum_shift <- cumsum_shift self rad_values ;;
  Ok (torch32.cumsum (torch32.msub rad_values cumsum_shift)).

(** [2 * np.pi], the Python float 6.283185307179586. *)
Definition two_pi : f64.t := S754_finite false 884279719003555 (-47).

Definition _f02sine (self : t) (u : nat -> spec_float)
    (f0_values : torch32.Matrix) : Result torch32.Matrix :=
  phase <- phase self u f0_values ;;
  Ok (torch32.mmap (fun x => f32.sin (f32.mul x (f32.of_f64 two_pi))) phase).

(** [torch.FloatTensor([[range(1, self.harmonic_num + 2)]])] *)
Definition harmonics (self : t) : torch32.Vector :=
  map (fun k => f32.of_Z (Z.of_nat k)) (seq 1 (harmonic_num self + 1)).

Definition fn (self : t) (f0 : torch32.Vector) : torch32.Matrix :=
  map (fun x => map (fun k => f32.mul x k) (harmonics self)) f0.

(** [forward]: [self.sine_amp / 3] is a division of Python numbers. *)
Definition forward (self : t) (u : nat -> spec_float)
    (g : nat -> nat -> spec_float) (f0 : torch32.Vector)
  : Result (torch32.Matrix * torch32.Vector * torch32.Matrix) :=
  let fn := fn self f0 in
  sines <- _f02sine self u fn ;;
  let amp := f32.of_f64 (sine_amp self) in
  let sine_waves := torch32.mmap (fun x => f32.mul x amp) sines in
  let uv := map (f32.gt (f32.of_f64 (voiced_threshold self))) f0 in
  let std := f32.of_f64 (noise_std self) in
  let third := f32.of_f64 (f64.div (sine_amp self) (f64.of_Z 3)) in
  let noise_amp :=
    map (fun v => f32.add (f32.mul v std)
                          (f32.mul (f32.sub f32.one v) third)) uv in
  let noise :=
    zip_with (fun a row => map (fun z => f32.mul a z) row)
      noise_amp (torch32.randn_like g sine_waves) in
  let sine_waves :=
    zip_with torch32.vadd
      (zip_with (fun row v => map (fun x => f32.mul x v) row) sine_waves uv)
      noise in
  Ok (sine_waves, uv, noise).

End SineGen32.

(** ** class SourceModuleHnNSF over binary32

    The order in which the library sums the products of a linear layer
    or of a convolution is its own: over binary32 a layer with learned
    weights is the function it computes. *)

Record Draws32 : Type := {
  rand_ini32 : nat -> spec_float;
  randn_sine32 : nat -> nat -> spec_float;
  randn_noise32 : nat -> spec_float
}.

Module SourceModuleHnNSF32.

Record t : Type := {
  sine_amp : f64.t;
  noise_std : f64.t;
  l_sin_gen : SineGen32.t;
  l_linear : torch32.Matrix -> Result torch32.Matrix
}.

Definition __init__ (sampling_rate : f64.t) (harmonic_num : nat)
    (sine_amp add_noise_std voiced_threshod : f64.t)
    (l_linear : torch32.Matrix -> Result torch32.Matrix) : t :=
  {| sine_amp := sine_amp;
     noise_std := add_noise_std;
     l_sin_gen :=
       SineGen32.__init__ sampling_rate harmonic_num sine_amp add_noise_std
         voiced_threshod;
     l_linear := l_linear |}.

Definition forward (self : t) (rng : Draws32) (x : torch32.Vector)
  : Result (torch32.Matrix * torch32.Vector * torch32.Vector) :=
  gen <- SineGen32.forward (l_sin_gen self) (rand_ini32 rng) (randn_sine32 rng) x ;;
  let '(sine_wavs, uv, _) := gen in
  lin <- l_linear self sine_wavs ;;
  let sine_merge := torch32.mmap f32.tanh lin in
  let third := f32.of_f64 (f64.div (sine_amp self) (f64.of_Z 3)) in
  let noise :=
    map (fun t => f32.mul (randn_noise32 rng t) third) (seq 0 (length uv)) in
  Ok (sine_merge, noise, uv).

End SourceModuleHnNSF32.

(** ** [Generator.forward] over binary32 *)

Module Generator32.

Abbreviation Tensor32 := (Tensor spec_float) (only parsing).

Record t : Type := {
  num_kernels : nat;
  num_upsamples : nat;
  f0_upsamp : torch32.Vector -> Result torch32.Vector;
  m_source : SourceModuleHnNSF32.t;
  noise_convs : list (Tensor32 -> Result Tensor32);
  conv_pre : Tensor32 -> Result Tensor32;
  ups : list (Tensor32 -> Result Tensor32);
  resblocks : list (Tensor32 -> Result Tensor32);
  conv_post : Tensor32 -> Result Tensor32
}.

(** [functional.leaky_relu(x, negative_slope)]: x when x > 0, and
    x * negative_slope otherwise. *)
Definition leaky_relu (negative_slope : f64.t) (x : spec_float) : spec_float :=
  if f32.ltb f32.zero x then x else f32.mul x (f32.of_f64 negative_slope).

(** [LRELU_SLOPE], the Python float 0.1, and the default slope 0.01. *)
Definition LRELU_SLOPE : f64.t := S754_finite false 3602879701896397 (-55).
Definition default_slope : f64.t := S754_finite false 5764607523034235 (-59).

Fixpoint sum_resblocks (self : t) (i : nat) (x : Tensor32) (js : list nat)
    (xs : option Tensor32) : Result (option Tensor32) :=
  match js with
  | [] => Ok xs
  | j :: js' =>
      block <- lookup (resblocks self) (i * num_kernels self + j) ;;
      r <- block x ;;
      xs' <- match xs with
             | None => Ok r
             | Some s => broadcast_ f32.nan f32.add s r
             end ;;
      sum_resblocks self i x js' (Some xs')
  end.

Fixpoint stages (self : t) (har_source : Tensor32) (stage : list nat)
    (x : Tensor32) : Result Tensor32 :=
  match stage with
  | [] => Ok x
  | i :: stage' =>
      let x := tmap (leaky_relu LRELU_SLOPE) x in
      up <- lookup (ups self) i ;;
      x <- up x ;;
      noise_conv <- lookup (noise_convs self) i ;;
      x_source <- noise_conv har_source ;;
      x <- broadcast f32.nan f32.add x x_source ;;
      xs <- sum_resblocks self i x (seq 0 (num_kernels self)) None ;;
      x <- match xs with
           | None => Raise TypeError
           | Some xs =>
               Ok (tmap (fun v => f32.div v (f32.of_Z (Z.of_nat (num_kernels self))))
                        xs)
           end ;;
      stages self har_source stage' x
  end.

Definition source (self : t) (rng : Draws32) (f0 : list torch32.Vector)
  : Result (torch32.Matrix * torch32.Vector * torch32.Vector) :=
  match f0 with
  | [row] => SourceModuleHnNSF32.forward (m_source self) rng row
  | [] => Raise RuntimeError
  | row :: _ :: _ =>
      if (length row =? 0)%nat then Raise IndexError else Raise RuntimeError
  end.

Definition forward (self : t) (rng : Draws32) (x : Tensor32)
    (f0 : list torch32.Vector) : Result (Squeezed spec_float) :=
  f0 <- mapM (f0_upsamp self) f0 ;;
  src <- source self rng f0 ;;
  let '(har_source, noi_source, uv) := src in
  let har_source :=
    {| size0 := 1;
       size1 := 1;
       size2 := length har_source;
       data := [[map (fun row => nth 0 row f32.nan) har_source]] |} in
  x <- conv_pre self x ;;
  x <- stages self har_source (seq 0 (num_upsamples self)) x ;;
  let x := tmap (leaky_relu default_slope) x in
  x <- conv_post self x ;;
  let x := tmap f32.tanh x in
  Ok (squeeze1_3d x).

End Generator32.
(** ** Concrete inputs

    A small sine generator (one overtone), a two-step input, and a world
    with a configuration, a checkpoint and stand-ins for the libraries,
    on which the properties below are exercised. *)

Definition example_sinegen : SineGen.t := SineGen.__init__ 4 1 0.1 0.003 0.
Definition example_u : nat -> R := fun _ => 1 / 2.
Definition example_g : nat -> nat -> R := fun _ _ => 1.
Definition example_f0_values : Matrix := [[1; 2]; [3; 6]].
Definition example_f0 : Vector := [1; 0; 3].
Definition example_rng : Draws :=
  {| rand_ini := example_u; randn_sine := example_g; randn_noise := fun _ => 1 |}.

Definition example_h : AttrDict :=
  {| sampling_rate := 44100;
     num_mels := 2;
     upsample_rates := [2%nat];
     upsample_kernel_sizes := [4%nat];
     upsample_initial_channel := 2;
     resblock := "1";
     resblock_kernel_sizes := [3%nat];
     resblock_dilation_sizes := [[1%nat; 3%nat; 5%nat]] |}.

(** Stand-ins for the layers: a convolution that leaves its input as it
    is, and a transposed convolution that repeats every value of the
    first channel [stride] times on each of its output channels. *)
Definition example_weight : nn_Parameter := {| pshape := [1%nat; 1%nat; 1%nat]; pvalues := [1] |}.
Definition example_conv : Convolution :=
  {| initial_weight := example_weight;
     initial_bias := None;
     convolve := fun _ _ x => Ok x |}.
Definition example_up (out_channels stride : nat) : Convolution :=
  {| initial_weight := example_weight;
     initial_bias := None;
     convolve :=
       fun _ _ x =>
         Ok {| size0 := size0 x;
               size1 := out_channels;
               size2 := size2 x * stride;
               data :=
                 map (fun channels =>
                        map (fun _ => flat_map (fun v => repeat v stride)
                                               (hd [] channels))
                            (seq 0 out_channels))
                     (data x) |} |}.

(** A stand-in for the nearest-neighbour interpolation: every value is
    repeated [s] times; an empty row raises. *)
Definition example_interpolate (s : nat) (row : Vector) : Result Vector :=
  match row with
  | [] => Raise RuntimeError
  | _ :: _ => Ok (flat_map (fun v => repeat v s) row)
  end.

Definition example_nn : Modules :=
  {| Conv1d := fun _ _ _ _ _ => Ok example_conv;
     ConvTranspose1d := fun _ out_channels _ stride _ => Ok (example_up out_channels stride);
     Linear_weight := fun _ _ _ _ => 1;
     Linear_bias := fun _ _ _ => 0;
     interpolate := example_interpolate;
     ResBlock1 := fun _ _ _ _ => Ok (repeat example_conv 6, fun _ x => Ok x);
     ResBlock2 := fun _ _ _ _ => Ok (repeat example_conv 4, fun _ x => Ok x);
     init_weights := fun _ => Ok tt |}.

(** A state dict with the norm and the direction of the weight of
    [conv_pre]. *)
Definition example_state_dict : StateDict :=
  fun key =>
    match key with
    | K_conv_pre Weight_g => Some {| pshape := [1%nat; 1%nat; 1%nat]; pvalues := [2] |}
    | K_conv_pre Weight_v => Some {| pshape := [1%nat; 1%nat; 1%nat]; pvalues := [3] |}
    | _ => None
    end.

(** The generator that [Generator.__init__] builds from [example_nn] and
    [example_h], and the one [load_state_dict] makes of it on
    [example_state_dict]. *)
Definition example_normed (c : Convolution) : Layer :=
  {| weights := Normed (norm_except_dim (initial_weight c)) (initial_weight c);
     bias := initial_bias c;
     functional := convolve c |}.

Definition example_generator0 : Generator.t :=
  {| Generator.h := example_h;
     Generator.num_kernels := 1;
     Generator.num_upsamples := 1;
     Generator.f0_upsamp := Upsample.__init__ example_nn 2;
     Generator.m_source :=
       SourceModuleHnNSF.__init__ 44100 8 0.1 0.003 0
         (Linear_weight example_nn 9 1) (Linear_bias example_nn 9 1);
     Generator.noise_convs := [layer example_conv];
     Generator.conv_pre := example_normed example_conv;
     Generator.ups := [example_normed (example_up 1 2)];
     Generator.resblocks :=
       [ {| ResBlock.convs := repeat (example_normed example_conv) 6;
            ResBlock.body := fun _ x => Ok x |} ];
     Generator.conv_post := example_normed example_conv;
     Generator.training := true;
     Generator.history := [] |}.

Definition example_generator1 : Generator.t :=
  {| Generator.h := example_h;
     Generator.num_kernels := 1;
     Generator.num_upsamples := 1;
     Generator.f0_upsamp := Upsample.__init__ example_nn 2;
     Generator.m_source :=
       SourceModuleHnNSF.__init__ 44100 8 0.1 0.003 0
         (Linear_weight example_nn 9 1) (Linear_bias example_nn 9 1);
     Generator.noise_convs := [layer example_conv];
     Generator.conv_pre :=
       {| weights :=
            Normed {| pshape := [1%nat; 1%nat; 1%nat]; pvalues := [2] |}
                   {| pshape := [1%nat; 1%nat; 1%nat]; pvalues := [3] |};
          bias := None;
          functional := convolve example_conv |};
     Generator.ups := [example_normed (example_up 1 2)];
     Generator.resblocks :=
       [ {| ResBlock.convs := repeat (example_normed example_conv) 6;
            ResBlock.body := fun _ x => Ok x |} ];
     Generator.conv_post := example_normed example_conv;
     Generator.training := true;
     Generator.history := [called_load_state_dict] |}.

(** A state dict whose [conv_pre.weight_v] has another shape than the
    parameter of the module. *)
Definition example_state_dict_mismatch : StateDict :=
  fun key =>
    match key with
    | K_conv_pre Weight_v => Some {| pshape := [2%nat; 1%nat; 1%nat]; pvalues := [3; 3] |}
    | _ => None
    end.

(** The channels and lengths along [example_generator] on an input of
    two frames: two channels of length 2 after [conv_pre], one channel
    of length 4 after the upsampling stage. *)
Definition example_channels (i : nat) : nat :=
  match i with
  | O => 2
  | S _ => 1
  end.
Definition example_lengths (i : nat) : nat :=
  match i with
  | O => 2
  | S _ => 4
  end.

(** A generator as [load_model] leaves it: no weight norm, evaluation
    mode. *)
Definition example_generator : Generator.t :=
  {| Generator.h := example_h;
     Generator.num_kernels := 1;
     Generator.num_upsamples := 1;
     Generator.f0_upsamp := Upsample.__init__ example_nn 2;
     Generator.m_source :=
       SourceModuleHnNSF.__init__ 44100 8 0.1 0.003 0
         (Linear_weight example_nn 9 1) (Linear_bias example_nn 9 1);
     Generator.noise_convs := [layer example_conv];
     Generator.conv_pre := layer example_conv;
     Generator.ups := [layer (example_up 1 2)];
     Generator.resblocks :=
       [ {| ResBlock.convs := repeat (layer example_conv) 6;
            ResBlock.body := fun _ x => Ok x |} ];
     Generator.conv_post := layer example_conv;
     Generator.training := false;
     Generator.history :=
       [called_load_state_dict; called_eval; called_remove_weight_norm] |}.

Definition example_vocoder : NsfHiFiGAN_t :=
  {| device := "cpu";
     generator := example_generator;
     vocoder_hparams := example_h |}.

Definition example_mel : Tensor3 :=
  {| size0 := 1; size1 := 2; size2 := 2; data := [[[1; 2]; [3; 4]]] |}.

(** A mel input of batch size two. *)
Definition example_mel_pair : Tensor3 :=
  {| size0 := 2;
     size1 := 2;
     size2 := 2;
     data := [[[1; 2]; [3; 4]]; [[5; 6]; [7; 8]]] |}.

Definition example_mel_info : onnx.ValueInfoProto :=
  {| onnx.name := "mel";
     onnx.elem_type := onnx.FLOAT;
     onnx.shape := [onnx.Value 1; onnx.Param "n_frames"; onnx.Value 128] |}.
Definition example_f0_info : onnx.ValueInfoProto :=
  {| onnx.name := "f0";
     onnx.elem_type := onnx.FLOAT;
     onnx.shape := [onnx.Value 1; onnx.Param "n_frames"] |}.
Definition example_waveform_info : onnx.ValueInfoProto :=
  {| onnx.name := "waveform";
     onnx.elem_type := onnx.FLOAT;
     onnx.shape := [onnx.Param "Squeezewaveform_dim_0";
                    onnx.Param "Squeezewaveform_dim_1"] |}.

Definition example_graph : onnx.ModelProto :=
  {| onnx.input := [example_mel_info; example_f0_info];
     onnx.output := [example_waveform_info];
     onnx.node := ["Transpose"; "Mul"; "Conv"; "Tanh"; "Squeeze"];
     onnx.opset := 11 |}.

Definition example_hparams : string -> option string :=
  fun key => if String.eqb key "vocoder_ckpt" then Some "checkpoints/model" else None.

Definition example_cp_dict : string -> option StateDict :=
  fun key => if String.eqb key "generator" then Some example_state_dict else None.

Definition example_ext : Externals :=
  {| cuda_is_available := false;
     os_path_split := fun _ => ("checkpoints", "model");
     os_path_join := fun a b => String.append a (String.append "/" b);
     json_loads := fun _ => Ok example_h;
     read_hparams := fun _ _ => Ok example_hparams;
     nn := example_nn;
     trace := fun _ _ _ _ => Ok example_graph;
     simplify_model := fun m _ => (m, true);
     rand_mel := fun _ _ => 1 / 2;
     rand_f0 := fun _ => 1 / 2 |}.

Definition example_world : World :=
  {| files :=
       fun p =>
         if String.eqb p "checkpoints/config.json" then Some (TextFile "{}")
         else if String.eqb p "checkpoints/model" then
           Some (CheckpointFile example_cp_dict)
         else if String.eqb p "a.onnx" then Some (OnnxFile example_graph)
         else None;
     stdout := [];
     argv := [];
     hparams := fun _ => None;
     calls := [] |}.

(** A generator with an upsampling stage and no residual kernel size. *)
Definition example_generator_no_kernel : Generator.t :=
  {| Generator.h := example_h;
     Generator.num_kernels := 0;
     Generator.num_upsamples := 1;
     Generator.f0_upsamp := Generator.f0_upsamp example_generator;
     Generator.m_source := Generator.m_source example_generator;
     Generator.noise_convs := Generator.noise_convs example_generator;
     Generator.conv_pre := Generator.conv_pre example_generator;
     Generator.ups := Generator.ups example_generator;
     Generator.resblocks := [];
     Generator.conv_post := Generator.conv_post example_generator;
     Generator.training := false;
     Generator.history := [] |}.

(** *** Inputs of the binary32 reading

    The Python numbers 0.1 and 0.003, the sine generator at sampling
    rate 5 with no overtone and the one the generator builds at 44100 Hz
    with eight overtones, and draws that are all 1/2, all 0 or all 1. *)

Definition py_0_1 : f64.t := S754_finite false 3602879701896397 (-55).
Definition py_0_003 : f64.t := S754_finite false 3458764513820541 (-60).

Definition example_sinegen32_9 : SineGen32.t :=
  SineGen32.__init__ (f64.of_Z 44100) 8 py_0_1 py_0_003 (f64.of_Z 0).

Definition example_half32 : spec_float := S754_finite false 8388608 (-24).
Definition example_u32 : nat -> spec_float := fun _ => example_half32.
Definition example_g32 : nat -> nat -> spec_float := fun _ _ => f32.one.

Definition example_f0_nan : torch32.Vector := [f32.of_Z 220; f32.nan; f32.zero].

(** The finite value 2^127 followed by an unvoiced step: twice the
    first value is beyond the largest binary32 number. *)
Definition example_f0_large : torch32.Vector :=
  [S754_finite false 8388608 104; f32.zero].

(** A generator over binary32 with one upsampling stage of rate 2 and one
    residual block.  The linear layer of the source has weights 0 and
    bias 0; [conv_post] has a kernel of size one with weight 0 and
    bias 16; the other layers are those of [example_generator]. *)
Definition example_interpolate32 (s : nat) (row : torch32.Vector)
  : Result torch32.Vector :=
  match row with
  | [] => Raise RuntimeError
  | _ :: _ => Ok (flat_map (fun v => repeat v s) row)
  end.
Definition example_up32 (out_channels stride : nat) (x : Tensor spec_float)
  : Result (Tensor spec_float) :=
  Ok {| size0 := size0 x;
        size1 := out_channels;
        size2 := size2 x * stride;
        data :=
          map (fun channels =>
                 map (fun _ => flat_map (fun v => repeat v stride)
                                        (hd [] channels))
                     (seq 0 out_channels))
              (data x) |}.
Definition example_sixteen : spec_float := f32.of_Z 16.
Definition example_rng32 : Draws32 :=
  {| rand_ini32 := fun _ => f32.zero;
     randn_sine32 := example_g32;
     randn_noise32 := fun _ => f32.one |}.
Definition example_generator32 : Generator32.t :=
  {| Generator32.num_kernels := 1;
     Generator32.num_upsamples := 1;
     Generator32.f0_upsamp := example_interpolate32 2;
     Generator32.m_source :=
       SourceModuleHnNSF32.__init__ (f64.of_Z 44100) 8 py_0_1 py_0_003
         (f64.of_Z 0)
         (fun X =>
            Ok (map (fun row =>
                       [fold_right (fun x acc => f32.add (f32.mul f32.zero x) acc)
                                   f32.zero row])
                    X));
     Generator32.noise_convs := [fun x => Ok x];
     Generator32.conv_pre := fun x => Ok x;
     Generator32.ups := [example_up32 1 2];
     Generator32.resblocks := [fun x => Ok x];
     Generator32.conv_post :=
       fun x =>
         Ok (tmap (fun v => f32.add (f32.mul f32.zero v) example_sixteen) x) |}.
Definition example_mel32 : Tensor spec_float :=
  {| size0 := 1;
     size1 := 2;
     size2 := 2;
     data := [[[f32.one; f32.one]; [f32.one; f32.one]]] |}.
(** * Properties *)

(** ** The operations on small inputs *)

Lemma Int_part_of (x : R) (z : Z) : IZR z <= x < IZR z + 1 -> Int_part x = z.
Proof. intros H. symmetry. apply Int_part_spec. lra. Qed.

Example fmod_positive : fmod (5 / 2) 1 = 1 / 2.
Proof.
  unfold fmod, trunc. replace (5 / 2 / 1) with (5 / 2) by field.
  destruct (Rle_dec 0 (5 / 2)); [|lra].
  rewrite (Int_part_of (5 / 2) 2) by lra. lra.
Qed.

Example fmod_negative : fmod (- 5 / 2) 1 = - 1 / 2.
Proof.
  unfold fmod, trunc. replace (- 5 / 2 / 1) with (- 5 / 2) by field.
  destruct (Rle_dec 0 (- 5 / 2)); [lra|].
  replace (- (- 5 / 2)) with (5 / 2) by field.
  rewrite (Int_part_of (5 / 2) 2) by lra. rewrite opp_IZR. lra.
Qed.

Example cumsum_example :
  cumsum [[1; 2]; [3; 4]; [5; 6]] = [[1; 2]; [1 + 3; 2 + 4]; [1 + 3 + 5; 2 + 4 + 6]].
Proof. reflexivity. Qed.

Example diff_filter_example :
  Conv2d (SineGen.diff example_sinegen) (unsqueeze1 [[1; 2]; [4; 8]; [5; 5]])
  = Ok [[[-1 * 1 + 0 + (1 * 4 + 0 + 0) + 0; -1 * 2 + 0 + (1 * 8 + 0 + 0) + 0];
         [-1 * 4 + 0 + (1 * 5 + 0 + 0) + 0; -1 * 8 + 0 + (1 * 5 + 0 + 0) + 0]]].
Proof. reflexivity. Qed.

Example diff_filter_one_step :
  Conv2d (SineGen.diff example_sinegen) (unsqueeze1 [[1; 2]]) = Raise RuntimeError.
Proof. reflexivity. Qed.

Example f02sine_one_step :
  SineGen._f02sine example_sinegen example_u [[1; 2]] = Raise RuntimeError.
Proof. reflexivity. Qed.

Example f02sine_no_step :
  SineGen._f02sine example_sinegen example_u [] = Raise IndexError.
Proof. reflexivity. Qed.

Example transpose_example : transpose 2 [[1; 2]; [3; 4]; [5; 6]] = [[1; 3; 5]; [2; 4; 6]].
Proof. reflexivity. Qed.

Example broadcast_example :
  broadcast 0 Rplus
    {| size0 := 1; size1 := 2; size2 := 2; data := [[[1; 2]; [3; 4]]] |}
    {| size0 := 1; size1 := 1; size2 := 1; data := [[[10]]] |}
  = Ok {| size0 := 1; size1 := 2; size2 := 2;
          data := [[[1 + 10; 2 + 10]; [3 + 10; 4 + 10]]] |}.
Proof. reflexivity. Qed.

Example broadcast_mismatch :
  broadcast 0 Rplus
    {| size0 := 1; size1 := 2; size2 := 2; data := [[[1; 2]; [3; 4]]] |}
    {| size0 := 1; size1 := 1; size2 := 3; data := [[[1; 2; 3]]] |}
  = Raise RuntimeError.
Proof. reflexivity. Qed.

Example broadcast_in_place :
  broadcast_ 0 Rplus
    {| size0 := 1; size1 := 1; size2 := 1; data := [[[10]]] |}
    {| size0 := 1; size1 := 2; size2 := 2; data := [[[1; 2]; [3; 4]]] |}
  = Raise RuntimeError.
Proof. reflexivity. Qed.

Example remove_weight_norm_twice :
  (m <- utils.weight_norm (layer example_conv) ;;
   m <- utils.remove_weight_norm m ;;
   utils.remove_weight_norm m) = Raise ValueError.
Proof. reflexivity. Qed.

Example weight_norm_twice :
  (m <- utils.weight_norm (layer example_conv) ;; utils.weight_norm m)
  = Raise RuntimeError.
Proof. reflexivity. Qed.

Example simplify_missing_file :
  fst (simplify example_ext "missing.onnx" "b.onnx" example_world)
  = Raise FileNotFoundError.
Proof. reflexivity. Qed.

Example simplify_example_calls :
  calls (snd (simplify example_ext "a.onnx" "b.onnx" example_world))
  = [onnx_load "a.onnx";
     onnxsim_simplify
       (fixed_model example_graph example_waveform_info [] (onnx.Value 1)) true;
     onnx_save
       (fixed_model example_graph example_waveform_info [] (onnx.Value 1)) "b.onnx"].
Proof. reflexivity. Qed.

Example main_example_stdout :
  stdout (snd (main example_ext example_world))
  = ["Removing weight norm..."; "Fix output: 'waveform'"].
Proof. reflexivity. Qed.

(** ** Lists and shapes *)

Section ListFacts.

Context {A B C : Type}.

Lemma zip_with_length (f : A -> B -> C) (xs : list A) (ys : list B) :
  length (zip_with f xs ys) = Nat.min (length xs) (length ys).
Proof.
  revert ys; induction xs as [|x xs IH]; intros [|y ys]; simpl; auto.
Qed.

Lemma nth_zip_with (f : A -> B -> C) (xs : list A) (ys : list B)
    (i : nat) (da : A) (db : B) (dc : C) :
  (i < length xs)%nat -> (i < length ys)%nat ->
  nth i (zip_with f xs ys) dc = f (nth i xs da) (nth i ys db).
Proof.
  revert ys i; induction xs as [|x xs IH]; intros [|y ys] [|i]; simpl;
    intros Hx Hy; try lia; auto.
  apply IH; lia.
Qed.

Lemma nth_map_in (f : A -> B) (xs : list A) (i : nat) (da : A) (db : B) :
  (i < length xs)%nat -> nth i (map f xs) db = f (nth i xs da).
Proof.
  intros Hi. rewrite (nth_indep _ db (f da)) by (rewrite length_map; exact Hi).
  apply map_nth.
Qed.

Lemma skipn_cons_nth (xs : list A) (i : nat) (da : A) :
  (i < length xs)%nat -> skipn i xs = nth i xs da :: skipn (S i) xs.
Proof.
  revert i; induction xs as [|x xs IH]; intros [|i] Hi; simpl in *; try lia; auto.
  apply IH; lia.
Qed.

Lemma nth_tl (xs : list A) (i : nat) (da : A) :
  nth i (tl xs) da = nth (S i) xs da.
Proof. destruct xs; simpl; auto. destruct i; auto. Qed.

Lemma list_ext (xs ys : list A) (da : A) :
  length xs = length ys ->
  (forall i, (i < length xs)%nat -> nth i xs da = nth i ys da) ->
  xs = ys.
Proof.
  revert ys; induction xs as [|x xs IH]; intros [|y ys] Hlen Hnth;
    simpl in *; try discriminate; auto.
  f_equal.
  - apply (Hnth 0%nat); lia.
  - apply IH; [lia|]. intros i Hi. apply (Hnth (S i)); lia.
Qed.

End ListFacts.

Lemma has_shape_row (L D : nat) (X : Matrix) (t : nat) :
  has_shape L D X -> (t < L)%nat -> length (nth t X []) = D.
Proof.
  intros [HL HD] Ht. rewrite Forall_forall in HD. apply HD, nth_In. lia.
Qed.

Lemma has_shape_cons (L D : nat) (row : Vector) (X : Matrix) :
  has_shape (S L) D (row :: X) <-> length row = D /\ has_shape L D X.
Proof.
  unfold has_shape; simpl; split.
  - intros [HL HD]. inversion HD; subst. repeat split; auto.
  - intros [Hr [HL HD]]. split; [lia | constructor; auto].
Qed.

Lemma has_shape_nil (L D : nat) : has_shape L D [] <-> L = 0%nat.
Proof. unfold has_shape; simpl; split; [intros [H _]; auto | intros ->; auto]. Qed.

(** Two tensors of one shape with the same entries are the same tensor. *)
Lemma matrix_ext (L D : nat) (X Y : Matrix) :
  has_shape L D X -> has_shape L D Y ->
  (forall t d, (t < L)%nat -> (d < D)%nat -> entry X t d = entry Y t d) ->
  X = Y.
Proof.
  intros HX HY Hentry.
  apply (list_ext X Y []); [destruct HX, HY; congruence|].
  intros t Ht. assert (Ht' : (t < L)%nat) by (destruct HX; lia).
  apply (list_ext _ _ 0).
  - rewrite (has_shape_row L D X), (has_shape_row L D Y); auto.
  - intros d Hd. rewrite (has_shape_row L D X) in Hd by auto.
    apply (Hentry t d); auto.
Qed.

Lemma has_shape_mmap (f : R -> R) (L D : nat) (X : Matrix) :
  has_shape L D X -> has_shape L D (mmap f X).
Proof.
  intros [HL HD]. split; unfold mmap.
  - now rewrite length_map.
  - rewrite Forall_map. eapply Forall_impl; [|exact HD].
    intros row Hrow; simpl. now rewrite length_map.
Qed.

Lemma entry_mmap (f : R -> R) (L D : nat) (X : Matrix) (t d : nat) :
  has_shape L D X -> (t < L)%nat -> (d < D)%nat ->
  entry (mmap f X) t d = f (entry X t d).
Proof.
  intros HX Ht Hd. unfold entry, mmap.
  rewrite (nth_map_in (map f) X t [] []) by (destruct HX; lia).
  apply nth_map_in. now rewrite (has_shape_row L D X).
Qed.

Lemma has_shape_msub (L D : nat) (X Y : Matrix) :
  has_shape L D X -> has_shape L D Y -> has_shape L D (msub X Y).
Proof.
  revert L Y; induction X as [|row X IH]; intros L Y HX HY.
  - apply has_shape_nil in HX; subst. now apply has_shape_nil.
  - destruct L as [|L]; [destruct HX; discriminate|].
    destruct Y as [|row' Y]; [destruct HY; discriminate|].
    apply has_shape_cons in HX, HY. destruct HX as [Hr HX], HY as [Hr' HY].
    unfold msub; simpl. apply has_shape_cons. split.
    + rewrite zip_with_length. lia.
    + apply IH; auto.
Qed.

Lemma entry_msub (L D : nat) (X Y : Matrix) (t d : nat) :
  has_shape L D X -> has_shape L D Y -> (t < L)%nat -> (d < D)%nat ->
  entry (msub X Y) t d = entry X t d - entry Y t d.
Proof.
  intros HX HY Ht Hd. unfold entry, msub.
  rewrite (nth_zip_with _ X Y t [] [] []) by (destruct HX, HY; lia).
  apply nth_zip_with.
  - now rewrite (has_shape_row L D X).
  - now rewrite (has_shape_row L D Y).
Qed.

(** ** [torch.cumsum] *)

Lemma psum_shift (r : nat -> R) (t : nat) :
  psum r (S t) = r 0%nat + psum (fun i => r (S i)) t.
Proof.
  induction t as [|t IH]; simpl in *; [reflexivity|].
  rewrite IH. ring.
Qed.

Lemma psum_ext (r r' : nat -> R) (t : nat) :
  (forall i, (i <= t)%nat -> r i = r' i) -> psum r t = psum r' t.
Proof.
  induction t as [|t IH]; simpl; intros H.
  - apply H; lia.
  - rewrite IH, (H (S t)) by (auto; intros; apply H; lia). reflexivity.
Qed.

Lemma psum_minus (r s : nat -> R) (t : nat) :
  psum (fun i => r i - s i) t = psum r t - psum s t.
Proof. induction t as [|t IH]; simpl; [|rewrite IH]; ring. Qed.

Lemma has_shape_cumsum_from (L D : nat) (acc : Vector) (X : Matrix) :
  length acc = D -> has_shape L D X -> has_shape L D (cumsum_from acc X).
Proof.
  revert L acc; induction X as [|row X IH]; intros L acc Hacc HX; simpl.
  - exact HX.
  - destruct L as [|L]; [destruct HX; discriminate|].
    apply has_shape_cons in HX. destruct HX as [Hr HX].
    assert (Hlen : length (vadd acc row) = D)
      by (unfold vadd; rewrite zip_with_length; lia).
    apply has_shape_cons. split; auto.
Qed.

Lemma has_shape_cumsum (L D : nat) (X : Matrix) :
  has_shape L D X -> has_shape L D (cumsum X).
Proof.
  destruct X as [|row X]; simpl; auto.
  destruct L as [|L]; [intros []; discriminate|].
  intros HX. apply has_shape_cons in HX. destruct HX as [Hr HX].
  apply has_shape_cons. split; auto. now apply has_shape_cumsum_from.
Qed.

Lemma entry_cumsum_from (L D : nat) (acc : Vector) (X : Matrix) (t d : nat) :
  length acc = D -> has_shape L D X -> (t < L)%nat -> (d < D)%nat ->
  entry (cumsum_from acc X) t d = nth d acc 0 + psum (fun i => entry X i d) t.
Proof.
  revert L acc t; induction X as [|row X IH]; intros L acc t Hacc HX Ht Hd.
  - apply has_shape_nil in HX. lia.
  - destruct L as [|L]; [lia|].
    apply has_shape_cons in HX. destruct HX as [Hr HX].
    assert (Hnth : nth d (vadd acc row) 0 = nth d acc 0 + nth d row 0)
      by (apply nth_zip_with; lia).
    destruct t as [|t].
    + exact Hnth.
    + change (entry (cumsum_from acc (row :: X)) (S t) d)
        with (entry (cumsum_from (vadd acc row) X) t d).
      rewrite (IH L) by (auto; try lia; unfold vadd; rewrite zip_with_length; lia).
      rewrite Hnth, psum_shift. unfold entry at 3; simpl.
      unfold entry at 2; simpl. fold (entry X). ring_simplify.
      reflexivity.
Qed.

(** At every time step [torch.cumsum] holds the sum of the steps so far. *)
Lemma entry_cumsum (L D : nat) (X : Matrix) (t d : nat) :
  has_shape L D X -> (t < L)%nat -> (d < D)%nat ->
  entry (cumsum X) t d = psum (fun i => entry X i d) t.
Proof.
  intros HX Ht Hd. destruct X as [|row X]; [apply has_shape_nil in HX; lia|].
  destruct L as [|L]; [lia|].
  apply has_shape_cons in HX. destruct HX as [Hr HX].
  destruct t as [|t]; [reflexivity|].
  change (entry (cumsum (row :: X)) (S t) d)
    with (entry (cumsum_from row X) t d).
  rewrite (entry_cumsum_from L D) by (auto; lia).
  rewrite psum_shift. reflexivity.
Qed.

(** ** The difference filter [self.diff] *)

Lemma has_shape_diff (L D : nat) (X : Matrix) :
  has_shape L D X -> has_shape (L - 1) D (torch.diff X).
Proof.
  intros HX.
  assert (HL : length X = L) by (destruct HX; auto).
  assert (Htl : length (tl X) = (L - 1)%nat)
    by (rewrite <- HL; destruct X; simpl; lia).
  split.
  - unfold torch.diff. rewrite zip_with_length. lia.
  - apply Forall_forall. intros row Hin.
    destruct (In_nth _ _ [] Hin) as [t [Ht Hrow]].
    unfold torch.diff in Ht, Hrow. rewrite zip_with_length in Ht.
    assert (HtL : (S t < L)%nat) by lia.
    rewrite (nth_zip_with _ X (tl X) t [] [] []) in Hrow by lia.
    subst row. rewrite zip_with_length, nth_tl.
    rewrite !(has_shape_row L D X) by (auto; lia). lia.
Qed.

Lemma entry_diff (L D : nat) (X : Matrix) (t d : nat) :
  has_shape L D X -> (S t < L)%nat -> (d < D)%nat ->
  entry (torch.diff X) t d = entry X (S t) d - entry X t d.
Proof.
  intros HX Ht Hd. unfold entry, torch.diff.
  assert (HL : length X = L) by (destruct HX; auto).
  assert (Htl : length (tl X) = (L - 1)%nat)
    by (rewrite <- HL; destruct X; simpl; lia).
  rewrite (nth_zip_with _ X (tl X) t [] [] []) by lia.
  rewrite nth_tl.
  rewrite (nth_zip_with _ _ _ d 0 0 0); [reflexivity| |];
    rewrite (has_shape_row L D X); auto; lia.
Qed.

(** One output entry of the filter with weight [[-1], [1]]. *)
Lemma window_diff (L D : nat) (X : Matrix) (t d : nat) :
  has_shape L D X -> (S t < L)%nat -> (d < D)%nat ->
  window [[-1]; [1]] X t d = entry X (S t) d - entry X t d.
Proof.
  intros HX Ht Hd. unfold window.
  rewrite (skipn_cons_nth X t []) by (destruct HX; lia).
  rewrite (skipn_cons_nth X (S t) []) by (destruct HX; lia).
  cbn [zip_with fold_right].
  rewrite (skipn_cons_nth (nth t X []) d 0)
    by (rewrite (has_shape_row L D X); auto; lia).
  rewrite (skipn_cons_nth (nth (S t) X []) d 0)
    by (rewrite (has_shape_row L D X); auto; lia).
  unfold dot; cbn [zip_with fold_right]. unfold entry. ring.
Qed.

Lemma diff_filter (L D : nat) (X : Matrix) :
  (2 <= L)%nat -> (1 <= D)%nat -> has_shape L D X ->
  (conv <- Conv2d [[[[-1]; [1]]]] (unsqueeze1 X) ;; squeeze1 conv)
  = Ok (torch.diff X).
Proof.
  intros HL HD HX.
  assert (Hlen : length X = L) by (destruct HX; auto).
  assert (Hrow : length (hd [] X) = D).
  { destruct X as [|row X]; [simpl in Hlen; lia|].
    apply (has_shape_row L D (row :: X) 0); auto; lia. }
  unfold Conv2d, unsqueeze1. cbn [hd length].
  rewrite Hlen, Hrow.
  replace ((1 =? 1)%nat && (2 <=? L)%nat && (1 <=? D)%nat) with true
    by (symmetry; rewrite !andb_true_iff, !Nat.leb_le; auto).
  cbn [map rbind squeeze1 zip_with fold_right]. f_equal.
  apply (matrix_ext (L - 1) D).
  - split.
    + rewrite length_map, length_seq. lia.
    + apply Forall_forall. intros row Hin. apply in_map_iff in Hin.
      destruct Hin as [t [<- _]]. rewrite length_map, length_seq. lia.
  - now apply has_shape_diff.
  - intros t d Ht Hd. unfold entry.
    rewrite (nth_map_in _ _ t 0%nat) by (rewrite length_seq; lia).
    rewrite (nth_map_in _ _ d 0%nat) by (rewrite length_seq; lia).
    rewrite !seq_nth by lia. cbn [Nat.add].
    rewrite (window_diff L D) by (auto; lia).
    rewrite Rplus_0_r. symmetry. apply (entry_diff L D); auto; lia.
Qed.

(** C3: the Conv2d stored in [SineGen.diff] (kernel (2, 1), weight
    [[-1], [1]], no bias), applied to the unsqueezed form of a tensor of
    shape (1, L, dim) with L >= 2 and squeezed, returns a tensor of shape
    (1, L-1, dim) whose entry at (t, d) is input[t+1, d] - input[t, d];
    the result is that of [torch.diff] along the time axis. *)
Theorem SineGen_diff_is_first_difference
    (samp_rate : R) (harmonic_num : nat) (sine_amp noise_std voiced_threshold : R)
    (L : nat) (X : Matrix) :
  let self :=
    SineGen.__init__ samp_rate harmonic_num sine_amp noise_std voiced_threshold in
  (2 <= L)%nat ->
  has_shape L (SineGen.dim self) X ->
  exists Y : Matrix,
    (conv <- Conv2d (SineGen.diff self) (unsqueeze1 X) ;; squeeze1 conv) = Ok Y
    /\ has_shape (L - 1) (SineGen.dim self) Y
    /\ (forall t d, (t < L - 1)%nat -> (d < SineGen.dim self)%nat ->
          entry Y t d = entry X (t + 1) d - entry X t d)
    /\ Y = torch.diff X.
Proof.
  intros self HL HX. exists (torch.diff X).
  assert (HD : (1 <= SineGen.dim self)%nat) by (simpl; lia).
  repeat split.
  - apply (diff_filter L (SineGen.dim self)); auto.
  - destruct (has_shape_diff L (SineGen.dim self) X HX); auto.
  - destruct (has_shape_diff L (SineGen.dim self) X HX); auto.
  - intros t d Ht Hd. rewrite Nat.add_1_r.
    apply (entry_diff L (SineGen.dim self)); auto; lia.
Qed.

(** ** [SineGen._f02sine] *)

Section SineGenFacts.

Variables (samp_rate : R) (harmonic_num : nat).
Variables (sine_amp noise_std voiced_threshold : R).

Let self : SineGen.t :=
  SineGen.__init__ samp_rate harmonic_num sine_amp noise_std voiced_threshold.
Let D : nat := SineGen.dim self.

(** The initial phase noise: none for the fundamental component. *)
Lemma rand_ini_nth (u : nat -> R) (d : nat) :
  (d < D)%nat ->
  nth d (0 :: map u (seq 1 harmonic_num)) 0 = if (d =? 0)%nat then 0 else u d.
Proof.
  intros Hd. destruct d as [|d]; [reflexivity|].
  cbn [nth Nat.eqb].
  assert (Hd' : (d < harmonic_num)%nat) by (unfold D in Hd; simpl in Hd; lia).
  rewrite (nth_map_in u _ d 0%nat) by (rewrite length_seq; lia).
  rewrite seq_nth by lia. reflexivity.
Qed.

(** Lines 65-70 return on every tensor with at least one time step. *)
Lemma rad_values_ok (u : nat -> R) (L : nat) (f0_values : Matrix) :
  (1 <= L)%nat -> has_shape L D f0_values ->
  exists rad : Matrix,
    SineGen.rad_values self u f0_values = Ok rad
    /\ has_shape L D rad
    /\ forall t d, (t < L)%nat -> (d < D)%nat ->
         entry rad t d =
           fmod (entry f0_values t d / samp_rate) 1
           + (if (t =? 0)%nat then if (d =? 0)%nat then 0 else u d else 0).
Proof.
  intros HL HX.
  destruct f0_values as [|row X]; [apply has_shape_nil in HX; lia|].
  destruct L as [|L]; [lia|].
  pose proof (has_shape_mmap (fun x => fmod (x / samp_rate) 1) _ _ _ HX) as HM.
  pose proof (fun t d => entry_mmap (fun x => fmod (x / samp_rate) 1)
                           _ _ _ t d HX) as HE.
  unfold SineGen.rad_values. cbn [SineGen.sampling_rate SineGen.dim self SineGen.__init__].
  unfold rand. replace (harmonic_num + 1)%nat with (S harmonic_num) by lia.
  cbn [seq map rbind]. set (ini := 0 :: map u (seq 1 harmonic_num)).
  assert (Hini : length ini = D)
    by (unfold ini, D; simpl; rewrite length_map, length_seq; lia).
  unfold mmap in *. cbn [map] in *.
  set (first := map (fun x => fmod (x / samp_rate) 1) row) in *.
  set (rest := map (map (fun x => fmod (x / samp_rate) 1)) X) in *.
  apply has_shape_cons in HM. destruct HM as [Hfirst Hrest].
  replace (length first =? length ini)%nat with true
    by (symmetry; apply Nat.eqb_eq; lia).
  eexists; split; [reflexivity|]. split.
  - apply has_shape_cons. split; auto.
    unfold vadd. rewrite zip_with_length. lia.
  - intros t d Ht Hd. destruct t as [|t].
    + unfold entry; cbn [nth Nat.eqb]. unfold vadd.
      rewrite (nth_zip_with _ _ _ d 0 0 0) by lia.
      specialize (HE 0%nat d Ht Hd). unfold entry in HE; cbn [nth] in HE.
      rewrite HE. unfold ini. rewrite rand_ini_nth by auto. reflexivity.
    + specialize (HE (S t) d Ht Hd). unfold entry in *; cbn [nth Nat.eqb] in *.
      rewrite HE. ring.
Qed.

(** Lines 78-82 return on every tensor with at least two time steps: the
    shift is 0 at the first step, and afterwards 1 exactly where the
    fractional running sum has dropped. *)
Lemma cumsum_shift_ok (L : nat) (rad : Matrix) :
  (2 <= L)%nat -> has_shape L D rad ->
  exists shift : Matrix,
    SineGen.cumsum_shift self rad = Ok shift
    /\ has_shape L D shift
    /\ (forall d, (d < D)%nat -> entry shift 0 d = 0)
    /\ (forall t d, (S t < L)%nat -> (d < D)%nat ->
          entry shift (S t) d =
            lt0 (fmod (entry (cumsum rad) (S t) d) 1
                 - fmod (entry (cumsum rad) t d) 1)).
Proof.
  intros HL HX.
  assert (HD : (1 <= D)%nat) by (unfold D; simpl; lia).
  pose proof (has_shape_cumsum _ _ _ HX) as HC.
  pose proof (has_shape_mmap (fun x => fmod x 1) _ _ _ HC) as HO.
  set (over := mmap (fun x => fmod x 1) (cumsum rad)) in *.
  pose proof (has_shape_diff _ _ _ HO) as HDf.
  pose proof (has_shape_mmap lt0 _ _ _ HDf) as HS.
  unfold SineGen.cumsum_shift. fold over.
  cbn [SineGen.diff SineGen.dim self SineGen.__init__].
  pose proof (diff_filter L D over HL HD HO) as Hconv.
  destruct (Conv2d [[[[-1]; [1]]]] (unsqueeze1 over)) as [conv|e];
    cbn [rbind] in *; [|discriminate].
  rewrite Hconv. cbn [rbind].
  remember (mmap lt0 (torch.diff over)) as B eqn:EB.
  assert (Hzeros : length (zeros (harmonic_num + 1)) = D)
    by (unfold zeros; rewrite repeat_length; reflexivity).
  destruct B as [|b B']; [destruct HS as [HS _]; simpl in HS; lia|].
  unfold cat1.
  assert (Hb : length b = D)
    by (apply (has_shape_row _ _ _ 0%nat) in HS; [exact HS | lia]).
  replace (length (zeros (harmonic_num + 1)) =? length b)%nat with true
    by (symmetry; apply Nat.eqb_eq; lia).
  eexists; split; [reflexivity|].
  cbn [app]. split; [|split].
  - replace L with (S (L - 1)) by lia. apply has_shape_cons. split; auto.
  - intros d Hd. unfold entry; cbn [nth]. unfold zeros.
    apply nth_repeat.
  - intros t d Ht Hd.
    change (entry (zeros (harmonic_num + 1) :: b :: B') (S t) d)
      with (entry (b :: B') t d).
    rewrite EB.
    rewrite (entry_mmap lt0 (L - 1) D) by (auto; lia).
    rewrite (entry_diff L D) by auto.
    unfold over. rewrite !(entry_mmap _ L D) by (auto; lia).
    reflexivity.
Qed.

(** *** The shift is a whole number *)

Lemma lt0_cases (x : R) : lt0 x = 0 \/ lt0 x = 1.
Proof. unfold lt0. destruct (Rlt_dec x 0); auto. Qed.

Lemma sin_whole_turns (x : R) (k : Z) :
  sin ((x - IZR k) * (2 * PI)) = sin (x * (2 * PI)).
Proof.
  destruct (Z_le_gt_dec 0 k) as [Hk|Hk].
  - rewrite <- (Z2Nat.id k) by lia. rewrite <- INR_IZR_INZ.
    rewrite <- (sin_period ((x - INR (Z.to_nat k)) * (2 * PI)) (Z.to_nat k)).
    f_equal. ring.
  - replace k with (- Z.of_nat (Z.to_nat (- k)))%Z by lia.
    rewrite opp_IZR, <- INR_IZR_INZ.
    rewrite <- (sin_period (x * (2 * PI)) (Z.to_nat (- k))).
    f_equal. ring.
Qed.

Lemma psum_whole (s : nat -> R) (t : nat) :
  (forall i, (i <= t)%nat -> s i = 0 \/ s i = 1) ->
  exists k : Z, psum s t = IZR k.
Proof.
  induction t as [|t IH]; intros Hs; simpl.
  - destruct (Hs 0%nat) as [-> | ->]; [lia | exists 0%Z | exists 1%Z]; reflexivity.
  - destruct IH as [k Hk]; [intros i Hi; apply Hs; lia|].
    rewrite Hk.
    destruct (Hs (S t)) as [-> | ->]; [lia | exists k | exists (k + 1)%Z].
    + ring.
    + rewrite plus_IZR. reflexivity.
Qed.

Lemma shift_cases (L : nat) (rad shift : Matrix) :
  (2 <= L)%nat -> has_shape L D rad ->
  SineGen.cumsum_shift self rad = Ok shift ->
  forall t d, (t < L)%nat -> (d < D)%nat ->
    entry shift t d = 0 \/ entry shift t d = 1.
Proof.
  intros HL HX Hshift t d Ht Hd.
  destruct (cumsum_shift_ok L rad HL HX) as [shift' [E [_ [H0 HS]]]].
  fold self in E. rewrite E in Hshift. injection Hshift as <-.
  destruct t as [|t].
  - left. now apply H0.
  - rewrite HS by auto. apply lt0_cases.
Qed.

(** Taking the shift off before summing moves the phase by whole turns. *)
Lemma shifted_phase_whole (L : nat) (rad shift : Matrix) :
  (2 <= L)%nat -> has_shape L D rad ->
  SineGen.cumsum_shift self rad = Ok shift ->
  forall t d, (t < L)%nat -> (d < D)%nat ->
    exists k : Z,
      entry (cumsum (msub rad shift)) t d = entry (cumsum rad) t d - IZR k.
Proof.
  intros HL HX Hshift t d Ht Hd.
  pose proof (shift_cases L rad shift HL HX Hshift) as Hcases.
  destruct (cumsum_shift_ok L rad HL HX) as [shift' [E [HS _]]].
  fold self in E. rewrite E in Hshift. injection Hshift as ->.
  destruct (psum_whole (fun i => entry shift i d) t) as [k Hk].
  { intros i Hi. apply Hcases; auto; lia. }
  exists k.
  rewrite (entry_cumsum L D) by (auto using has_shape_msub).
  rewrite (entry_cumsum L D) by auto.
  rewrite <- Hk, <- psum_minus.
  apply psum_ext. intros i Hi. apply (entry_msub L D); auto; lia.
Qed.

(** [_f02sine] returns on every tensor with at least two time steps. *)
Lemma f02sine_returns (u : nat -> R) (L : nat) (f0_values : Matrix) :
  (2 <= L)%nat -> has_shape L D f0_values ->
  exists rad shift : Matrix,
    SineGen.rad_values self u f0_values = Ok rad
    /\ has_shape L D rad
    /\ SineGen.cumsum_shift self rad = Ok shift
    /\ has_shape L D shift
    /\ SineGen._f02sine self u f0_values
       = Ok (mmap (fun x => sin (x * (2 * PI))) (cumsum (msub rad shift)))
    /\ has_shape L D
         (mmap (fun x => sin (x * (2 * PI))) (cumsum (msub rad shift))).
Proof.
  intros HL HX.
  destruct (rad_values_ok u L f0_values) as [rad [Erad [Hrad _]]]; [lia|auto|].
  destruct (cumsum_shift_ok L rad HL Hrad) as [shift [Eshift [Hshift _]]].
  exists rad, shift.
  split; [exact Erad|]. split; [exact Hrad|].
  split; [exact Eshift|]. split; [exact Hshift|]. split.
  - unfold SineGen._f02sine, SineGen.phase. fold self.
    rewrite Erad; cbn [rbind]. rewrite Eshift; cbn [rbind]. reflexivity.
  - auto using has_shape_mmap, has_shape_cumsum, has_shape_msub.
Qed.

(** C1: in exact real arithmetic the overflow-corrected phase gives the
    sine values of the uncorrected phase.  On every tensor of shape
    (1, L, dim) with L >= 2 (the difference filter needs two time steps)
    [_f02sine] returns, what it returns is [naive_sines], every entry of
    [cumsum_shift] is 0 or 1, and at every time step t
    sin(2*pi * cumsum(rad_values - cumsum_shift)[t])
    = sin(2*pi * cumsum(rad_values)[t]). *)
Theorem SineGen_f02sine_matches_naive_phase
    (u : nat -> R) (L : nat) (f0_values : Matrix) :
  (2 <= L)%nat ->
  has_shape L (SineGen.dim self) f0_values ->
  exists rad shift sines : Matrix,
    SineGen.rad_values self u f0_values = Ok rad
    /\ SineGen.cumsum_shift self rad = Ok shift
    /\ SineGen._f02sine self u f0_values = Ok sines
    /\ SineGen.naive_sines self u f0_values = Ok sines
    /\ has_shape L (SineGen.dim self) sines
    /\ (forall t d, (t < L)%nat -> (d < SineGen.dim self)%nat ->
          entry shift t d = 0 \/ entry shift t d = 1)
    /\ (forall t d, (t < L)%nat -> (d < SineGen.dim self)%nat ->
          sin (entry (cumsum (msub rad shift)) t d * (2 * PI))
          = sin (entry (cumsum rad) t d * (2 * PI))).
Proof.
  intros HL HX. fold D in HX |- *.
  destruct (f02sine_returns u L f0_values HL HX)
    as [rad [shift [Erad [Hrad [Eshift [Hshift [Esin Hshape]]]]]]].
  assert (Hsin : forall t d, (t < L)%nat -> (d < D)%nat ->
            sin (entry (cumsum (msub rad shift)) t d * (2 * PI))
            = sin (entry (cumsum rad) t d * (2 * PI))).
  { intros t d Ht Hd.
    destruct (shifted_phase_whole L rad shift HL Hrad Eshift t d Ht Hd) as [k ->].
    apply sin_whole_turns. }
  exists rad, shift, (mmap (fun x => sin (x * (2 * PI))) (cumsum (msub rad shift))).
  split; [exact Erad|]. split; [exact Eshift|]. split; [exact Esin|].
  split; [|split; [exact Hshape|split; [|exact Hsin]]].
  - unfold SineGen.naive_sines. fold self. rewrite Erad; cbn [rbind]. f_equal.
    apply (matrix_ext L D); auto using has_shape_mmap, has_shape_cumsum.
    intros t d Ht Hd.
    rewrite !(entry_mmap _ L D)
      by auto using has_shape_cumsum, has_shape_msub.
    symmetry. now apply Hsin.
  - apply (shift_cases L rad shift HL Hrad Eshift).
Qed.

(** *** The shifted phase stays in [0, 2) *)

Lemma fmod_1_nonneg (x : R) : 0 <= x -> fmod x 1 = x - IZR (Int_part x).
Proof.
  intros Hx. unfold fmod, trunc. replace (x / 1) with x by field.
  destruct (Rle_dec 0 x); [ring | contradiction].
Qed.

Lemma fmod_1_range (x : R) : 0 <= x -> 0 <= fmod x 1 < 1.
Proof.
  intros Hx. rewrite fmod_1_nonneg by auto.
  destruct (base_Int_part x). lra.
Qed.

Lemma Int_part_step (a r : R) :
  0 <= r < 1 ->
  Int_part (a + r) = Int_part a \/ Int_part (a + r) = (Int_part a + 1)%Z.
Proof.
  intros Hr.
  destruct (base_Int_part a) as [Ha1 Ha2], (base_Int_part (a + r)) as [Hb1 Hb2].
  assert (H1 : (Int_part (a + r) < Int_part a + 2)%Z)
    by (apply lt_IZR; rewrite plus_IZR; lra).
  assert (H2 : (Int_part a - 1 < Int_part (a + r))%Z)
    by (apply lt_IZR; rewrite minus_IZR; lra).
  lia.
Qed.

(** The flag raised by the drop of the fractional part counts the whole
    numbers the running sum has passed. *)
Lemma wrap_step (a r : R) :
  0 <= r < 1 ->
  lt0 ((a + r - IZR (Int_part (a + r))) - (a - IZR (Int_part a)))
  = IZR (Int_part (a + r) - Int_part a).
Proof.
  intros Hr. unfold lt0.
  destruct (Int_part_step a r Hr) as [-> | ->].
  - rewrite Z.sub_diag. destruct (Rlt_dec _ 0); [lra | reflexivity].
  - rewrite plus_IZR. replace (Int_part a + 1 - Int_part a)%Z with 1%Z by lia.
    destruct (Rlt_dec _ 0); [reflexivity | lra].
Qed.

Lemma psum_nonneg (r : nat -> R) (t : nat) :
  (forall i, (i <= t)%nat -> 0 <= r i) -> 0 <= psum r t.
Proof.
  induction t as [|t IH]; intros Hr; simpl.
  - apply Hr; lia.
  - assert (0 <= psum r t) by (apply IH; intros; apply Hr; lia).
    assert (0 <= r (S t)) by (apply Hr; lia). lra.
Qed.

Section Channel.

(** One channel: [r] the phase increments, [s] the shift. *)
Variables (r s : nat -> R) (L : nat).
Hypothesis r_first : 0 <= r 0%nat < 2.
Hypothesis r_later : forall i, (S i < L)%nat -> 0 <= r (S i) < 1.
Hypothesis s_first : s 0%nat = 0.
Hypothesis s_later : forall i, (S i < L)%nat ->
  s (S i) = lt0 (fmod (psum r (S i)) 1 - fmod (psum r i) 1).

Lemma channel_sum_nonneg (t : nat) : (t < L)%nat -> 0 <= psum r t.
Proof.
  intros Ht. apply psum_nonneg. intros [|i] Hi; [lra|].
  apply r_later; lia.
Qed.

Lemma channel_shift_sum (t : nat) :
  (t < L)%nat ->
  psum s t = IZR (Int_part (psum r t) - Int_part (r 0%nat)).
Proof.
  induction t as [|t IH]; intros Ht.
  - simpl. rewrite s_first, Z.sub_diag. reflexivity.
  - cbn [psum]. rewrite IH by lia. rewrite s_later by auto.
    rewrite !fmod_1_nonneg by (apply channel_sum_nonneg; lia).
    cbn [psum]. rewrite wrap_step by (apply r_later; auto).
    rewrite <- plus_IZR. f_equal. lia.
Qed.

Lemma channel_phase (t : nat) :
  (t < L)%nat ->
  psum (fun i => r i - s i) t = fmod (psum r t) 1 + IZR (Int_part (r 0%nat)).
Proof.
  intros Ht. rewrite psum_minus, channel_shift_sum by auto.
  rewrite fmod_1_nonneg by (apply channel_sum_nonneg; auto).
  rewrite minus_IZR. ring.
Qed.

Lemma channel_phase_bounded (t : nat) :
  (t < L)%nat -> 0 <= psum (fun i => r i - s i) t < 2.
Proof.
  intros Ht. rewrite channel_phase by auto.
  pose proof (fmod_1_range (psum r t) (channel_sum_nonneg t Ht)) as Hf.
  destruct (base_Int_part (r 0%nat)) as [H1 H2].
  assert (Hlo : (-1 < Int_part (r 0%nat))%Z) by (apply lt_IZR; lra).
  assert (Hhi : (Int_part (r 0%nat) < 2)%Z) by (apply lt_IZR; lra).
  assert (Hk : Int_part (r 0%nat) = 0%Z \/ Int_part (r 0%nat) = 1%Z) by lia.
  destruct Hk as [-> | ->]; lra.
Qed.

End Channel.





(** The increments: in [0, 1) after the first step, in [0, 2) at it. *)
Lemma rad_values_range (u : nat -> R) (L : nat) (f0_values rad : Matrix) :
  0 < samp_rate ->
  (forall i, 0 <= u i < 1) ->
  has_shape L D f0_values ->
  (forall t d, (t < L)%nat -> (d < D)%nat -> 0 <= entry f0_values t d) ->
  (forall t d, (t < L)%nat -> (d < D)%nat ->
     entry rad t d =
       fmod (entry f0_values t d / samp_rate) 1
       + (if (t =? 0)%nat then if (d =? 0)%nat then 0 else u d else 0)) ->
  forall d, (d < D)%nat ->
    ((0 < L)%nat -> 0 <= entry rad 0 d < 2)
    /\ (forall t, (S t < L)%nat -> 0 <= entry rad (S t) d < 1).
Proof.
  intros Hsr Hu HX Hpos Hrad d Hd.
  assert (Hq : forall t, (t < L)%nat ->
            0 <= fmod (entry f0_values t d / samp_rate) 1 < 1).
  { intros t Ht. apply fmod_1_range. unfold Rdiv.
    apply Rmult_le_pos; [auto | left; now apply Rinv_0_lt_compat]. }
  split.
  - intros HL. rewrite Hrad by auto. cbn [Nat.eqb].
    specialize (Hq 0%nat HL). specialize (Hu d).
    destruct (d =? 0)%nat; lra.
  - intros t Ht. rewrite Hrad by auto. cbn [Nat.eqb].
    specialize (Hq (S t) Ht). lra.
Qed.

(** Within [_f02sine] the shifted phase stays in [0, 2). *)
Lemma shifted_phase_in_range (u : nat -> R) (L : nat) (f0_values : Matrix) :
  0 < samp_rate ->
  (forall i, 0 <= u i < 1) ->
  (2 <= L)%nat ->
  has_shape L D f0_values ->
  (forall t d, (t < L)%nat -> (d < D)%nat -> 0 <= entry f0_values t d) ->
  exists rad shift : Matrix,
    SineGen.rad_values self u f0_values = Ok rad
    /\ SineGen.cumsum_shift self rad = Ok shift
    /\ SineGen.phase self u f0_values = Ok (cumsum (msub rad shift))
    /\ forall t d, (t < L)%nat -> (d < D)%nat ->
         0 <= entry (cumsum (msub rad shift)) t d < 2.
Proof.
  intros Hsr Hu HL HX Hpos.
  destruct (rad_values_ok u L f0_values) as [rad [Erad [Hrad Hent]]];
    [lia|auto|].
  destruct (cumsum_shift_ok L rad HL Hrad) as [shift [Eshift [Hshift [Hs0 HsS]]]].
  exists rad, shift.
  split; [exact Erad|]. split; [exact Eshift|]. split.
  - unfold SineGen.phase. fold self.
    rewrite Erad; cbn [rbind]. rewrite Eshift; reflexivity.
  - intros t d Ht Hd.
    rewrite (entry_cumsum L D) by auto using has_shape_msub.
    rewrite (psum_ext _ (fun i => entry rad i d - entry shift i d))
      by (intros i Hi; apply (entry_msub L D); auto; lia).
    destruct (rad_values_range u L f0_values rad Hsr Hu HX Hpos Hent d Hd)
      as [Hr0 HrS].
    apply (channel_phase_bounded _ _ L); auto; [apply Hr0; lia|].
    intros i Hi. rewrite HsS by auto.
    rewrite !(entry_cumsum L D) by (auto; lia). reflexivity.
Qed.

(** The same through [forward]: a nonnegative f0 gives nonnegative
    harmonics. *)
Lemma forward_phase_in_range (u : nat -> R) (f0 : Vector) :
  0 < samp_rate ->
  (forall i, 0 <= u i < 1) ->
  (2 <= length f0)%nat ->
  Forall (fun x => 0 <= x) f0 ->
  exists phase : Matrix,
    SineGen.phase self u (SineGen.fn self f0) = Ok phase
    /\ forall t d, (t < length f0)%nat -> (d < D)%nat ->
         0 <= entry phase t d < 2.
Proof.
  intros Hsr Hu HL Hpos.
  assert (Hshape : has_shape (length f0) D (SineGen.fn self f0)).
  { split; unfold SineGen.fn.
    - apply length_map.
    - apply Forall_forall. intros row Hin. apply in_map_iff in Hin.
      destruct Hin as [x [<- _]]. unfold SineGen.harmonics.
      rewrite !length_map, length_seq. reflexivity. }
  destruct (shifted_phase_in_range u (length f0) (SineGen.fn self f0) Hsr Hu HL
              Hshape) as [rad [shift [_ [_ [E H]]]]].
  - intros t d Ht Hd. unfold entry, SineGen.fn.
    rewrite (nth_map_in _ f0 t 0 []) by exact Ht.
    unfold SineGen.harmonics.
    rewrite (nth_map_in _ _ d 0 0) by (rewrite length_map, length_seq; exact Hd).
    rewrite (nth_map_in INR _ d 0%nat 0) by (rewrite length_seq; exact Hd).
    apply Rmult_le_pos; [|apply pos_INR].
    rewrite Forall_forall in Hpos. apply Hpos, nth_In, Ht.
  - exists (cumsum (msub rad shift)). split; [exact E | exact H].
Qed.



End SineGenFacts.

(** ** [SineGen.forward] *)

Section SineGenForward.

Variables (samp_rate : R) (harmonic_num : nat).
Variables (sine_amp noise_std voiced_threshold : R).

Let self : SineGen.t :=
  SineGen.__init__ samp_rate harmonic_num sine_amp noise_std voiced_threshold.
Let D : nat := SineGen.dim self.

Lemma has_shape_fn (f0 : Vector) :
  has_shape (length f0) D (SineGen.fn self f0).
Proof.
  split; unfold SineGen.fn.
  - apply length_map.
  - apply Forall_forall. intros row Hin. apply in_map_iff in Hin.
    destruct Hin as [x [<- _]]. unfold SineGen.harmonics.
    rewrite !length_map, length_seq. reflexivity.
Qed.


Lemma gt_cases (thr x : R) :
  (gt thr x = 1 <-> x > thr) /\ (gt thr x = 0 <-> ~ x > thr).
Proof.
  unfold gt. destruct (Rgt_dec x thr); split; split; intros; auto; lra.
Qed.

Lemma entry_randn_like (g : nat -> nat -> R) (L D' : nat) (X : Matrix) (t d : nat) :
  has_shape L D' X -> (t < L)%nat -> (d < D')%nat ->
  entry (randn_like g X) t d = g t d.
Proof.
  intros HX Ht Hd. unfold entry, randn_like.
  assert (HL : length X = L) by (destruct HX; auto).
  rewrite (nth_zip_with _ _ _ t 0%nat [] []) by (rewrite ?length_seq; lia).
  rewrite seq_nth by lia. rewrite (has_shape_row L D' X) by auto.
  rewrite (nth_map_in _ _ d 0%nat 0) by (rewrite length_seq; lia).
  rewrite seq_nth by lia. reflexivity.
Qed.

(** What [forward] returns, entry by entry, given the sines. *)
Lemma forward_entries (u : nat -> R) (g : nat -> nat -> R) (f0 : Vector)
    (sines : Matrix) :
  SineGen._f02sine self u (SineGen.fn self f0) = Ok sines ->
  has_shape (length f0) D sines ->
  exists (sine_waves : Matrix) (uv : Vector) (noise : Matrix),
    SineGen.forward self u g f0 = Ok (sine_waves, uv, noise)
    /\ uv = map (gt voiced_threshold) f0
    /\ has_shape (length f0) D sine_waves
    /\ forall t d, (t < length f0)%nat -> (d < D)%nat ->
         entry noise t d =
           (nth t uv 0 * noise_std + (1 - nth t uv 0) * (sine_amp / 3)) * g t d
         /\ entry sine_waves t d =
              entry sines t d * sine_amp * nth t uv 0 + entry noise t d.
Proof.
  intros Hsines Hshape.
  unfold SineGen.forward. fold self. rewrite Hsines. cbn [rbind].
  cbn [SineGen.sine_amp SineGen.noise_std SineGen.voiced_threshold self
       SineGen.__init__].
  set (L := length f0) in *.
  set (amp := mmap (fun x => x * sine_amp) sines).
  set (uv := map (gt voiced_threshold) f0).
  set (noise_amp := map (fun v => v * noise_std + (1 - v) * (sine_amp / 3)) uv).
  set (noise := zip_with (fun a row => map (fun z => a * z) row)
                  noise_amp (randn_like g amp)).
  set (voiced := zip_with (fun row v => map (fun x => x * v) row) amp uv).
  assert (Hamp : has_shape L D amp) by (apply has_shape_mmap; auto).
  assert (Huv : length uv = L) by apply length_map.
  assert (Hna : length noise_amp = L) by (unfold noise_amp; rewrite length_map; auto).
  assert (Hrl : length (randn_like g amp) = L).
  { unfold randn_like. rewrite zip_with_length, length_seq.
    destruct Hamp as [-> _]. lia. }
  assert (Hrow_rl : forall t, (t < L)%nat ->
            length (nth t (randn_like g amp) []) = D).
  { intros t Ht. unfold randn_like.
    rewrite (nth_zip_with _ _ _ t 0%nat [] [])
      by (rewrite ?length_seq; destruct Hamp as [-> _]; lia).
    rewrite length_map, length_seq. apply (has_shape_row L D); auto. }
  assert (Hnoise_row : forall t, (t < L)%nat ->
            nth t noise [] =
            map (fun z => nth t noise_amp 0 * z) (nth t (randn_like g amp) [])).
  { intros t Ht. unfold noise.
    rewrite (nth_zip_with _ _ _ t 0 [] []) by lia. reflexivity. }
  assert (Hvoiced_row : forall t, (t < L)%nat ->
            nth t voiced [] = map (fun x => x * nth t uv 0) (nth t amp [])).
  { intros t Ht. unfold voiced.
    rewrite (nth_zip_with _ _ _ t [] 0 []) by (destruct Hamp; lia).
    reflexivity. }
  assert (Hnoise : forall t d, (t < L)%nat -> (d < D)%nat ->
            entry noise t d =
            (nth t uv 0 * noise_std + (1 - nth t uv 0) * (sine_amp / 3)) * g t d).
  { intros t d Ht Hd. unfold entry. rewrite Hnoise_row by auto.
    rewrite (nth_map_in _ _ d 0 0) by (rewrite Hrow_rl; auto).
    fold (entry (randn_like g amp) t d).
    rewrite (entry_randn_like g L D) by auto.
    unfold noise_amp. rewrite (nth_map_in _ uv t 0 0) by lia. reflexivity. }
  exists (zip_with vadd voiced noise), uv, noise.
  split; [reflexivity|]. split; [reflexivity|]. split.
  - split.
    + rewrite zip_with_length. unfold voiced, noise.
      rewrite !zip_with_length. destruct Hamp as [-> _]. lia.
    + apply Forall_forall. intros row Hin.
      destruct (In_nth _ _ [] Hin) as [t [Ht <-]].
      rewrite zip_with_length in Ht. unfold voiced at 1, noise at 1 in Ht.
      rewrite !zip_with_length in Ht.
      assert (Ht' : (t < L)%nat) by lia.
      rewrite (nth_zip_with vadd voiced noise t [] [] [])
        by (unfold voiced, noise; rewrite !zip_with_length;
            destruct Hamp as [HA _]; lia).
      unfold vadd. rewrite zip_with_length.
      rewrite Hvoiced_row, Hnoise_row by auto.
      rewrite !length_map, Hrow_rl by auto.
      rewrite (has_shape_row L D amp) by auto. lia.
  - intros t d Ht Hd. split; [apply Hnoise; auto|].
    unfold entry at 1.
    rewrite (nth_zip_with vadd voiced noise t [] [] [])
      by (unfold voiced, noise; rewrite !zip_with_length;
          destruct Hamp as [HA _]; lia).
    unfold vadd.
    rewrite (nth_zip_with _ _ _ d 0 0 0).
    + fold (entry noise t d). f_equal.
      rewrite Hvoiced_row by auto.
      rewrite (nth_map_in _ _ d 0 0) by (rewrite (has_shape_row L D amp); auto).
      fold (entry amp t d). unfold amp.
      rewrite (entry_mmap _ L D) by auto. reflexivity.
    + rewrite Hvoiced_row, length_map, (has_shape_row L D amp); auto.
    + rewrite Hnoise_row, length_map, Hrow_rl; auto.
Qed.

(** [forward] returns on every input with at least two time steps. *)
Lemma forward_sines_ok (u : nat -> R) (f0 : Vector) :
  (2 <= length f0)%nat ->
  exists sines : Matrix,
    SineGen._f02sine self u (SineGen.fn self f0) = Ok sines
    /\ has_shape (length f0) D sines.
Proof.
  intros HL.
  destruct (f02sine_returns samp_rate harmonic_num sine_amp noise_std
              voiced_threshold u (length f0) (SineGen.fn self f0) HL
              (has_shape_fn f0))
    as [rad [shift [_ [_ [_ [_ [E Hs]]]]]]].
  eexists. split; [exact E | exact Hs].
Qed.

(** C4: the voiced/unvoiced excitation rule, in exact real arithmetic.
    [forward] returns on every input of at least two time steps; uv[t]
    is 1 exactly when f0[t] > voiced_threshold and 0 otherwise; the
    excitation is sine_waves * uv + noise, with the noise scaled by
    noise_std at voiced steps and by sine_amp / 3 at unvoiced steps; at
    an unvoiced step the sine term is zero and the excitation is the
    noise alone.  (Over binary32 a sine that is NaN stays NaN when it is
    multiplied by uv = 0.) *)
Theorem SineGen_forward_voicing
    (u : nat -> R) (g : nat -> nat -> R) (f0 : Vector) :
  (2 <= length f0)%nat ->
  exists (sines sine_waves : Matrix) (uv : Vector) (noise : Matrix),
    SineGen._f02sine self u (SineGen.fn self f0) = Ok sines
    /\ SineGen.forward self u g f0 = Ok (sine_waves, uv, noise)
    /\ length uv = length f0
    /\ forall t, (t < length f0)%nat ->
         (nth t uv 0 = 1 <-> nth t f0 0 > voiced_threshold)
         /\ (nth t uv 0 = 0 <-> ~ nth t f0 0 > voiced_threshold)
         /\ forall d, (d < SineGen.dim self)%nat ->
              entry sine_waves t d =
                entry sines t d * sine_amp * nth t uv 0 + entry noise t d
              /\ (nth t f0 0 > voiced_threshold ->
                    entry noise t d = noise_std * g t d)
              /\ (~ nth t f0 0 > voiced_threshold ->
                    entry noise t d = sine_amp / 3 * g t d
                    /\ entry sines t d * sine_amp * nth t uv 0 = 0
                    /\ entry sine_waves t d = entry noise t d).
Proof.
  intros HL.
  destruct (forward_sines_ok u f0 HL) as [sines [Es Hs]].
  destruct (forward_entries u g f0 sines Es Hs)
    as [sine_waves [uv [noise [Ef [Euv [_ Hent]]]]]].
  exists sines, sine_waves, uv, noise.
  split; [exact Es|]. split; [exact Ef|].
  split; [rewrite Euv; apply length_map|].
  intros t Ht.
  assert (Huv : nth t uv 0 = gt voiced_threshold (nth t f0 0))
    by (rewrite Euv; apply nth_map_in; exact Ht).
  destruct (gt_cases voiced_threshold (nth t f0 0)) as [H1 H0].
  rewrite Huv. split; [exact H1|]. split; [exact H0|].
  intros d Hd. destruct (Hent t d Ht Hd) as [Hn Hw].
  rewrite Huv in Hn, Hw.
  split; [exact Hw|]. split.
  - intros Hv. apply H1 in Hv. rewrite Hn, Hv. ring.
  - intros Hv. apply H0 in Hv. rewrite Hw, Hn, Hv.
    repeat split; ring.
Qed.


End SineGenForward.

(** ** The harmonic source of the generator *)

Lemma Linear_forward_ok (lin : Linear.t) (L : nat) (X : Matrix) :
  has_shape L (Linear.in_features lin) X ->
  exists Y : Matrix,
    Linear.forward lin X = Ok Y
    /\ has_shape L (Linear.out_features lin) Y
    /\ forall t o, (t < L)%nat -> (o < Linear.out_features lin)%nat ->
         entry Y t o =
           dot (nth t X [])
               (map (Linear.weight lin o) (seq 0 (Linear.in_features lin)))
           + Linear.bias lin o.
Proof.
  intros [HL HD]. unfold Linear.forward.
  replace (forallb _ X) with true.
  2:{ symmetry. apply forallb_forall. intros row Hin.
      rewrite Forall_forall in HD. apply Nat.eqb_eq, HD, Hin. }
  eexists; split; [reflexivity|]. split; [split|].
  - rewrite length_map. exact HL.
  - apply Forall_forall. intros row Hin. apply in_map_iff in Hin.
    destruct Hin as [x [<- _]]. rewrite length_map, length_seq. reflexivity.
  - intros t o Ht Ho. unfold entry.
    rewrite (nth_map_in _ X t [] []) by lia.
    rewrite (nth_map_in _ _ o 0%nat 0) by (rewrite length_seq; exact Ho).
    rewrite seq_nth by exact Ho. reflexivity.
Qed.

(** The source module returns on every input with at least two time
    steps: the sine waves go through the linear layer and [tanh]. *)
Lemma source_forward_returns (sr : R) (hn : nat) (amp ns thr : R)
    (W : nat -> nat -> R) (b : nat -> R) (rng : Draws) (f0 : Vector) :
  (2 <= length f0)%nat ->
  exists (sine_wavs : Matrix) (uv : Vector) (noise0 Y : Matrix),
    SineGen.forward (SineGen.__init__ sr hn amp ns thr)
      (rand_ini rng) (randn_sine rng) f0 = Ok (sine_wavs, uv, noise0)
    /\ has_shape (length f0) (hn + 1) sine_wavs
    /\ has_shape (length f0) 1 Y
    /\ (forall t, (t < length f0)%nat ->
          entry Y t 0 =
            dot (nth t sine_wavs []) (map (W 0%nat) (seq 0 (hn + 1))) + b 0%nat)
    /\ SourceModuleHnNSF.forward
         (SourceModuleHnNSF.__init__ sr hn amp ns thr W b) rng f0
       = Ok (mmap tanh Y,
             map (fun t => randn_noise rng t * (amp / 3)) (seq 0 (length uv)),
             uv).
Proof.
  intros HL.
  destruct (forward_sines_ok sr hn amp ns thr (rand_ini rng) f0 HL)
    as [sines [Es Hs]].
  destruct (forward_entries sr hn amp ns thr (rand_ini rng)
              (randn_sine rng) f0 sines Es Hs)
    as [sine_wavs [uv [noise0 [Ef [Euv [Hw _]]]]]].
  set (lin0 := {| Linear.in_features := hn + 1;
                  Linear.out_features := 1;
                  Linear.weight := W;
                  Linear.bias := b |}).
  destruct (Linear_forward_ok lin0 (length f0) sine_wavs Hw)
    as [Y [EY [HY HYent]]].
  exists sine_wavs, uv, noise0, Y.
  split; [exact Ef|]. split; [exact Hw|]. split; [exact HY|]. split.
  - intros t Ht. apply (HYent t 0%nat); [exact Ht | simpl; lia].
  - unfold SourceModuleHnNSF.forward.
    cbn [SourceModuleHnNSF.__init__ SourceModuleHnNSF.l_sin_gen
         SourceModuleHnNSF.l_linear SourceModuleHnNSF.sine_amp].
    rewrite Ef. cbn [rbind]. fold lin0. rewrite EY. reflexivity.
Qed.

(** *** What [Generator.__init__] has built when it returns *)

Lemma mapM_length {A B : Type} (f : A -> Result B) (xs : list A) (ys : list B) :
  mapM f xs = Ok ys -> length ys = length xs.
Proof.
  revert ys. induction xs as [|x xs IH]; intros ys; cbn [mapM].
  - intros E. injection E as <-. reflexivity.
  - destruct (f x) as [y|e]; cbn [rbind]; [|discriminate].
    destruct (mapM f xs) as [ys'|e]; cbn [rbind]; [|discriminate].
    intros E. injection E as <-. cbn [length]. rewrite (IH ys' eq_refl).
    reflexivity.
Qed.

Lemma mapM_Forall {A B : Type} (f : A -> Result B) (P : B -> Prop)
    (xs : list A) (ys : list B) :
  (forall x y, f x = Ok y -> P y) -> mapM f xs = Ok ys -> Forall P ys.
Proof.
  intros Hf. revert ys. induction xs as [|x xs IH]; intros ys; cbn [mapM].
  - intros E. injection E as <-. constructor.
  - destruct (f x) as [y|e] eqn:Ex; cbn [rbind]; [|discriminate].
    destruct (mapM f xs) as [ys'|e]; cbn [rbind]; [|discriminate].
    intros E. injection E as <-. constructor; [eapply Hf, Ex | apply IH; reflexivity].
Qed.

Lemma weight_norm_layer (c : Convolution) :
  utils.weight_norm (layer c)
  = Ok {| weights := Normed (norm_except_dim (initial_weight c)) (initial_weight c);
          bias := initial_bias c;
          functional := convolve c |}.
Proof. reflexivity. Qed.

Lemma weight_norm_normed (m m' : Layer) :
  utils.weight_norm m = Ok m' -> weight_normed m' = true.
Proof.
  unfold utils.weight_norm. destruct (weights m); [discriminate|].
  intros E. injection E as <-. reflexivity.
Qed.

(** The steps of [Generator.__init__] on a run that returns. *)
Lemma Generator_init_inv (nn : Modules) (h : AttrDict) (G : Generator.t) :
  Generator.__init__ nn h = Ok G ->
  let pairs := combine (upsample_rates h) (upsample_kernel_sizes h) in
  exists (pre post : Convolution) (stages : list (Layer * Layer))
         (blocks : list (list ResBlock.t)) (conv_pre conv_post : Layer),
    Conv1d nn (num_mels h) (upsample_initial_channel h) 7 1 3 = Ok pre
    /\ utils.weight_norm (layer pre) = Ok conv_pre
    /\ mapM (Generator.init_stage nn h) (combine (seq 0 (length pairs)) pairs)
       = Ok stages
    /\ mapM (Generator.init_blocks nn h) (seq 0 (length stages)) = Ok blocks
    /\ stages <> []
    /\ Conv1d nn (upsample_initial_channel h / 2 ^ length stages)%nat 1 7 1 3
       = Ok post
    /\ utils.weight_norm (layer post) = Ok conv_post
    /\ G = {| Generator.h := h;
              Generator.num_kernels := length (resblock_kernel_sizes h);
              Generator.num_upsamples := length (upsample_rates h);
              Generator.f0_upsamp :=
                Upsample.__init__ nn (prod (upsample_rates h));
              Generator.m_source :=
                SourceModuleHnNSF.__init__ (sampling_rate h) 8 0.1 0.003 0
                  (Linear_weight nn 9 1) (Linear_bias nn 9 1);
              Generator.noise_convs := map snd stages;
              Generator.conv_pre := conv_pre;
              Generator.ups := map fst stages;
              Generator.resblocks := concat blocks;
              Generator.conv_post := conv_post;
              Generator.training := true;
              Generator.history := [] |}.
Proof.
  intros E pairs. unfold Generator.__init__ in E. cbv zeta in E. fold pairs in E.
  destruct (Conv1d nn (num_mels h) _ 7 1 3) as [pre|e] eqn:Epre;
    cbn [rbind] in E; [|discriminate].
  destruct (utils.weight_norm (layer pre)) as [conv_pre|e] eqn:Ewpre;
    cbn [rbind] in E; [|discriminate].
  destruct (mapM (Generator.init_stage nn h) _) as [stages|e] eqn:Est;
    cbn [rbind] in E; [|discriminate].
  rewrite !(length_map fst stages) in E.
  destruct (mapM (Generator.init_blocks nn h) _) as [blocks|e] eqn:Ebl;
    cbn [rbind] in E; [|discriminate].
  destruct stages as [|st stages]; [discriminate|].
  cbn [map] in E.
  destruct (Conv1d nn _ 1 7 1 3) as [post|e] eqn:Epost;
    cbn [rbind] in E; [|discriminate].
  destruct (utils.weight_norm (layer post)) as [conv_post|e] eqn:Ewpost;
    cbn [rbind] in E; [|discriminate].
  destruct (mapM (init_weights nn) _) as [u1|e]; cbn [rbind] in E; [|discriminate].
  destruct (init_weights nn conv_post) as [u2|e]; cbn [rbind] in E; [|discriminate].
  injection E as <-.
  exists pre, post, (st :: stages), blocks, conv_pre, conv_post.
  repeat (split; [first [assumption | reflexivity | discriminate]|]).
  reflexivity.
Qed.



(** ** [Generator.forward] and [NsfHiFiGAN.forward] *)

Lemma tanh_bounds (x : R) : -1 < tanh x < 1.
Proof.
  pose proof (exp_pos x) as Ha. pose proof (exp_pos (- x)) as Hb.
  assert (H : tanh x * (exp x + exp (- x)) = exp x - exp (- x)).
  { unfold tanh, sinh, cosh. field. lra. }
  split; nra.
Qed.

Lemma samples_tanh_bounded (X : Tensor3) :
  Forall (fun s => -1 < s < 1) (samples (squeeze1_3d (tmap tanh X))).
Proof.
  assert (H : forall rows : list (list (list R)),
            Forall (Forall (Forall (fun s => -1 < s < 1)))
                   (map (map (map tanh)) rows)).
  { intros rows. apply Forall_map, Forall_forall. intros X' _.
    apply Forall_map, Forall_forall. intros r _.
    apply Forall_map, Forall_forall. intros s _. apply tanh_bounds. }
  specialize (H (data X)).
  unfold squeeze1_3d. cbn [tmap size0 size1 size2 data].
  destruct (size1 X =? 1)%nat; cbn [samples data].
  - apply Forall_concat, Forall_map, Forall_forall. intros ch Hch.
    rewrite Forall_forall in H. specialize (H ch Hch).
    destruct ch as [|r ch]; cbn [hd]; [constructor|].
    inversion H; assumption.
  - apply Forall_concat, Forall_forall. intros row Hrow.
    apply in_concat in Hrow. destruct Hrow as [ch [Hch Hrow]].
    rewrite Forall_forall in H. specialize (H ch Hch).
    rewrite Forall_forall in H. exact (H row Hrow).
Qed.

(** Whatever [forward] returns is [squeeze(1)] of [tanh] of the output of
    [conv_post]. *)
Lemma forward_ends_in_tanh (G : Generator.t) (rng : Draws) (x : Tensor3)
    (f0 : list Vector) (wav : Squeezed R) :
  Generator.forward G rng x f0 = Ok wav ->
  exists (pre post : Tensor3),
    call (Generator.conv_post G) (tmap (leaky_relu 0.01) pre) = Ok post
    /\ wav = squeeze1_3d (tmap tanh post).
Proof.
  unfold Generator.forward.
  destruct (mapM _ f0) as [f0u|e]; cbn [rbind]; [|discriminate].
  destruct (Generator.source G rng f0u) as [[[har noi] uv]|e];
    cbn [rbind]; [|discriminate].
  destruct (call (Generator.conv_pre G) x) as [x1|e]; cbn [rbind]; [|discriminate].
  destruct (Generator.stages _ _ _ _) as [x2|e]; cbn [rbind]; [|discriminate].
  destruct (call (Generator.conv_post G) _) as [x3|e] eqn:E; cbn [rbind];
    [|discriminate].
  intros H. injection H as <-. exists x2, x3. split; [exact E | reflexivity].
Qed.

(** *** Sizes along the stages *)

Lemma sizes_tmap {A B : Type} (f : A -> B) (X : Tensor A) :
  sizes (tmap f X) = sizes X.
Proof. reflexivity. Qed.

Lemma bsize_same (n : nat) : bsize n n = Some n.
Proof. unfold bsize. rewrite Nat.eqb_refl. reflexivity. Qed.

Lemma bsize_one (n : nat) : bsize n 1 = Some n.
Proof.
  unfold bsize. destruct (n =? 1)%nat eqn:E; [|reflexivity].
  apply Nat.eqb_eq in E. subst. reflexivity.
Qed.

Lemma broadcast_same {A : Type} (d : A) (f : A -> A -> A) (X Y : Tensor A) :
  sizes Y = sizes X ->
  exists Z, broadcast d f X Y = Ok Z /\ sizes Z = sizes X.
Proof.
  unfold sizes. intros E. injection E as E0 E1 E2.
  unfold broadcast. rewrite E0, E1, E2, !bsize_same.
  eexists. split; reflexivity.
Qed.

Lemma broadcast_batch {A : Type} (d : A) (f : A -> A -> A) (X Y : Tensor A) :
  sizes Y = (1%nat, size1 X, size2 X) ->
  exists Z, broadcast d f X Y = Ok Z /\ sizes Z = sizes X.
Proof.
  unfold sizes. intros E. injection E as E0 E1 E2.
  unfold broadcast. rewrite E0, E1, E2, bsize_one, !bsize_same.
  eexists. split; reflexivity.
Qed.

Lemma broadcast__same {A : Type} (d : A) (f : A -> A -> A) (X Y : Tensor A) :
  sizes Y = sizes X ->
  exists Z, broadcast_ d f X Y = Ok Z /\ sizes Z = sizes X.
Proof.
  intros E. destruct (broadcast_same d f X Y E) as [Z [EZ HZ]].
  unfold broadcast_. rewrite EZ. cbn [rbind].
  pose proof HZ as HZ'. unfold sizes in HZ'. injection HZ' as H0 H1 H2.
  rewrite H0, H1, H2, !Nat.eqb_refl. cbn [andb].
  exists Z. split; [reflexivity | exact HZ].
Qed.

Section Stages.

Variables (G : Generator.t) (B N : nat) (C T : nat -> nat).
Hypothesis G_fits : fits G B N C T.

Lemma sum_resblocks_returns (i : nat) (x : Tensor3) (js : list nat)
    (xs : option Tensor3) :
  (i < Generator.num_upsamples G)%nat ->
  sizes x = (B, C (S i), T (S i)) ->
  (forall j, In j js -> (j < Generator.num_kernels G)%nat) ->
  (forall s, xs = Some s -> sizes s = (B, C (S i), T (S i))) ->
  (js <> [] \/ xs <> None) ->
  exists r : Tensor3,
    Generator.sum_resblocks G i x js xs = Ok (Some r)
    /\ sizes r = (B, C (S i), T (S i)).
Proof.
  destruct G_fits as [_ [_ [_ [Hres _]]]].
  intros Hi Hx. revert xs.
  induction js as [|j js IH]; intros xs Hjs Hxs Hne.
  - destruct Hne as [Hne|Hne]; [contradiction|].
    destruct xs as [s|]; [|contradiction].
    exists s. split; [reflexivity | apply Hxs; reflexivity].
  - cbn [Generator.sum_resblocks].
    destruct (Hres i j Hi (Hjs j (or_introl eq_refl))) as [block [-> Hblock]].
    cbn [rbind].
    destruct (Hblock x Hx) as [r [-> Hr]]. cbn [rbind].
    assert (Hstep : exists s' : Tensor3,
              match xs with
              | None => Ok r
              | Some s => broadcast_ 0 Rplus s r
              end = Ok s'
              /\ sizes s' = (B, C (S i), T (S i))).
    { destruct xs as [s|].
      - destruct (broadcast__same 0 Rplus s r) as [Z [EZ HZ]].
        + rewrite Hr. symmetry. apply Hxs. reflexivity.
        + exists Z. split; [exact EZ|]. rewrite HZ. apply Hxs. reflexivity.
      - exists r. split; [reflexivity | exact Hr]. }
    destruct Hstep as [s' [-> Hs']]. cbn [rbind].
    apply IH.
    + intros j' Hj'. apply Hjs. right. exact Hj'.
    + intros s E. injection E as <-. exact Hs'.
    + right. discriminate.
Qed.

Lemma stages_returns (har_source : Tensor3) (len a : nat) (x : Tensor3) :
  sizes har_source = (1%nat, 1%nat, N) ->
  (a + len <= Generator.num_upsamples G)%nat ->
  sizes x = (B, C a, T a) ->
  exists y : Tensor3,
    Generator.stages G har_source (seq a len) x = Ok y
    /\ sizes y = (B, C (a + len)%nat, T (a + len)%nat).
Proof.
  destruct G_fits as [Hk [Hups [Hnoise _]]].
  intros Hhar. revert a x.
  induction len as [|len IH]; intros a x Ha Hx.
  - exists x. rewrite Nat.add_0_r. split; [reflexivity | exact Hx].
  - cbn [seq Generator.stages].
    destruct (Hups a) as [up [-> Hup]]; [lia|]. cbn [rbind].
    destruct (Hup (tmap (leaky_relu LRELU_SLOPE) x)) as [x1 [-> Hx1]];
      [rewrite sizes_tmap; exact Hx|].
    cbn [rbind].
    destruct (Hnoise a) as [nc [-> Hnc]]; [lia|]. cbn [rbind].
    destruct (Hnc har_source Hhar) as [xs [-> Hxs]]. cbn [rbind].
    destruct (broadcast_batch 0 Rplus x1 xs) as [x2 [-> Hx2]].
    { rewrite Hxs. unfold sizes in Hx1. injection Hx1 as _ -> ->. reflexivity. }
    cbn [rbind]. rewrite Hx1 in Hx2.
    destruct (sum_resblocks_returns a x2
                (seq 0 (Generator.num_kernels G)) None) as [r [-> Hr]].
    + lia.
    + exact Hx2.
    + intros j Hj. apply in_seq in Hj. lia.
    + discriminate.
    + left. destruct (Generator.num_kernels G); [contradiction | discriminate].
    + cbn [rbind].
      destruct (IH (S a) (tmap (fun v => v / INR (Generator.num_kernels G)) r))
        as [y [Ey Hy]].
      * lia.
      * rewrite sizes_tmap. exact Hr.
      * exists y. split; [exact Ey|].
        replace (a + S len)%nat with (S a + len)%nat by lia. exact Hy.
Qed.

End Stages.

(** On an f0 of one row with at least two samples after the upsampling,
    and with layers that fit, [forward] returns the squeezed [tanh] of
    the output of [conv_post]. *)
Lemma forward_returns (G : Generator.t) (rng : Draws) (x : Tensor3)
    (f0 f0u : Vector) (y0 : Tensor3) (B : nat) (C T : nat -> nat)
    (sr : R) (hn : nat) (amp ns thr : R) (W : nat -> nat -> R) (b : nat -> R) :
  Generator.m_source G = SourceModuleHnNSF.__init__ sr hn amp ns thr W b ->
  Upsample.forward (Generator.f0_upsamp G) f0 = Ok f0u ->
  (2 <= length f0u)%nat ->
  call (Generator.conv_pre G) x = Ok y0 ->
  sizes y0 = (B, C 0%nat, T 0%nat) ->
  fits G B (length f0u) C T ->
  exists post : Tensor3,
    Generator.forward G rng x [f0] = Ok (squeeze1_3d (tmap tanh post))
    /\ sizes post = (B, 1%nat, T (Generator.num_upsamples G)).
Proof.
  intros Hsrc Hup HL Hpre Hy0 Hfits.
  destruct (source_forward_returns sr hn amp ns thr W b rng f0u HL)
    as [sine_wavs [uv [noise0 [Y [_ [_ [HY [_ Esrc]]]]]]]].
  unfold Generator.forward. cbn [mapM]. rewrite Hup. cbn [rbind].
  unfold Generator.source. rewrite Hsrc, Esrc. cbn [rbind].
  rewrite Hpre. cbn [rbind].
  set (har := {| size0 := 1; size1 := 1; size2 := length (mmap tanh Y);
                 data := [transpose 1 (mmap tanh Y)] |}).
  assert (Hhar : sizes har = (1%nat, 1%nat, length f0u)).
  { unfold sizes, har. cbn [size0 size1 size2]. unfold mmap.
    rewrite length_map. destruct HY as [-> _]. reflexivity. }
  destruct (stages_returns G B (length f0u) C T Hfits har
              (Generator.num_upsamples G) 0 y0 Hhar (le_n _) Hy0)
    as [y [-> Hy]].
  cbn [rbind]. cbn [Nat.add] in Hy.
  destruct Hfits as [_ [_ [_ [_ Hpost]]]].
  destruct (Hpost (tmap (leaky_relu 0.01) y)) as [post [-> Hp]];
    [rewrite sizes_tmap; exact Hy|].
  cbn [rbind]. exists post. split; [reflexivity | exact Hp].
Qed.

Lemma example_generator_fits (B : nat) :
  fits example_generator B 4 example_channels example_lengths.
Proof.
  unfold fits. cbn [example_generator Generator.num_kernels
    Generator.num_upsamples Generator.ups Generator.noise_convs
    Generator.resblocks Generator.conv_post].
  split; [discriminate|].
  split.
  { intros [|i] Hi; [|lia]. eexists. split; [reflexivity|].
    intros x Hx. eexists. split; [reflexivity|].
    unfold sizes in *. cbn [size0 size1 size2]. injection Hx as -> _ ->.
    reflexivity. }
  split.
  { intros [|i] Hi; [|lia]. eexists. split; [reflexivity|].
    intros s Hs. exists s. split; [reflexivity | exact Hs]. }
  split.
  { intros [|i] [|j] Hi Hj; try lia. eexists. split; [reflexivity|].
    intros x Hx. exists x. split; [reflexivity | exact Hx]. }
  intros x Hx. exists x. split; [reflexivity | exact Hx].
Qed.

(** The batch sizes: the mel input can have any batch size with an f0 of
    one row, which is broadcast; an f0 of two rows raises in the sine
    generator whatever the mel input. *)
Example forward_mel_batch_of_two :
  exists rows : list (list R),
    Generator.forward example_generator example_rng example_mel_pair
      [[220; 220]] = Ok (Dropped 2 4 rows).
Proof.
  destruct (forward_returns example_generator example_rng example_mel_pair
              [220; 220] [220; 220; 220; 220] example_mel_pair 2
              example_channels example_lengths 44100 8 0.1 0.003 0
              (Linear_weight example_nn 9 1) (Linear_bias example_nn 9 1))
    as [post [E Hp]]; try reflexivity.
  - simpl; lia.
  - exact (example_generator_fits 2).
  - rewrite E. unfold squeeze1_3d. cbn [tmap size0 size1 size2 data].
    unfold sizes in Hp. injection Hp as -> -> ->.
    cbn [example_generator Generator.num_upsamples example_lengths Nat.eqb].
    eexists. reflexivity.
Qed.

Example forward_f0_batch_of_two :
  Generator.forward example_generator example_rng example_mel
    [[220; 220]; [220; 220]] = Raise RuntimeError.
Proof. reflexivity. Qed.

Example forward_f0_empty :
  Generator.forward example_generator example_rng example_mel [[]]
  = Raise RuntimeError.
Proof. reflexivity. Qed.

(** C9: every sample of the waveform returned by [Generator.forward], and
    so by [NsfHiFiGAN.forward], lies strictly between -1 and 1, in exact
    real arithmetic: the value is [tanh] of the output of [conv_post],
    with only [squeeze(1)] after it.  On an f0 of one row that has at
    least two samples after the upsampling, and with layers that fit the
    input, both return such a waveform. *)
Theorem forward_waveform_within_unit_interval
    (V : NsfHiFiGAN.t) (rng : Draws) (mel : Tensor3) (f0 f0u : Vector)
    (y0 : Tensor3) (B : nat) (C T : nat -> nat)
    (sr : R) (hn : nat) (amp ns thr : R) (W : nat -> nat -> R) (b : nat -> R) :
  let G := generator V in
  let x := scale 2.30259 (transpose_2_1 mel) in
  Generator.m_source G = SourceModuleHnNSF.__init__ sr hn amp ns thr W b ->
  Upsample.forward (Generator.f0_upsamp G) f0 = Ok f0u ->
  (2 <= length f0u)%nat ->
  call (Generator.conv_pre G) x = Ok y0 ->
  sizes y0 = (B, C 0%nat, T 0%nat) ->
  fits G B (length f0u) C T ->
  (exists (post : Tensor3) (wav : Squeezed R),
     wav = squeeze1_3d (tmap tanh post)
     /\ sizes post = (B, 1%nat, T (Generator.num_upsamples G))
     /\ Generator.forward G rng x [f0] = Ok wav
     /\ NsfHiFiGAN.forward V rng mel [f0] = Ok wav
     /\ Forall (fun s => -1 < s < 1) (samples wav))
  /\ (forall (G' : Generator.t) (rng' : Draws) (x' : Tensor3)
             (f0' : list Vector) (wav : Squeezed R),
        Generator.forward G' rng' x' f0' = Ok wav ->
        Forall (fun s => -1 < s < 1) (samples wav))
  /\ (forall (V' : NsfHiFiGAN.t) (rng' : Draws) (mel' : Tensor3)
             (f0' : list Vector) (wav : Squeezed R),
        NsfHiFiGAN.forward V' rng' mel' f0' = Ok wav ->
        Forall (fun s => -1 < s < 1) (samples wav)).
Proof.
  intros G x Hsrc Hup HL Hpre Hy0 Hfits.
  assert (HG : forall (G' : Generator.t) (rng' : Draws) (x' : Tensor3)
                      (f0' : list Vector) (wav : Squeezed R),
             Generator.forward G' rng' x' f0' = Ok wav ->
             Forall (fun s => -1 < s < 1) (samples wav)).
  { intros G' rng' x' f0' wav H. apply forward_ends_in_tanh in H.
    destruct H as [pre [post [_ ->]]]. apply samples_tanh_bounded. }
  split; [|split; [exact HG|]].
  - destruct (forward_returns G rng x f0 f0u y0 B C T sr hn amp ns thr W b
                Hsrc Hup HL Hpre Hy0 Hfits) as [post [E Hp]].
    exists post, (squeeze1_3d (tmap tanh post)).
    split; [reflexivity|]. split; [exact Hp|]. split; [exact E|].
    split; [exact E | apply samples_tanh_bounded].
  - intros V' rng' mel' f0' wav H. unfold NsfHiFiGAN.forward in H.
    exact (HG _ _ _ _ _ H).
Qed.

(** *** The mel input of the wrapper *)

Lemma has_shape_transpose (L W : nat) (X : Matrix) :
  has_shape L W X -> has_shape W L (transpose W X).
Proof.
  intros [HL HD]. split; unfold transpose.
  - rewrite length_map, length_seq. reflexivity.
  - apply Forall_forall. intros row Hin. apply in_map_iff in Hin.
    destruct Hin as [j [<- _]]. rewrite length_map. exact HL.
Qed.

Lemma entry_transpose (L W : nat) (X : Matrix) (i j : nat) :
  has_shape L W X -> (i < W)%nat -> (j < L)%nat ->
  entry (transpose W X) i j = entry X j i.
Proof.
  intros [HL HD] Hi Hj. unfold entry, transpose.
  rewrite (nth_map_in _ _ i 0%nat []) by (rewrite length_seq; exact Hi).
  rewrite seq_nth by exact Hi.
  rewrite (nth_map_in _ X j [] 0) by lia. reflexivity.
Qed.

(** C10: [NsfHiFiGAN.forward] hands the generator the mel input
    transposed from (batch, n_frames, num_mels) to
    (batch, num_mels, n_frames) with every element multiplied by
    2.30259, and the f0 input as it is. *)
Theorem NsfHiFiGAN_forward_mel_preprocessing
    (V : NsfHiFiGAN.t) (rng : Draws) (mel : Tensor3) (f0 : list Vector) :
  well_formed mel ->
  exists mel' : Tensor3,
    NsfHiFiGAN.forward V rng mel f0 = Generator.forward (generator V) rng mel' f0
    /\ well_formed mel'
    /\ size0 mel' = size0 mel
    /\ size1 mel' = size2 mel
    /\ size2 mel' = size1 mel
    /\ forall b m n, (b < size0 mel)%nat -> (m < size2 mel)%nat ->
         (n < size1 mel)%nat ->
         entry3 mel' b m n = entry3 mel b n m * 2.30259.
Proof.
  intros [HB HS].
  exists (scale 2.30259 (transpose_2_1 mel)).
  split; [reflexivity|]. split; [|repeat split].
  - split; cbn [scale transpose_2_1 data size0 size1 size2].
    + rewrite !length_map. exact HB.
    + rewrite !Forall_map. eapply Forall_impl; [|exact HS].
      intros X HX. apply has_shape_mmap, has_shape_transpose, HX.
  - intros b m n Hb Hm Hn. unfold entry3.
    cbn [scale transpose_2_1 data size0 size1 size2].
    rewrite map_map.
    rewrite (nth_map_in _ (data mel) b [] []) by lia.
    assert (HX : has_shape (size1 mel) (size2 mel) (nth b (data mel) [])).
    { rewrite Forall_forall in HS. apply HS, nth_In. lia. }
    rewrite (entry_mmap _ (size2 mel) (size1 mel))
      by (auto using has_shape_transpose).
    rewrite (entry_transpose (size1 mel) (size2 mel)) by auto.
    reflexivity.
Qed.

(** ** Removal of the weight norm *)

Lemma remove_weight_norm_normed (m : Layer) :
  weight_normed m = true -> utils.remove_weight_norm m = Ok (stripped_layer m).
Proof.
  unfold weight_normed, utils.remove_weight_norm, stripped_layer, weight.
  destruct (weights m); [reflexivity | discriminate].
Qed.

Lemma mapM_remove_weight_norm (ms : list Layer) :
  Forall (fun m => weight_normed m = true) ms ->
  mapM utils.remove_weight_norm ms = Ok (map stripped_layer ms).
Proof.
  induction 1 as [|m ms Hm _ IH]; [reflexivity|].
  cbn [mapM map]. rewrite (remove_weight_norm_normed m Hm).
  cbn [rbind]. rewrite IH. reflexivity.
Qed.

Lemma convs_weight_normed_Forall (b : bool) (block : ResBlock.t) :
  Forall (fun normed => normed = b) (ResBlock.convs_weight_normed block) <->
  Forall (fun m => weight_normed m = b) (ResBlock.convs block).
Proof. unfold ResBlock.convs_weight_normed. apply Forall_map. Qed.

Lemma mapM_remove_blocks (blocks : list ResBlock.t) :
  Forall (fun block =>
            Forall (fun normed => normed = true)
                   (ResBlock.convs_weight_normed block)) blocks ->
  mapM ResBlock.remove_weight_norm blocks = Ok (map stripped_block blocks).
Proof.
  induction 1 as [|b blocks Hb _ IH]; [reflexivity|].
  cbn [mapM map]. unfold ResBlock.remove_weight_norm at 1.
  apply convs_weight_normed_Forall in Hb.
  rewrite (mapM_remove_weight_norm _ Hb). cbn [rbind]. rewrite IH. reflexivity.
Qed.

(** On a generator whose layers all hold their weight norm,
    [remove_weight_norm] returns the stripped generator. *)
Lemma remove_weight_norm_strips (G : Generator.t) :
  all_weight_normed G -> Generator.remove_weight_norm G = Ok (stripped G).
Proof.
  intros [Hups [Hblocks [Hpre Hpost]]]. unfold Generator.remove_weight_norm.
  rewrite (mapM_remove_weight_norm _ Hups). cbn [rbind].
  rewrite (mapM_remove_blocks _ Hblocks). cbn [rbind].
  rewrite (remove_weight_norm_normed _ Hpre). cbn [rbind].
  rewrite (remove_weight_norm_normed _ Hpost). reflexivity.
Qed.

Lemma stripped_no_weight_norm (G : Generator.t) :
  Generator.no_weight_norm (stripped G).
Proof.
  unfold Generator.no_weight_norm, stripped.
  cbn [Generator.ups Generator.resblocks Generator.conv_pre Generator.conv_post].
  split; [apply Forall_map, Forall_forall; intros; reflexivity|].
  split; [|split; reflexivity].
  apply Forall_map, Forall_forall. intros b _.
  apply convs_weight_normed_Forall. unfold stripped_block.
  cbn [ResBlock.convs]. apply Forall_map, Forall_forall. intros; reflexivity.
Qed.

(** Every layer that [Generator.__init__] wraps in [weight_norm] holds
    its weight norm when the constructor returns. *)
Lemma init_stage_weight_normed (nn : Modules) (h : AttrDict)
    (iuk : nat * (nat * nat)) (st : Layer * Layer) :
  Generator.init_stage nn h iuk = Ok st ->
  weight_normed (fst st) = true /\ weight_normed (snd st) = false.
Proof.
  destruct iuk as [i [u k]]. unfold Generator.init_stage. cbv zeta.
  destruct (ConvTranspose1d nn _ _ k u _) as [up|e]; cbn [rbind]; [|discriminate].
  rewrite weight_norm_layer. cbn [rbind].
  destruct (if (i + 1 <? length (upsample_rates h))%nat then _ else _)
    as [noise_conv|e]; cbn [rbind]; [|discriminate].
  intros E. injection E as <-. split; reflexivity.
Qed.

Lemma mapM_weight_norm_normed (ms ms' : list Layer) :
  mapM utils.weight_norm ms = Ok ms' ->
  Forall (fun m => weight_normed m = true) ms'.
Proof. apply mapM_Forall. intros m m'. apply weight_norm_normed. Qed.

Lemma init_blocks_weight_normed (nn : Modules) (h : AttrDict) (i : nat)
    (blocks : list ResBlock.t) :
  Generator.init_blocks nn h i = Ok blocks ->
  Forall (fun block =>
            Forall (fun normed => normed = true)
                   (ResBlock.convs_weight_normed block)) blocks.
Proof.
  unfold Generator.init_blocks. cbv zeta. apply mapM_Forall.
  intros kd block.
  destruct ((if String.eqb (resblock h) "1" then ResBlock1 nn else ResBlock2 nn)
              h _ (fst kd) (snd kd)) as [parts|e]; cbn [rbind]; [|discriminate].
  unfold ResBlock.__init__.
  destruct (mapM utils.weight_norm _) as [convs'|e] eqn:E; cbn [rbind];
    [|discriminate].
  intros E'. injection E' as <-. apply convs_weight_normed_Forall.
  cbn [ResBlock.convs]. exact (mapM_weight_norm_normed _ _ E).
Qed.

Lemma Forall_concat_intro {A : Type} (P : A -> Prop) (xss : list (list A)) :
  Forall (Forall P) xss -> Forall P (concat xss).
Proof.
  induction 1 as [|xs xss Hxs _ IH]; [constructor|].
  cbn [concat]. apply Forall_app. split; assumption.
Qed.

Lemma init_all_weight_normed (nn : Modules) (h : AttrDict) (G : Generator.t) :
  Generator.__init__ nn h = Ok G -> all_weight_normed G.
Proof.
  intros E. apply Generator_init_inv in E. cbv zeta in E.
  destruct E as [pre [post [stages [blocks [conv_pre [conv_post
                 [_ [Hpre [Hst [Hbl [_ [_ [Hpost ->]]]]]]]]]]]]].
  unfold all_weight_normed.
  cbn [Generator.ups Generator.resblocks Generator.conv_pre Generator.conv_post].
  split; [|split; [|split]].
  - apply Forall_map.
    apply (mapM_Forall _ (fun st => weight_normed (fst st) = true) _ _
             (fun iuk st H => proj1 (init_stage_weight_normed nn h iuk st H)) Hst).
  - apply Forall_concat_intro.
    apply (mapM_Forall _ _ _ _ (init_blocks_weight_normed nn h) Hbl).
  - exact (weight_norm_normed _ _ Hpre).
  - exact (weight_norm_normed _ _ Hpost).
Qed.

(** [load_state_dict] changes the values of the parameters, not which
    parameters a layer has. *)
Lemma load_layer_weight_normed (sd : StateDict) (key : Slot -> Key)
    (m m' : Layer) :
  load_layer sd key m = Ok m' -> weight_normed m' = weight_normed m.
Proof.
  unfold load_layer, weight_normed.
  destruct (weights m) as [g v|w0].
  - destruct (load_parameter sd (key Weight_g) g) as [g'|e]; cbn [rbind];
      [|discriminate].
    destruct (load_parameter sd (key Weight_v) v) as [v'|e]; cbn [rbind];
      [|discriminate].
    destruct (bias m) as [b|]; cbn [rbind].
    + destruct (load_parameter sd (key Bias) b) as [b'|e]; cbn [rbind];
        [|discriminate].
      intros E. injection E as <-. reflexivity.
    + intros E. injection E as <-. reflexivity.
  - destruct (load_parameter sd (key Weight) w0) as [w'|e]; cbn [rbind];
      [|discriminate].
    destruct (bias m) as [b|]; cbn [rbind].
    + destruct (load_parameter sd (key Bias) b) as [b'|e]; cbn [rbind];
        [|discriminate].
      intros E. injection E as <-. reflexivity.
    + intros E. injection E as <-. reflexivity.
Qed.

Lemma load_layers_weight_normed (sd : StateDict) (key : nat -> Slot -> Key)
    (b : bool) (ms : list Layer) :
  forall (i : nat) (ms' : list Layer),
    load_layers sd key i ms = Ok ms' ->
    length ms' = length ms
    /\ (Forall (fun m => weight_normed m = b) ms ->
        Forall (fun m => weight_normed m = b) ms').
Proof.
  induction ms as [|m ms IH]; intros i ms'; cbn [load_layers].
  - intros E. injection E as <-. split; [reflexivity | trivial].
  - destruct (load_layer sd (key i) m) as [m1|e] eqn:Em; cbn [rbind];
      [|discriminate].
    destruct (load_layers sd key (S i) ms) as [rest|e] eqn:Er; cbn [rbind];
      [|discriminate].
    intros E. injection E as <-. destruct (IH _ _ Er) as [HL HF].
    split; [cbn [length]; rewrite HL; reflexivity|].
    intros H. apply Forall_cons_iff in H. destruct H as [Hm Hms]. constructor.
    + rewrite (load_layer_weight_normed _ _ _ _ Em). exact Hm.
    + exact (HF Hms).
Qed.

Lemma load_blocks_weight_normed (sd : StateDict) (b : bool)
    (blocks : list ResBlock.t) :
  forall (k : nat) (blocks' : list ResBlock.t),
    load_blocks sd k blocks = Ok blocks' ->
    length blocks' = length blocks
    /\ (Forall (fun block =>
                  Forall (fun normed => normed = b)
                         (ResBlock.convs_weight_normed block)) blocks ->
        Forall (fun block =>
                  Forall (fun normed => normed = b)
                         (ResBlock.convs_weight_normed block)) blocks').
Proof.
  induction blocks as [|block blocks IH]; intros k blocks'; cbn [load_blocks].
  - intros E. injection E as <-. split; [reflexivity | trivial].
  - destruct (load_layers sd (K_resblocks k) 0 (ResBlock.convs block))
      as [convs'|e] eqn:Ec; cbn [rbind]; [|discriminate].
    destruct (load_blocks sd (S k) blocks) as [rest|e] eqn:Er; cbn [rbind];
      [|discriminate].
    intros E. injection E as <-. destruct (IH _ _ Er) as [HL HF].
    split; [cbn [length]; rewrite HL; reflexivity|].
    intros H. apply Forall_cons_iff in H. destruct H as [Hb Hbs]. constructor.
    + apply convs_weight_normed_Forall. cbn [ResBlock.convs].
      apply convs_weight_normed_Forall in Hb.
      exact (proj2 (load_layers_weight_normed sd _ b _ _ _ Ec) Hb).
    + exact (HF Hbs).
Qed.

(** What [load_state_dict] leaves as it is on a run that returns. *)
Lemma load_state_dict_keeps (G G1 : Generator.t) (sd : StateDict) :
  Generator.load_state_dict G sd = Ok G1 ->
  (all_weight_normed G -> all_weight_normed G1)
  /\ length (Generator.ups G1) = length (Generator.ups G)
  /\ length (Generator.resblocks G1) = length (Generator.resblocks G)
  /\ Generator.training G1 = Generator.training G
  /\ Generator.history G1 = Generator.history G ++ [called_load_state_dict].
Proof.
  unfold Generator.load_state_dict. cbv zeta.
  destruct (load_diff sd _) as [gen|e]; cbn [rbind]; [|discriminate].
  destruct (load_linear sd _) as [lin|e]; cbn [rbind]; [|discriminate].
  destruct (load_layers sd K_noise_convs 0 _) as [noise_convs'|e];
    cbn [rbind]; [|discriminate].
  destruct (load_layer sd K_conv_pre _) as [conv_pre'|e] eqn:Epre;
    cbn [rbind]; [|discriminate].
  destruct (load_layers sd K_ups 0 _) as [ups'|e] eqn:Eups;
    cbn [rbind]; [|discriminate].
  destruct (load_blocks sd 0 _) as [resblocks'|e] eqn:Ebl;
    cbn [rbind]; [|discriminate].
  destruct (load_layer sd K_conv_post _) as [conv_post'|e] eqn:Epost;
    cbn [rbind]; [|discriminate].
  intros E. injection E as <-.
  destruct (load_layers_weight_normed sd _ true _ _ _ Eups) as [HLu HFu].
  destruct (load_blocks_weight_normed sd true _ _ _ Ebl) as [HLb HFb].
  unfold all_weight_normed.
  cbn [Generator.ups Generator.resblocks Generator.conv_pre Generator.conv_post
       Generator.training Generator.history].
  split; [|repeat split; assumption].
  intros [Hups [Hblocks [Hpre Hpost]]].
  split; [exact (HFu Hups)|]. split; [exact (HFb Hblocks)|].
  split.
  - rewrite (load_layer_weight_normed _ _ _ _ Epre). exact Hpre.
  - rewrite (load_layer_weight_normed _ _ _ _ Epost). exact Hpost.
Qed.

Lemma init_history (nn : Modules) (h : AttrDict) (G : Generator.t) :
  Generator.__init__ nn h = Ok G ->
  Generator.history G = [] /\ Generator.training G = true.
Proof.
  intros E. apply Generator_init_inv in E. cbv zeta in E.
  destruct E as [pre [post [stages [blocks [conv_pre [conv_post
                 [_ [_ [_ [_ [_ [_ [_ ->]]]]]]]]]]]]].
  split; reflexivity.
Qed.

(** ** [load_model] *)

Section LoadModel.

Variables (ext : Externals) (model_path device data : string).
Variables (h : AttrDict) (cp_dict : string -> option StateDict) (sd : StateDict).
Variables G0 G1 : Generator.t.

Let config_file : string :=
  os_path_join ext (fst (os_path_split ext model_path)) "config.json".

Hypothesis json_ok : json_loads ext data = Ok h.
Hypothesis init_ok : Generator.__init__ (nn ext) h = Ok G0.
Hypothesis sd_ok : cp_dict "generator" = Some sd.
Hypothesis load_ok : Generator.load_state_dict G0 sd = Ok G1.

Lemma loaded_all_weight_normed : all_weight_normed (Generator.eval G1).
Proof.
  exact (proj1 (load_state_dict_keeps G0 G1 sd load_ok)
           (init_all_weight_normed _ _ _ init_ok)).
Qed.

(** With the configuration and the checkpoint in place [load_model]
    returns the stripped generator, in evaluation mode. *)
Lemma load_model_returns (w : World) :
  files w config_file = Some (TextFile data) ->
  files w model_path = Some (CheckpointFile cp_dict) ->
  load_model ext model_path device w =
    (Ok (stripped (Generator.eval G1), h),
     {| files := files w;
        stdout := stdout w ++ ["Removing weight norm..."];
        argv := argv w;
        hparams := hparams w;
        calls := calls w ++ [torch_load model_path] |}).
Proof.
  intros Hcfg Hckpt.
  pose proof (remove_weight_norm_strips _ loaded_all_weight_normed) as Hrm.
  unfold load_model. fold config_file.
  unfold bind at 1. unfold read at 1. rewrite Hcfg.
  unfold bind at 1. unfold ret at 1.
  unfold bind at 1. unfold lift at 1. rewrite json_ok.
  unfold bind at 1. unfold lift at 1. rewrite init_ok.
  unfold bind at 1. unfold record at 1.
  unfold bind at 1. unfold read at 1. cbn [files]. rewrite Hckpt.
  unfold bind at 1. unfold ret at 1.
  unfold bind at 1. rewrite sd_ok. unfold ret at 1.
  unfold bind at 1. unfold lift at 1. rewrite load_ok.
  unfold bind at 1. unfold Generator_remove_weight_norm.
  unfold bind at 1. unfold print at 1. unfold lift. rewrite Hrm.
  unfold ret. cbn [files stdout argv hparams calls]. reflexivity.
Qed.

End LoadModel.

(** ** [export] *)

Section ExportFacts.

Variables (ext : Externals) (path ckpt data : string).
Variables (h : AttrDict) (cp_dict : string -> option StateDict) (sd : StateDict).
Variables G0 G1 : Generator.t.
Variable hp : string -> option string.

Hypothesis ckpt_ok : hp "vocoder_ckpt" = Some ckpt.
Hypothesis json_ok : json_loads ext data = Ok h.
Hypothesis init_ok : Generator.__init__ (nn ext) h = Ok G0.
Hypothesis sd_ok : cp_dict "generator" = Some sd.
Hypothesis load_ok : Generator.load_state_dict G0 sd = Ok G1.

Let vocoder : NsfHiFiGAN.t :=
  {| device := if cuda_is_available ext then "cuda" else "cpu";
     generator := stripped (Generator.eval G1);
     vocoder_hparams := h |}.

(** [export] loads the model, then hands it to [torch.onnx.export]; the
    file is written when the tracing returns. *)
Lemma export_runs (w : World) :
  read_hparams ext (argv w) (files w) = Ok hp ->
  files w (os_path_join ext (fst (os_path_split ext ckpt)) "config.json")
    = Some (TextFile data) ->
  files w ckpt = Some (CheckpointFile cp_dict) ->
  export ext path w =
    match trace ext vocoder (export_mel ext 10) (export_f0 ext 10)
            export_options with
    | Ok graph =>
        (Ok tt,
         {| files := with_file w path (OnnxFile graph);
            stdout := stdout w ++ ["Removing weight norm..."];
            argv := argv w;
            hparams := hp;
            calls := calls w ++ [torch_load ckpt;
                                 torch_onnx_export vocoder path export_options] |})
    | Raise e =>
        (Raise e,
         {| files := files w;
            stdout := stdout w ++ ["Removing weight norm..."];
            argv := argv w;
            hparams := hp;
            calls := calls w ++ [torch_load ckpt;
                                 torch_onnx_export vocoder path export_options] |})
    end.
Proof.
  intros Hhp Hcfg Hckpt.
  unfold export. unfold bind at 1. rewrite Hhp.
  unfold bind at 1. unfold bind at 1.
  unfold NsfHiFiGAN.__init__. unfold bind at 1. cbn [hparams]. rewrite ckpt_ok.
  unfold bind at 1.
  rewrite (load_model_returns ext ckpt _ data h cp_dict sd G0 G1
             json_ok init_ok sd_ok load_ok) by (cbn [files]; assumption).
  unfold ret at 1. cbn [fst snd files stdout argv hparams calls].
  fold vocoder.
  unfold bind at 1. unfold record at 1.
  cbn [files stdout argv hparams calls].
  unfold bind at 1. unfold lift at 1.
  rewrite <- app_assoc. cbn [app].
  destruct (trace ext vocoder _ _ _) as [graph|e]; reflexivity.
Qed.

End ExportFacts.

(** C6: the weight norm is removed before the export.  With the
    configuration and the checkpoint in place, a generator [G0] built by
    [Generator.__init__] and a state dict that [load_state_dict] accepts,
    giving [G1], [load_model] returns the generator [G] that
    [remove_weight_norm] returns on [G1] in evaluation mode.  The calls
    made on it are [load_state_dict], [eval], [remove_weight_norm], in
    this order; before the last every layer of [ups], every block of
    [resblocks], [conv_pre] and [conv_post] holds its weight norm, with
    the parameters of the state dict; after it none does, and each holds
    the weight computed from these parameters.  The module that [export]
    hands to [torch.onnx.export] has this generator. *)
Theorem load_model_removes_weight_norm
    (ext : Externals) (model_path device data : string) (h : AttrDict)
    (cp_dict : string -> option StateDict) (sd : StateDict)
    (G0 G1 : Generator.t) (w : World) :
  files w (os_path_join ext (fst (os_path_split ext model_path)) "config.json")
    = Some (TextFile data) ->
  json_loads ext data = Ok h ->
  Generator.__init__ (nn ext) h = Ok G0 ->
  files w model_path = Some (CheckpointFile cp_dict) ->
  cp_dict "generator" = Some sd ->
  Generator.load_state_dict G0 sd = Ok G1 ->
  exists (G : Generator.t) (w' : World),
    load_model ext model_path device w = (Ok (G, h), w')
    /\ Generator.remove_weight_norm (Generator.eval G1) = Ok G
    /\ Generator.history G
       = [called_load_state_dict; called_eval; called_remove_weight_norm]
    /\ all_weight_normed (Generator.eval G1)
    /\ Generator.ups G = map stripped_layer (Generator.ups G1)
    /\ Generator.resblocks G = map stripped_block (Generator.resblocks G1)
    /\ Generator.conv_pre G = stripped_layer (Generator.conv_pre G1)
    /\ Generator.conv_post G = stripped_layer (Generator.conv_post G1)
    /\ Generator.training G = false
    /\ Generator.no_weight_norm G
    /\ length (Generator.ups G) = length (Generator.ups G0)
    /\ length (Generator.resblocks G) = length (Generator.resblocks G0)
    /\ stdout w' = stdout w ++ ["Removing weight norm..."]
    /\ calls w' = calls w ++ [torch_load model_path]
    /\ forall (path : string) (hp : string -> option string),
         read_hparams ext (argv w) (files w) = Ok hp ->
         hp "vocoder_ckpt" = Some model_path ->
         exists (V : NsfHiFiGAN.t) (r : Result unit) (w'' : World),
           export ext path w = (r, w'')
           /\ generator V = G
           /\ calls w'' =
                calls w ++ [torch_load model_path;
                            torch_onnx_export V path export_options].
Proof.
  intros Hcfg Hjson Hinit Hckpt Hsd Hload.
  pose proof (loaded_all_weight_normed ext h sd G0 G1 Hinit Hload) as Hall.
  destruct (load_state_dict_keeps G0 G1 sd Hload) as [_ [HLu [HLb [_ Hhist]]]].
  destruct (init_history _ _ _ Hinit) as [Hh0 _].
  exists (stripped (Generator.eval G1)). eexists.
  split; [apply (load_model_returns ext model_path device data h cp_dict sd G0 G1);
          assumption|].
  split; [apply remove_weight_norm_strips, Hall|].
  split; [cbn [stripped Generator.eval Generator.history];
          rewrite Hhist, Hh0; reflexivity|].
  split; [exact Hall|].
  do 4 (split; [reflexivity|]).
  split; [reflexivity|].
  split; [apply stripped_no_weight_norm|].
  split; [cbn [stripped Generator.eval Generator.ups];
          rewrite length_map; exact HLu|].
  split; [cbn [stripped Generator.eval Generator.resblocks];
          rewrite length_map; exact HLb|].
  split; [reflexivity|].
  split; [reflexivity|].
  intros path hp Hhp Hck.
  pose proof (export_runs ext path model_path data h cp_dict sd G0 G1 hp
                Hck Hjson Hinit Hsd Hload w Hhp Hcfg Hckpt) as Hex.
  cbv zeta in Hex.
  set (V := {| device := if cuda_is_available ext then "cuda" else "cpu";
               generator := stripped (Generator.eval G1);
               vocoder_hparams := h |}) in *.
  exists V.
  destruct (trace ext V _ _ _) as [graph|e]; (do 2 eexists);
    (split; [exact Hex|]); split; reflexivity.
Qed.

(** ** [simplify] *)

Section Simplify.

Variables (ext : Externals) (src target : string).
Variables (model : onnx.ModelProto).
Variables (input0 output0 : onnx.ValueInfoProto).
Variables (inputs outputs : list onnx.ValueInfoProto).
Variables (in_dim0 : onnx.Dimension) (dims : list onnx.Dimension).

Hypothesis model_input : onnx.input model = input0 :: inputs.
Hypothesis input_shape : onnx.shape input0 = in_dim0 :: dims.
Hypothesis model_output : onnx.output model = output0 :: outputs.

Let fixed : onnx.ModelProto := fixed_model model output0 outputs in_dim0.
Let fix_line : string :=
  String.append "Fix output: '" (String.append (onnx.name output0) "'").

Lemma simplify_runs (w : World) :
  files w src = Some (OnnxFile model) ->
  simplify ext src target w =
    if snd (simplify_model ext fixed true) then
      (Ok tt,
       {| files := with_file w target (OnnxFile (fst (simplify_model ext fixed true)));
          stdout := stdout w ++ [fix_line];
          argv := argv w;
          hparams := hparams w;
          calls := calls w ++ [onnx_load src;
                               onnxsim_simplify fixed true;
                               onnx_save (fst (simplify_model ext fixed true)) target] |})
    else
      (Raise (AssertionError not_validated),
       {| files := files w;
          stdout := stdout w ++ [fix_line];
          argv := argv w;
          hparams := hparams w;
          calls := calls w ++ [onnx_load src; onnxsim_simplify fixed true] |}).
Proof.
  intros Hsrc. unfold simplify.
  unfold bind at 1. unfold record at 1.
  unfold bind at 1. unfold read at 1. cbn [files]. rewrite Hsrc.
  unfold bind at 1. unfold ret at 1.
  unfold bind at 1. unfold lift at 1. rewrite model_input. cbn [lookup nth_error].
  unfold bind at 1. unfold lift at 1. rewrite model_output. cbn [lookup nth_error].
  unfold bind at 1. unfold lift at 1. rewrite input_shape. cbn [lookup nth_error].
  unfold bind at 1. unfold lift at 1.
  cbn [onnx.with_output onnx.output tl lookup nth_error onnx.make_value_info
       onnx.name].
  unfold bind at 1. unfold print at 1.
  unfold bind at 1. unfold record at 1.
  cbn [files stdout argv hparams calls].
  change (onnx.with_output model
            (onnx.make_value_info (onnx.name output0) onnx.FLOAT
               [onnx.Value (onnx.dim_value in_dim0); onnx.Param "n_samples"]
             :: outputs))
    with fixed.
  fold fix_line.
  destruct (simplify_model ext fixed true) as [simplified check].
  cbn [fst snd]. rewrite <- !app_assoc. cbn [app].
  destruct check.
  - unfold bind at 1. unfold ret at 1.
    unfold bind at 1. unfold record at 1. unfold write.
    cbn [files stdout argv hparams calls].
    rewrite <- ?app_assoc. reflexivity.
  - unfold bind at 1. unfold raise at 1. reflexivity.
Qed.

End Simplify.

(** C7: [simplify] validates the simplified graph.  The simplifier is run
    with include_subgraph=True on the model whose first output has been
    replaced (same name, FLOAT, shape (batch dimension of the first
    input, 'n_samples')); when its check fails, [simplify] raises the
    assertion error 'Simplified ONNX model could not be validated' and
    writes no file; the simplified model is saved to [target] exactly
    when the check succeeds. *)
Theorem simplify_saves_iff_validated
    (ext : Externals) (src target : string) (model : onnx.ModelProto)
    (input0 output0 : onnx.ValueInfoProto)
    (inputs outputs : list onnx.ValueInfoProto)
    (in_dim0 : onnx.Dimension) (dims : list onnx.Dimension) (w : World) :
  files w src = Some (OnnxFile model) ->
  onnx.input model = input0 :: inputs ->
  onnx.shape input0 = in_dim0 :: dims ->
  onnx.output model = output0 :: outputs ->
  let fixed := fixed_model model output0 outputs in_dim0 in
  let simplified := fst (simplify_model ext fixed true) in
  let check := snd (simplify_model ext fixed true) in
  exists (r : Result unit) (w' : World),
    simplify ext src target w = (r, w')
    /\ onnx.name (hd output0 (onnx.output fixed)) = onnx.name output0
    /\ onnx.elem_type (hd output0 (onnx.output fixed)) = onnx.FLOAT
    /\ onnx.shape (hd output0 (onnx.output fixed))
       = [onnx.Value (onnx.dim_value in_dim0); onnx.Param "n_samples"]
    /\ In (onnxsim_simplify fixed true) (calls w')
    /\ (check = false ->
          r = Raise (AssertionError "Simplified ONNX model could not be validated")
          /\ files w' = files w
          /\ calls w' = calls w ++ [onnx_load src; onnxsim_simplify fixed true])
    /\ (check = true ->
          r = Ok tt
          /\ files w' target = Some (OnnxFile simplified)
          /\ (forall p, p <> target -> files w' p = files w p)
          /\ calls w' = calls w ++ [onnx_load src;
                                    onnxsim_simplify fixed true;
                                    onnx_save simplified target])
    /\ (r = Ok tt <-> check = true).
Proof.
  intros Hsrc Hin Hshape Hout fixed simplified check.
  pose proof (simplify_runs ext src target model input0 output0 inputs outputs
                in_dim0 dims Hin Hshape Hout w Hsrc) as Hrun.
  cbv zeta in Hrun. fold fixed in Hrun. fold check in Hrun.
  fold simplified in Hrun.
  destruct check eqn:Echeck; (do 2 eexists); (split; [exact Hrun|]);
    cbn [files calls];
    (split; [reflexivity|]); (split; [reflexivity|]); (split; [reflexivity|]).
  - split; [apply in_or_app; right; simpl; auto|].
    split; [discriminate|]. split; [|tauto].
    intros _. split; [reflexivity|]. split.
    + unfold with_file. rewrite String.eqb_refl. reflexivity.
    + split; [|reflexivity]. intros p Hp. unfold with_file.
      destruct (String.eqb_spec p target); [contradiction | reflexivity].
  - split; [apply in_or_app; right; simpl; auto|].
    split; [|split; [discriminate | split; discriminate]].
    intros _. repeat split; reflexivity.
Qed.

(** ** The script *)

(** C8: the script exports, then simplifies in place.  With the
    configuration and the checkpoint in place and a traced graph that has
    an input dimension and an output, the run first calls
    [torch.onnx.export] on 'onnx/assets/nsf_hifigan.onnx' (opset 11,
    inputs 'mel' and 'f0' with the dynamic axis 'n_frames' on
    dimension 1, output 'waveform') and only then [simplify], which
    loads that same file and, when the check succeeds, saves the
    simplified model over it. *)
Theorem main_exports_then_simplifies
    (ext : Externals) (w : World) (hp : string -> option string)
    (ckpt data : string) (h : AttrDict) (cp_dict : string -> option StateDict)
    (sd : StateDict) (G0 G1 : Generator.t) (graph : onnx.ModelProto)
    (input0 output0 : onnx.ValueInfoProto)
    (inputs outputs : list onnx.ValueInfoProto)
    (in_dim0 : onnx.Dimension) (dims : list onnx.Dimension) :
  let V : NsfHiFiGAN.t :=
    {| device := if cuda_is_available ext then "cuda" else "cpu";
       generator := stripped (Generator.eval G1);
       vocoder_hparams := h |} in
  let fixed := fixed_model graph output0 outputs in_dim0 in
  let simplified := fst (simplify_model ext fixed true) in
  let check := snd (simplify_model ext fixed true) in
  read_hparams ext
    ["inference/svs/ds_e2e.py"; "--config";
     "configs/midi/cascade/opencs/test.yaml"] (files w) = Ok hp ->
  hp "vocoder_ckpt" = Some ckpt ->
  files w (os_path_join ext (fst (os_path_split ext ckpt)) "config.json")
    = Some (TextFile data) ->
  json_loads ext data = Ok h ->
  Generator.__init__ (nn ext) h = Ok G0 ->
  files w ckpt = Some (CheckpointFile cp_dict) ->
  cp_dict "generator" = Some sd ->
  Generator.load_state_dict G0 sd = Ok G1 ->
  trace ext V (export_mel ext 10) (export_f0 ext 10) export_options = Ok graph ->
  onnx.input graph = input0 :: inputs ->
  onnx.shape input0 = in_dim0 :: dims ->
  onnx.output graph = output0 :: outputs ->
  exists (r : Result unit) (w' : World) (rest : list Call),
    main ext w = (r, w')
    /\ calls w' =
         calls w ++ [torch_load ckpt;
                     torch_onnx_export V "onnx/assets/nsf_hifigan.onnx"
                       export_options;
                     onnx_load "onnx/assets/nsf_hifigan.onnx";
                     onnxsim_simplify fixed true] ++ rest
    /\ opset_version export_options = 11%nat
    /\ input_names export_options = ["mel"; "f0"]
    /\ output_names export_options = ["waveform"]
    /\ dynamic_axes export_options =
         [("mel", [(1%nat, "n_frames")]); ("f0", [(1%nat, "n_frames")])]
    /\ (check = true ->
          r = Ok tt
          /\ rest = [onnx_save simplified "onnx/assets/nsf_hifigan.onnx"]
          /\ files w' "onnx/assets/nsf_hifigan.onnx" = Some (OnnxFile simplified))
    /\ (check = false ->
          r = Raise (AssertionError not_validated)
          /\ rest = []
          /\ files w' "onnx/assets/nsf_hifigan.onnx" = Some (OnnxFile graph)).
Proof.
  intros V fixed simplified check Hhp Hck Hcfg Hjson Hinit Hckpt Hsd Hload
    Htrace Hin Hshape Hout.
  set (path := "onnx/assets/nsf_hifigan.onnx") in *.
  unfold main. unfold bind at 1. unfold bind at 1.
  rewrite (export_runs ext path ckpt data h cp_dict sd G0 G1 hp Hck Hjson Hinit
             Hsd Hload)
    by (cbn [files argv]; assumption).
  cbv zeta. fold V. rewrite Htrace.
  rewrite (simplify_runs ext path path graph input0 output0 inputs outputs
             in_dim0 dims Hin Hshape Hout)
    by (cbn [files]; unfold with_file; rewrite String.eqb_refl; reflexivity).
  cbv zeta. fold fixed. fold check. fold simplified.
  cbn [files stdout argv hparams calls].
  destruct check.
  - exists (Ok tt). eexists. exists [onnx_save simplified path].
    split; [reflexivity|]. cbn [calls].
    split; [rewrite <- !app_assoc; reflexivity|].
    repeat (split; [reflexivity|]).
    split; [|discriminate].
    intros _. repeat split.
  - exists (Raise (AssertionError not_validated)). eexists. exists [].
    split; [reflexivity|]. cbn [calls].
    split; [rewrite <- !app_assoc; reflexivity|].
    repeat (split; [reflexivity|]).
    split; [discriminate|].
    intros _. repeat split.
Qed.

(** ** The binary32 reading on concrete inputs *)

Lemma exp_16_large : 65536 < exp 16.
Proof.
  assert (H1 : 2 < exp 1) by (pose proof (exp_ineq1 1); lra).
  assert (H2 : 4 < exp 2).
  { replace 2 with (1 + 1) by ring. rewrite exp_plus. nra. }
  assert (H4 : 16 < exp 4).
  { replace 4 with (2 + 2) by ring. rewrite exp_plus. nra. }
  assert (H8 : 256 < exp 8).
  { replace 8 with (4 + 4) by ring. rewrite exp_plus. nra. }
  replace 16 with (8 + 8) by ring. rewrite exp_plus. nra.
Qed.

Lemma tanh_16_range : 1 - / 67108864 < tanh 16 < 1.
Proof.
  pose proof exp_16_large as Ha.
  pose proof (exp_pos (Ropp 16)) as Hb.
  assert (Hab : exp 16 * exp (Ropp 16) = 1).
  { rewrite <- exp_plus. replace (16 + Ropp 16) with 0 by ring. apply exp_0. }
  unfold tanh, sinh, cosh.
  set (a := exp 16) in *. set (b := exp (Ropp 16)) in *.
  replace ((a - b) / 2 / ((a + b) / 2)) with ((a - b) / (a + b)) by (field; lra).
  assert (Hpos : 0 < a + b) by lra.
  assert (Hq : (a - b) / (a + b) * (a + b) = a - b) by (field; lra).
  split.
  - apply (Rmult_lt_reg_r (a + b)); [exact Hpos|]. rewrite Hq. nra.
  - apply (Rmult_lt_reg_r (a + b)); [exact Hpos|]. rewrite Hq. lra.
Qed.

Lemma f32_round_below_one (y : R) :
  1 - / 67108864 < y < 1 -> f32.round y = f32.one.
Proof.
  intros [Hlo Hhi].
  assert (Hy : / 2 <= y) by lra.
  unfold f32.round.
  destruct (Req_dec_T y 0) as [E|_]; [lra|].
  assert (Hmag : f32.mag y = 0%Z).
  { unfold f32.mag. rewrite Rabs_pos_eq by lra.
    rewrite (Int_part_of _ (-1)); [reflexivity|].
    pose proof ln_lt_2 as Hln2.
    assert (Hl1 : ln y < 0) by (rewrite <- ln_1; apply ln_increasing; lra).
    assert (Hl2 : - ln 2 <= ln y).
    { rewrite <- ln_Rinv by lra.
      destruct (Req_dec (/ 2) y) as [<-|Hne]; [lra|].
      left. apply ln_increasing; lra. }
    assert (Hpos : 0 < ln 2) by lra.
    assert (Hq : ln y / ln 2 * ln 2 = ln y) by (field; lra).
    split.
    - apply (Rmult_le_reg_r (ln 2)); [exact Hpos|]. rewrite Hq. lra.
    - apply (Rmult_lt_reg_r (ln 2)); [exact Hpos|]. rewrite Hq. lra. }
  rewrite Hmag.
  change (fexp f32.prec f32.emax 0) with (-24)%Z.
  change (- -24)%Z with 24%Z.
  rewrite Rabs_pos_eq by lra.
  assert (Hp : powerRZ 2 24 = 16777216) by (simpl; lra).
  rewrite Hp.
  assert (Hrne : f32.rne (y * 16777216) = 16777216%Z).
  { unfold f32.rne.
    rewrite (Int_part_of _ 16777215) by lra.
    destruct (Rlt_dec _ _) as [H|_]; [lra|].
    destruct (Rlt_dec _ _) as [_|H]; [reflexivity | lra]. }
  rewrite Hrne.
  destruct (Rlt_dec y 0); [lra|].
  reflexivity.
Qed.

Lemma tanh_finite_sixteen : f32.tanh_finite example_sixteen = f32.one.
Proof.
  unfold f32.tanh_finite.
  replace (f32.to_R example_sixteen) with 16.
  - apply f32_round_below_one, tanh_16_range.
  - assert (E : example_sixteen = S754_finite false 8388608 (-19))
      by (vm_compute; reflexivity).
    rewrite E. unfold f32.to_R, cond_Zopp, powerRZ. simpl. lra.
Qed.

(** The harmonic structure is the same over binary32: component k of the
    frequency is the product of f0 and k, rounded once, and the source
    is [tanh] of the linear layer applied to the waves of the sine
    generator. *)
Lemma SineGen32_fn_harmonics (self : SineGen32.t) (f0 : torch32.Vector)
    (t k : nat) :
  (t < length f0)%nat ->
  (1 <= k <= SineGen32.harmonic_num self + 1)%nat ->
  torch32.entry (SineGen32.fn self f0) t (k - 1)
  = f32.mul (nth t f0 f32.nan) (f32.of_Z (Z.of_nat k)).
Proof.
  intros Ht Hk. unfold torch32.entry, SineGen32.fn, SineGen32.harmonics.
  rewrite (nth_map_in _ f0 t f32.nan []) by exact Ht.
  rewrite map_map.
  rewrite (nth_map_in _ (seq 1 (SineGen32.harmonic_num self + 1)) (k - 1)
             0%nat S754_nan) by (rewrite length_seq; lia).
  rewrite seq_nth by lia.
  replace (1 + (k - 1))%nat with k by lia. reflexivity.
Qed.

Lemma SourceModuleHnNSF32_forward_merges (self : SourceModuleHnNSF32.t)
    (rng : Draws32) (x : torch32.Vector)
    (sine_merge : torch32.Matrix) (noise uv : torch32.Vector) :
  SourceModuleHnNSF32.forward self rng x = Ok (sine_merge, noise, uv) ->
  exists (sine_wavs noise0 lin : torch32.Matrix),
    SineGen32.forward (SourceModuleHnNSF32.l_sin_gen self)
      (rand_ini32 rng) (randn_sine32 rng) x = Ok (sine_wavs, uv, noise0)
    /\ SourceModuleHnNSF32.l_linear self sine_wavs = Ok lin
    /\ sine_merge = torch32.mmap f32.tanh lin.
Proof.
  unfold SourceModuleHnNSF32.forward.
  destruct (SineGen32.forward _ _ _ x) as [[[sine_wavs uv0] noise0]|e];
    cbn [rbind]; [|discriminate].
  destruct (SourceModuleHnNSF32.l_linear self sine_wavs) as [lin|e] eqn:El;
    cbn [rbind]; [|discriminate].
  intros E. injection E as <- <- <-.
  exists sine_wavs, noise0, lin.
  split; [reflexivity|]. split; [exact El | reflexivity].
Qed.


(** C4 over binary32: on the f0 of two steps 2^127 and 0, the second
    step is unvoiced ([uv] is 0 there) and the noise of the first
    overtone is the finite value (0.1/3) * 1, yet the returned
    excitation of this overtone is NaN: the frequency 2 * 2^127 is
    infinite, its phase is NaN from the first step on, and NaN * 0 is
    NaN. *)
Lemma SineGen32_forward_unvoiced_is_not_noise :
  exists (sine_waves : torch32.Matrix) (uv : torch32.Vector)
         (noise : torch32.Matrix),
    SineGen32.forward example_sinegen32_9 example_u32 example_g32
      example_f0_large = Ok (sine_waves, uv, noise)
    /\ f32.ltb f32.zero (nth 1 example_f0_large f32.nan) = false
    /\ nth 1 uv f32.nan = f32.zero
    /\ torch32.entry noise 1 1 = S754_finite false 8947849 (-28)
    /\ torch32.entry sine_waves 1 1 = f32.nan
    /\ torch32.entry sine_waves 1 1 <> torch32.entry noise 1 1.
Proof.
  do 3 eexists.
  split; [reflexivity|].
  split; [reflexivity|].
  split; [lazy; reflexivity|].
  split; [lazy; reflexivity|].
  split; [lazy; reflexivity|].
  lazy. discriminate.
Qed.

(** The same on an f0 with a NaN: every later step returns NaN, voiced
    or not. *)
Example SineGen32_forward_after_nan :
  exists (sine_waves : torch32.Matrix) (uv : torch32.Vector)
         (noise : torch32.Matrix),
    SineGen32.forward example_sinegen32_9 example_u32 example_g32
      example_f0_nan = Ok (sine_waves, uv, noise)
    /\ nth 2 uv f32.nan = f32.zero
    /\ torch32.entry noise 2 0 = S754_finite false 8947849 (-28)
    /\ torch32.entry sine_waves 2 0 = f32.nan.
Proof.
  do 3 eexists.
  split; [reflexivity|].
  split; [lazy; reflexivity|].
  split; lazy; reflexivity.
Qed.

(** C9 over binary32: with a [conv_post] that returns 16 everywhere, the
    four samples of the waveform are [tanh 16] rounded to binary32,
    which is 1. *)
Lemma Generator32_forward_sample_is_one :
  exists wav : Squeezed spec_float,
    Generator32.forward example_generator32 example_rng32 example_mel32
      [[f32.zero; f32.zero]] = Ok wav
    /\ samples wav = [f32.one; f32.one; f32.one; f32.one]
    /\ f32.to_R f32.one = 1
    /\ Forall (fun s => f32.ltb s f32.one = false) (samples wav).
Proof.
  assert (E : Generator32.forward example_generator32 example_rng32
                example_mel32 [[f32.zero; f32.zero]]
              = Ok (Dropped 1 4 [repeat (f32.tanh_finite example_sixteen) 4])).
  { cbv -[f32.sin_finite f32.tanh_finite]. reflexivity. }
  rewrite tanh_finite_sixteen in E.
  eexists. split; [exact E|].
  split; [reflexivity|].
  split; [vm_compute; lra|].
  repeat constructor.
Qed.

(** ** The properties on the concrete inputs *)

Lemma example_f0_values_shape : has_shape 2 2 example_f0_values.
Proof. split; [reflexivity | repeat constructor]. Qed.

Lemma example_f0_values_nonneg (t d : nat) :
  (t < 2)%nat -> (d < 2)%nat -> 0 <= entry example_f0_values t d.
Proof.
  intros Ht Hd.
  destruct t as [|[|t]]; destruct d as [|[|d]]; try lia;
    unfold entry, example_f0_values; simpl; lra.
Qed.

(** C1 on the example: the corrected and the uncorrected phase give the
    same sines. *)
Lemma SineGen_f02sine_matches_naive_phase_witness :
  exists sines : Matrix,
    SineGen._f02sine example_sinegen example_u example_f0_values = Ok sines
    /\ SineGen.naive_sines example_sinegen example_u example_f0_values = Ok sines.
Proof.
  destruct (SineGen_f02sine_matches_naive_phase 4 1 0.1 0.003 0 example_u 2
              example_f0_values (le_n 2) example_f0_values_shape)
    as [rad [shift [sines [_ [_ [H1 [H2 _]]]]]]].
  exists sines. split; [exact H1 | exact H2].
Defined.


(** C3 on the example: the filter returns the row of differences. *)
Lemma SineGen_diff_is_first_difference_witness :
  exists Y : Matrix,
    (conv <- Conv2d (SineGen.diff example_sinegen) (unsqueeze1 example_f0_values) ;;
     squeeze1 conv) = Ok Y
    /\ entry Y 0 0 = 3 - 1
    /\ entry Y 0 1 = 6 - 2.
Proof.
  destruct (SineGen_diff_is_first_difference 4 1 0.1 0.003 0 2
              example_f0_values (le_n 2) example_f0_values_shape)
    as [Y [H1 [_ [H2 _]]]].
  exists Y. split; [exact H1|].
  split; [apply (H2 0%nat 0%nat) | apply (H2 0%nat 1%nat)]; simpl; lia.
Defined.

(** C4 on the example: the middle step of [example_f0] is unvoiced. *)
Lemma SineGen_forward_voicing_witness :
  exists (sine_waves : Matrix) (uv : Vector) (noise : Matrix),
    SineGen.forward example_sinegen example_u example_g example_f0
      = Ok (sine_waves, uv, noise)
    /\ nth 0 uv 0 = 1
    /\ nth 1 uv 0 = 0
    /\ entry sine_waves 1 0 = entry noise 1 0
    /\ entry noise 1 0 = 0.1 / 3 * 1
    /\ entry noise 0 0 = 0.003 * 1.
Proof.
  destruct (SineGen_forward_voicing 4 1 0.1 0.003 0 example_u example_g
              example_f0)
    as [sines [sine_waves [uv [noise [_ [H1 [_ H2]]]]]]].
  - simpl; lia.
  - exists sine_waves, uv, noise. split; [exact H1|].
    destruct (H2 0%nat) as [V0 [_ E0]]; [simpl; lia|].
    destruct (H2 1%nat) as [_ [U1 E1]]; [simpl; lia|].
    destruct (E0 0%nat) as [_ [N0 _]]; [simpl; lia|].
    destruct (E1 0%nat) as [_ [_ N1]]; [simpl; lia|].
    assert (Hv : nth 0 example_f0 0 > 0) by (simpl; lra).
    assert (Hu : ~ nth 1 example_f0 0 > 0) by (simpl; lra).
    destruct (N1 Hu) as [N1a [_ N1c]].
    repeat split.
    + apply V0, Hv.
    + apply U1, Hu.
    + exact N1c.
    + exact N1a.
    + exact (N0 Hv).
Defined.

Lemma example_init :
  Generator.__init__ example_nn example_h = Ok example_generator0.
Proof. reflexivity. Qed.

Lemma example_load_state_dict :
  Generator.load_state_dict example_generator0 example_state_dict
  = Ok example_generator1.
Proof. reflexivity. Qed.


(** C6 on the example world. *)
Lemma load_model_removes_weight_norm_witness :
  exists (G : Generator.t) (w' : World),
    load_model example_ext "checkpoints/model" "cpu" example_world
      = (Ok (G, example_h), w')
    /\ Generator.history G
       = [called_load_state_dict; called_eval; called_remove_weight_norm]
    /\ Generator.conv_pre G = stripped_layer (Generator.conv_pre example_generator1)
    /\ Generator.no_weight_norm G
    /\ Generator.training G = false.
Proof.
  destruct (load_model_removes_weight_norm example_ext "checkpoints/model" "cpu"
              "{}" example_h example_cp_dict example_state_dict
              example_generator0 example_generator1 example_world)
    as [G [w' [H1 [_ [H2 [_ [_ [_ [H3 [_ [H4 [H5 _]]]]]]]]]]]].
  - reflexivity.
  - reflexivity.
  - reflexivity.
  - reflexivity.
  - reflexivity.
  - reflexivity.
  - exists G, w'. split; [exact H1|]. split; [exact H2|].
    split; [exact H3|]. split; [exact H5 | exact H4].
Defined.

(** C7 on the example world: the check of the stand-in simplifier
    succeeds, and the target holds the rewritten model. *)
Lemma simplify_saves_iff_validated_witness :
  exists w' : World,
    simplify example_ext "a.onnx" "b.onnx" example_world = (Ok tt, w')
    /\ files w' "b.onnx"
       = Some (OnnxFile
                 (fixed_model example_graph example_waveform_info []
                    (onnx.Value 1))).
Proof.
  destruct (simplify_saves_iff_validated example_ext "a.onnx" "b.onnx"
              example_graph
              example_mel_info example_waveform_info [example_f0_info] []
              (onnx.Value 1) [onnx.Param "n_frames"; onnx.Value 128]
              example_world)
    as [r [w' [H1 [_ [_ [_ [_ [_ [H2 _]]]]]]]]].
  - reflexivity.
  - reflexivity.
  - reflexivity.
  - reflexivity.
  - destruct (H2 eq_refl) as [-> [H3 _]].
    exists w'. split; [exact H1 | exact H3].
Defined.

(** C8 on the example world: the calls of a whole run, in order. *)
Lemma main_exports_then_simplifies_witness :
  exists (V : NsfHiFiGAN.t) (m m' : onnx.ModelProto) (w' : World),
    main example_ext example_world = (Ok tt, w')
    /\ calls w' =
         [torch_load "checkpoints/model";
          torch_onnx_export V "onnx/assets/nsf_hifigan.onnx" export_options;
          onnx_load "onnx/assets/nsf_hifigan.onnx";
          onnxsim_simplify m true;
          onnx_save m' "onnx/assets/nsf_hifigan.onnx"]
    /\ files w' "onnx/assets/nsf_hifigan.onnx" = Some (OnnxFile m').
Proof.
  destruct (main_exports_then_simplifies example_ext example_world
              example_hparams "checkpoints/model" "{}" example_h
              example_cp_dict example_state_dict
              example_generator0 example_generator1 example_graph
              example_mel_info example_waveform_info [example_f0_info] []
              (onnx.Value 1) [onnx.Param "n_frames"; onnx.Value 128])
    as [r [w' [rest [H1 [H2 [_ [_ [_ [_ [H3 _]]]]]]]]]];
    try reflexivity.
  destruct (H3 eq_refl) as [-> [-> H4]].
  do 3 eexists. exists w'.
  split; [exact H1|]. split; [exact H2 | exact H4].
Defined.

(** C10 on the example: the transposed and scaled mel input. *)
Lemma NsfHiFiGAN_forward_mel_preprocessing_witness :
  exists mel' : Tensor3,
    NsfHiFiGAN.forward example_vocoder example_rng example_mel [[1; 1]]
    = Generator.forward example_generator example_rng mel' [[1; 1]]
    /\ entry3 mel' 0 1 0 = 2 * 2.30259.
Proof.
  destruct (NsfHiFiGAN_forward_mel_preprocessing example_vocoder example_rng
              example_mel [[1; 1]])
    as [mel' [H1 [_ [_ [_ [_ H2]]]]]].
  - split; [reflexivity|]. repeat constructor.
  - exists mel'. split; [exact H1|].
    apply (H2 0%nat 1%nat 0%nat); simpl; lia.
Defined.

(** C9 on the example: the generator and the wrapper return the same
    waveform of one row of four samples, and its samples lie strictly
    between -1 and 1. *)
Lemma forward_waveform_within_unit_interval_witness :
  exists (post : Tensor3) (wav : Squeezed R),
    wav = squeeze1_3d (tmap tanh post)
    /\ sizes post = (1%nat, 1%nat, 4%nat)
    /\ Generator.forward example_generator example_rng
         (scale 2.30259 (transpose_2_1 example_mel)) [[220; 220]] = Ok wav
    /\ NsfHiFiGAN.forward example_vocoder example_rng example_mel [[220; 220]]
       = Ok wav
    /\ Forall (fun s => -1 < s < 1) (samples wav).
Proof.
  destruct (forward_waveform_within_unit_interval example_vocoder example_rng
              example_mel [220; 220] [220; 220; 220; 220]
              (scale 2.30259 (transpose_2_1 example_mel)) 1
              example_channels example_lengths
              44100 8 0.1 0.003 0
              (Linear_weight example_nn 9 1) (Linear_bias example_nn 9 1))
    as [[post [wav [H1 [H2 [H3 [H4 H5]]]]]] _].
  - reflexivity.
  - reflexivity.
  - simpl; lia.
  - reflexivity.
  - reflexivity.
  - exact (example_generator_fits 1).
  - exists post, wav. split; [exact H1|]. split; [exact H2|].
    split; [exact H3|]. split; [exact H4 | exact H5].
Defined.
(** * Further properties of the code *)

(** ** [SineGen._f02sine]: where it returns *)

Section SineGenDomain.

Variables (samp_rate : R) (harmonic_num : nat).
Variables (sine_amp noise_std voiced_threshold : R).

Let self : SineGen.t :=
  SineGen.__init__ samp_rate harmonic_num sine_amp noise_std voiced_threshold.
Let D : nat := SineGen.dim self.

Lemma f02sine_no_time_step (u : nat -> R) :
  SineGen._f02sine self u [] = Raise IndexError.
Proof.
  unfold SineGen._f02sine, SineGen.phase, SineGen.rad_values.
  cbn [SineGen.dim self SineGen.__init__]. unfold rand.
  replace (harmonic_num + 1)%nat with (S harmonic_num) by lia.
  reflexivity.
Qed.

Lemma f02sine_one_time_step (u : nat -> R) (row : Vector) :
  length row = D ->
  SineGen._f02sine self u [row] = Raise RuntimeError.
Proof.
  intros Hrow.
  assert (HX : has_shape 1 D [row]) by (split; [reflexivity | repeat constructor; exact Hrow]).
  destruct (rad_values_ok samp_rate harmonic_num sine_amp noise_std
              voiced_threshold u 1 [row] (le_n 1) HX) as [rad [Erad [Hrad _]]].
  fold self in Erad.
  unfold SineGen._f02sine, SineGen.phase. rewrite Erad. cbn [rbind].
  destruct rad as [|r [|r' rad]];
    try (destruct Hrad as [Hlen _]; simpl in Hlen; discriminate).
  reflexivity.
Qed.

(** X1: on a tensor of shape (1, L, dim), [_f02sine] returns exactly when
    there are at least two time steps; with none it raises IndexError
    (the first time step is indexed), with one it raises RuntimeError
    (the kernel of the difference filter is larger than its input). *)
Theorem f02sine_returns_iff_two_steps
    (u : nat -> R) (L : nat) (f0_values : Matrix) :
  has_shape L (SineGen.dim self) f0_values ->
  ((2 <= L)%nat <-> exists sines, SineGen._f02sine self u f0_values = Ok sines)
  /\ (L = 0%nat -> SineGen._f02sine self u f0_values = Raise IndexError)
  /\ (L = 1%nat -> SineGen._f02sine self u f0_values = Raise RuntimeError).
Proof.
  intros HX. fold D in HX.
  assert (H0 : L = 0%nat -> SineGen._f02sine self u f0_values = Raise IndexError).
  { intros ->. destruct f0_values; [apply f02sine_no_time_step|].
    destruct HX as [Hlen _]; discriminate. }
  assert (H1 : L = 1%nat -> SineGen._f02sine self u f0_values = Raise RuntimeError).
  { intros ->. destruct f0_values as [|row [|row' X]];
      try (destruct HX as [Hlen _]; simpl in Hlen; discriminate).
    apply f02sine_one_time_step.
    apply (has_shape_row 1 D [row] 0 HX). lia. }
  split; [|split; assumption].
  split.
  - intros HL.
    destruct (f02sine_returns samp_rate harmonic_num sine_amp noise_std
                voiced_threshold u L f0_values HL HX)
      as [rad [shift [_ [_ [_ [_ [E _]]]]]]].
    eexists. exact E.
  - intros [sines E].
    destruct L as [|[|L]]; [| |lia].
    + rewrite H0 in E by reflexivity. discriminate.
    + rewrite H1 in E by reflexivity. discriminate.
Qed.

(** X2: the stored filter is [torch.diff] only from two time steps on: on
    a tensor with one time step [torch.diff] returns the empty tensor,
    and the Conv2d raises, its kernel being larger than its input. *)
Theorem diff_filter_raises_on_one_step (X : Matrix) :
  length X = 1%nat ->
  Conv2d (SineGen.diff self) (unsqueeze1 X) = Raise RuntimeError
  /\ torch.diff X = [].
Proof.
  intros HL. destruct X as [|row [|row' X]]; try discriminate.
  split; reflexivity.
Qed.

End SineGenDomain.

Lemma f02sine_returns_iff_two_steps_witness :
  (exists sines, SineGen._f02sine example_sinegen example_u example_f0_values = Ok sines)
  /\ SineGen._f02sine example_sinegen example_u [[1; 2]] = Raise RuntimeError.
Proof.
  split.
  - apply (proj1 (f02sine_returns_iff_two_steps 4 1 0.1 0.003 0 example_u 2
                    example_f0_values example_f0_values_shape)).
    lia.
  - apply (f02sine_returns_iff_two_steps 4 1 0.1 0.003 0 example_u 1 [[1; 2]]).
    + split; [reflexivity | repeat constructor].
    + reflexivity.
Defined.

Lemma diff_filter_raises_on_one_step_witness :
  Conv2d (SineGen.diff example_sinegen) (unsqueeze1 [[1; 2]]) = Raise RuntimeError
  /\ torch.diff [[1; 2]] = [].
Proof.
  apply (diff_filter_raises_on_one_step 4 1 0.1 0.003 0 [[1; 2]]).
  reflexivity.
Defined.

(** ** [SineGen._f02sine]: what the sines are *)

Lemma fmod_1_whole (x : R) : exists k : Z, fmod x 1 = x - IZR k.
Proof. exists (trunc (x / 1)). unfold fmod. ring. Qed.

Lemma psum_offset (r a : nat -> R) (c : R) (t : nat) :
  (forall i, (i <= t)%nat ->
     exists k : Z, r i = a i - IZR k + (if (i =? 0)%nat then c else 0)) ->
  exists K : Z, psum r t = psum a t + c - IZR K.
Proof.
  induction t as [|t IH]; intros Hr.
  - destruct (Hr 0%nat (le_n 0)) as [k Hk]. exists k. simpl in *. lra.
  - destruct IH as [K HK]; [intros i Hi; apply Hr; lia|].
    destruct (Hr (S t) (le_n _)) as [k Hk]. cbn [Nat.eqb] in Hk.
    exists (K + k)%Z. cbn [psum]. rewrite HK, Hk, plus_IZR. ring.
Qed.

Section SineGenPhase.

Variables (samp_rate : R) (harmonic_num : nat).
Variables (sine_amp noise_std voiced_threshold : R).

Let self : SineGen.t :=
  SineGen.__init__ samp_rate harmonic_num sine_amp noise_std voiced_threshold.
Let D : nat := SineGen.dim self.

(** Every returned sine is the sine of the summed frequency, in turns,
    plus the initial phase of its channel. *)
Lemma f02sine_entry (u : nat -> R) (L : nat) (f0_values : Matrix) :
  (2 <= L)%nat -> has_shape L D f0_values ->
  exists sines : Matrix,
    SineGen._f02sine self u f0_values = Ok sines
    /\ has_shape L D sines
    /\ forall t d, (t < L)%nat -> (d < D)%nat ->
         entry sines t d =
           sin ((psum (fun i => entry f0_values i d / samp_rate) t
                 + (if (d =? 0)%nat then 0 else u d)) * (2 * PI)).
Proof.
  intros HL HX.
  destruct (f02sine_returns samp_rate harmonic_num sine_amp noise_std
              voiced_threshold u L f0_values HL HX)
    as [rad [shift [Erad [Hrad [Eshift [Hshift [E Hs]]]]]]].
  fold self in Erad, Eshift, E. fold D in Hrad, Hshift, Hs.
  destruct (rad_values_ok samp_rate harmonic_num sine_amp noise_std
              voiced_threshold u L f0_values) as [rad' [Erad' [_ Hent]]];
    [lia | exact HX |].
  fold self in Erad'. rewrite Erad in Erad'. injection Erad' as <-.
  eexists. split; [exact E|]. split; [exact Hs|].
  intros t d Ht Hd.
  rewrite (entry_mmap _ L D)
    by auto using has_shape_cumsum, has_shape_msub.
  destruct (shifted_phase_whole samp_rate harmonic_num sine_amp noise_std
              voiced_threshold L rad shift HL Hrad Eshift t d Ht Hd) as [k ->].
  rewrite (sin_whole_turns samp_rate harmonic_num sine_amp noise_std
             voiced_threshold).
  rewrite (entry_cumsum L D) by auto.
  destruct (psum_offset (fun i => entry rad i d)
              (fun i => entry f0_values i d / samp_rate)
              (if (d =? 0)%nat then 0 else u d) t) as [K ->].
  - intros i Hi. rewrite (Hent i d) by (auto; lia).
    destruct (fmod_1_whole (entry f0_values i d / samp_rate)) as [k' ->].
    exists k'. reflexivity.
  - apply (sin_whole_turns samp_rate harmonic_num sine_amp noise_std
             voiced_threshold).
Qed.

(** X3: the fmod of line 65 and the shift of lines 78-83 drop whole
    turns only.  On every input of at least two time steps the sine
    returned at (t, d) is sin(2*pi * (f0[0,d]/sr + ... + f0[t,d]/sr
    + rand_ini[d])), with rand_ini[0] = 0. *)
Theorem f02sine_is_sine_of_summed_frequency
    (u : nat -> R) (L : nat) (f0_values : Matrix) :
  (2 <= L)%nat ->
  has_shape L (SineGen.dim self) f0_values ->
  exists sines : Matrix,
    SineGen._f02sine self u f0_values = Ok sines
    /\ forall t d, (t < L)%nat -> (d < SineGen.dim self)%nat ->
         entry sines t d =
           sin ((psum (fun i => entry f0_values i d / SineGen.sampling_rate self) t
                 + (if (d =? 0)%nat then 0 else u d)) * (2 * PI)).
Proof.
  intros HL HX.
  destruct (f02sine_entry u L f0_values HL HX) as [sines [E [_ H]]].
  exists sines. split; [exact E | exact H].
Qed.

(** X4: no phase noise for the fundamental component: whatever
    [torch.rand] draws, the sines of channel 0 are the same. *)
Theorem f02sine_fundamental_ignores_draw
    (u u' : nat -> R) (L : nat) (f0_values : Matrix) :
  (2 <= L)%nat ->
  has_shape L (SineGen.dim self) f0_values ->
  exists sines sines' : Matrix,
    SineGen._f02sine self u f0_values = Ok sines
    /\ SineGen._f02sine self u' f0_values = Ok sines'
    /\ forall t, (t < L)%nat -> entry sines t 0 = entry sines' t 0.
Proof.
  intros HL HX.
  destruct (f02sine_entry u L f0_values HL HX) as [sines [E [_ H]]].
  destruct (f02sine_entry u' L f0_values HL HX) as [sines' [E' [_ H']]].
  exists sines, sines'. split; [exact E|]. split; [exact E'|].
  intros t Ht.
  assert (HD : (0 < D)%nat) by (unfold D; simpl; lia).
  rewrite H, H' by auto. reflexivity.
Qed.

(** X5: the phase of the fundamental component is the fractional part of
    the running sum: with a positive sampling rate and a nonnegative
    channel 0 it stays in [0, 1). *)
Theorem fundamental_phase_is_fractional_part
    (u : nat -> R) (L : nat) (f0_values : Matrix) :
  0 < samp_rate ->
  (2 <= L)%nat ->
  has_shape L (SineGen.dim self) f0_values ->
  (forall t, (t < L)%nat -> 0 <= entry f0_values t 0) ->
  exists rad phase : Matrix,
    SineGen.rad_values self u f0_values = Ok rad
    /\ SineGen.phase self u f0_values = Ok phase
    /\ forall t, (t < L)%nat ->
         entry phase t 0 = fmod (entry (cumsum rad) t 0) 1
         /\ 0 <= entry phase t 0 < 1.
Proof.
  intros Hsr HL HX Hpos. fold D in HX.
  assert (HD : (0 < D)%nat) by (unfold D; simpl; lia).
  destruct (rad_values_ok samp_rate harmonic_num sine_amp noise_std
              voiced_threshold u L f0_values) as [rad [Erad [Hrad Hent]]];
    [lia | exact HX |].
  destruct (cumsum_shift_ok samp_rate harmonic_num sine_amp noise_std
              voiced_threshold L rad HL Hrad)
    as [shift [Eshift [Hshift [Hs0 HsS]]]].
  fold self in Erad, Eshift. fold D in Hrad, Hent, Hshift, Hs0, HsS.
  exists rad, (cumsum (msub rad shift)).
  split; [exact Erad|]. split.
  { unfold SineGen.phase. rewrite Erad; cbn [rbind]. rewrite Eshift. reflexivity. }
  assert (Hr : forall t, (t < L)%nat -> 0 <= entry rad t 0 < 1).
  { intros t Ht. rewrite Hent by auto.
    assert (Hq : 0 <= fmod (entry f0_values t 0 / samp_rate) 1 < 1).
    { apply fmod_1_range. unfold Rdiv.
      apply Rmult_le_pos; [auto | left; now apply Rinv_0_lt_compat]. }
    cbn [Nat.eqb]. destruct (t =? 0)%nat; lra. }
  assert (Hphase : forall t, (t < L)%nat ->
            entry (cumsum (msub rad shift)) t 0 = fmod (entry (cumsum rad) t 0) 1).
  { intros t Ht.
    rewrite !(entry_cumsum L D) by auto using has_shape_msub.
    rewrite (psum_ext _ (fun i => entry rad i 0 - entry shift i 0))
      by (intros i Hi; apply (entry_msub L D); auto; lia).
    rewrite (channel_phase samp_rate harmonic_num sine_amp noise_std
               voiced_threshold (fun i => entry rad i 0)
               (fun i => entry shift i 0) L).
    - destruct (Hr 0%nat) as [H1 H2]; [lia|].
      rewrite <- (Int_part_spec (entry rad 0 0) 0) by lra. simpl. ring.
    - destruct (Hr 0%nat); [lia | lra].
    - intros i Hi. apply Hr, Hi.
    - apply Hs0, HD.
    - intros i Hi. rewrite HsS by auto.
      rewrite !(entry_cumsum L D) by (auto; lia). reflexivity.
    - exact Ht. }
  intros t Ht. split; [apply Hphase, Ht|].
  rewrite Hphase by exact Ht.
  apply fmod_1_range. rewrite (entry_cumsum L D) by auto.
  apply (psum_nonneg samp_rate harmonic_num sine_amp noise_std
           voiced_threshold).
  intros i Hi. apply Hr. lia.
Qed.

End SineGenPhase.

Lemma f02sine_is_sine_of_summed_frequency_witness :
  exists sines : Matrix,
    SineGen._f02sine example_sinegen example_u example_f0_values = Ok sines
    /\ entry sines 1 1 = sin ((2 / 4 + 6 / 4 + 1 / 2) * (2 * PI)).
Proof.
  destruct (f02sine_is_sine_of_summed_frequency 4 1 0.1 0.003 0 example_u 2
              example_f0_values (le_n 2) example_f0_values_shape)
    as [sines [E H]].
  exists sines. split; [exact E|].
  apply (H 1%nat 1%nat); simpl; lia.
Defined.

Lemma f02sine_fundamental_ignores_draw_witness :
  exists sines sines' : Matrix,
    SineGen._f02sine example_sinegen example_u example_f0_values = Ok sines
    /\ SineGen._f02sine example_sinegen (fun _ => 0) example_f0_values = Ok sines'
    /\ entry sines 1 0 = entry sines' 1 0.
Proof.
  destruct (f02sine_fundamental_ignores_draw 4 1 0.1 0.003 0 example_u
              (fun _ => 0) 2 example_f0_values (le_n 2) example_f0_values_shape)
    as [sines [sines' [E [E' H]]]].
  exists sines, sines'. split; [exact E|]. split; [exact E'|].
  apply H. lia.
Defined.

Lemma fundamental_phase_is_fractional_part_witness :
  exists phase : Matrix,
    SineGen.phase example_sinegen example_u example_f0_values = Ok phase
    /\ 0 <= entry phase 1 0 < 1.
Proof.
  destruct (fundamental_phase_is_fractional_part 4 1 0.1 0.003 0 example_u 2
              example_f0_values) as [rad [phase [_ [E H]]]].
  - lra.
  - lia.
  - exact example_f0_values_shape.
  - intros t Ht. apply example_f0_values_nonneg; lia.
  - exists phase. split; [exact E|]. apply (H 1%nat). lia.
Defined.

(** ** [SineGen.forward]: shapes and amplitude *)

Lemma has_shape_intro (L D : nat) (Y : Matrix) :
  length Y = L ->
  (forall t, (t < L)%nat -> length (nth t Y []) = D) ->
  has_shape L D Y.
Proof.
  intros HL Hrow. split; [exact HL|].
  apply Forall_forall. intros row Hin.
  destruct (In_nth _ _ [] Hin) as [t [Ht <-]]. apply Hrow. lia.
Qed.

Lemma has_shape_randn_like (g : nat -> nat -> R) (L D : nat) (X : Matrix) :
  has_shape L D X -> has_shape L D (randn_like g X).
Proof.
  intros HX. assert (HL : length X = L) by (destruct HX; auto).
  apply has_shape_intro; unfold randn_like.
  - rewrite zip_with_length, length_seq. lia.
  - intros t Ht.
    rewrite (nth_zip_with _ _ _ t 0%nat [] []) by (rewrite ?length_seq; lia).
    rewrite length_map, length_seq. apply (has_shape_row L D); auto.
Qed.

Lemma has_shape_scale_rows (f : R -> R -> R) (L D : nat) (v : Vector) (X : Matrix) :
  length v = L -> has_shape L D X ->
  has_shape L D (zip_with (fun a row => map (fun z => f a z) row) v X).
Proof.
  intros Hv HX. assert (HL : length X = L) by (destruct HX; auto).
  apply has_shape_intro.
  - rewrite zip_with_length. lia.
  - intros t Ht. rewrite (nth_zip_with _ _ _ t 0 [] []) by lia.
    rewrite length_map. apply (has_shape_row L D); auto.
Qed.

Lemma has_shape_rows_scaled (f : R -> R -> R) (L D : nat) (X : Matrix) (v : Vector) :
  length v = L -> has_shape L D X ->
  has_shape L D (zip_with (fun row a => map (fun x => f x a) row) X v).
Proof.
  intros Hv HX. assert (HL : length X = L) by (destruct HX; auto).
  apply has_shape_intro.
  - rewrite zip_with_length. lia.
  - intros t Ht. rewrite (nth_zip_with _ _ _ t [] 0 []) by lia.
    rewrite length_map. apply (has_shape_row L D); auto.
Qed.

Lemma has_shape_zip_vadd (L D : nat) (A B : Matrix) :
  has_shape L D A -> has_shape L D B -> has_shape L D (zip_with vadd A B).
Proof.
  intros HA HB.
  assert (HLA : length A = L) by (destruct HA; auto).
  assert (HLB : length B = L) by (destruct HB; auto).
  apply has_shape_intro.
  - rewrite zip_with_length. lia.
  - intros t Ht. rewrite (nth_zip_with vadd A B t [] [] []) by lia.
    unfold vadd. rewrite zip_with_length.
    rewrite (has_shape_row L D A), (has_shape_row L D B) by auto. lia.
Qed.

Section SineGenOutput.

Variables (samp_rate : R) (harmonic_num : nat).
Variables (sine_amp noise_std voiced_threshold : R).

Let self : SineGen.t :=
  SineGen.__init__ samp_rate harmonic_num sine_amp noise_std voiced_threshold.
Let D : nat := SineGen.dim self.

(** X6: [forward] returns tensors of the documented shapes: the sine
    waves and the noise have shape (1, L, dim) and uv has L values. *)
Theorem SineGen_forward_shapes
    (u : nat -> R) (g : nat -> nat -> R) (f0 : Vector) :
  (2 <= length f0)%nat ->
  exists (sine_waves : Matrix) (uv : Vector) (noise : Matrix),
    SineGen.forward self u g f0 = Ok (sine_waves, uv, noise)
    /\ has_shape (length f0) (SineGen.dim self) sine_waves
    /\ length uv = length f0
    /\ has_shape (length f0) (SineGen.dim self) noise.
Proof.
  intros HL.
  destruct (forward_sines_ok samp_rate harmonic_num sine_amp noise_std
              voiced_threshold u f0 HL) as [sines [Es Hs]].
  fold self in Es. fold D in Hs |- *.
  unfold SineGen.forward. rewrite Es. cbn [rbind].
  do 3 eexists. split; [reflexivity|].
  assert (Hamp : has_shape (length f0) D
                   (mmap (fun x => x * SineGen.sine_amp self) sines))
    by (apply has_shape_mmap; exact Hs).
  assert (Hnoise : has_shape (length f0) D
            (zip_with (fun a row => map (fun z => a * z) row)
               (map (fun v => v * SineGen.noise_std self
                              + (1 - v) * (SineGen.sine_amp self / 3))
                    (map (gt (SineGen.voiced_threshold self)) f0))
               (randn_like g (mmap (fun x => x * SineGen.sine_amp self) sines)))).
  { apply (has_shape_scale_rows Rmult).
    - rewrite !length_map. reflexivity.
    - apply has_shape_randn_like, Hamp. }
  split; [|split; [apply length_map | exact Hnoise]].
  apply has_shape_zip_vadd; [|exact Hnoise].
  apply (has_shape_rows_scaled Rmult); [apply length_map | exact Hamp].
Qed.

(** X7: in exact real arithmetic, the harmonic part of the excitation
    never exceeds the sine amplitude: every sine lies in [-1, 1], and
    what [forward] adds to the noise is at most |sine_amp| in absolute
    value.  (Over binary32 a NaN or an overflowing f0 makes the sines
    NaN: [SineGen32_forward_after_nan].) *)
Theorem SineGen_forward_amplitude
    (u : nat -> R) (g : nat -> nat -> R) (f0 : Vector) :
  (2 <= length f0)%nat ->
  exists (sines sine_waves : Matrix) (uv : Vector) (noise : Matrix),
    SineGen._f02sine self u (SineGen.fn self f0) = Ok sines
    /\ SineGen.forward self u g f0 = Ok (sine_waves, uv, noise)
    /\ forall t d, (t < length f0)%nat -> (d < SineGen.dim self)%nat ->
         -1 <= entry sines t d <= 1
         /\ Rabs (entry sine_waves t d - entry noise t d) <= Rabs sine_amp.
Proof.
  intros HL.
  destruct (f02sine_entry samp_rate harmonic_num sine_amp noise_std
              voiced_threshold u (length f0) (SineGen.fn self f0) HL
              (has_shape_fn samp_rate harmonic_num sine_amp noise_std
                 voiced_threshold f0))
    as [sines [Es [Hs Hsin]]].
  fold self in Es. fold D in Hs, Hsin.
  destruct (forward_entries samp_rate harmonic_num sine_amp noise_std
              voiced_threshold u g f0 sines Es Hs)
    as [sine_waves [uv [noise [Ef [Euv [_ Hent]]]]]].
  exists sines, sine_waves, uv, noise.
  split; [exact Es|]. split; [exact Ef|].
  intros t d Ht Hd.
  assert (Hbound : -1 <= entry sines t d <= 1)
    by (rewrite Hsin by auto; apply SIN_bound).
  split; [exact Hbound|].
  destruct (Hent t d Ht Hd) as [_ ->].
  assert (Huv : nth t uv 0 = 0 \/ nth t uv 0 = 1).
  { rewrite Euv, (nth_map_in _ f0 t 0 0) by exact Ht.
    unfold gt. destruct (Rgt_dec _ _); auto. }
  replace (entry sines t d * sine_amp * nth t uv 0 + entry noise t d
           - entry noise t d)
    with (entry sines t d * nth t uv 0 * sine_amp) by ring.
  rewrite Rabs_mult.
  rewrite <- (Rmult_1_l (Rabs sine_amp)) at 2.
  apply Rmult_le_compat_r; [apply Rabs_pos|].
  apply Rabs_le. destruct Huv as [-> | ->]; lra.
Qed.

End SineGenOutput.

Lemma SineGen_forward_shapes_witness :
  exists (sine_waves : Matrix) (uv : Vector) (noise : Matrix),
    SineGen.forward example_sinegen example_u example_g example_f0
      = Ok (sine_waves, uv, noise)
    /\ has_shape 3 2 sine_waves
    /\ has_shape 3 2 noise.
Proof.
  destruct (SineGen_forward_shapes 4 1 0.1 0.003 0 example_u example_g example_f0)
    as [sine_waves [uv [noise [E [H1 [_ H2]]]]]]; [simpl; lia|].
  exists sine_waves, uv, noise. split; [exact E|]. split; [exact H1 | exact H2].
Defined.

Lemma SineGen_forward_amplitude_witness :
  exists (sine_waves : Matrix) (uv : Vector) (noise : Matrix),
    SineGen.forward example_sinegen example_u example_g example_f0
      = Ok (sine_waves, uv, noise)
    /\ Rabs (entry sine_waves 0 1 - entry noise 0 1) <= Rabs 0.1.
Proof.
  destruct (SineGen_forward_amplitude 4 1 0.1 0.003 0 example_u example_g
              example_f0)
    as [sines [sine_waves [uv [noise [_ [E H]]]]]]; [simpl; lia|].
  exists sine_waves, uv, noise. split; [exact E|].
  apply (H 0%nat 1%nat); simpl; lia.
Defined.

(** ** [SourceModuleHnNSF.forward] *)

Section SourceModule.

Variables (sr : R) (hn : nat) (amp ns thr : R).
Variables (W : nat -> nat -> R) (b : nat -> R).

Let src : SourceModuleHnNSF.t := SourceModuleHnNSF.__init__ sr hn amp ns thr W b.

(** X8: the source module returns exactly on inputs of at least two time
    steps; on an empty input it raises IndexError and on a single time
    step RuntimeError, both from the sine generator. *)
Theorem SourceModuleHnNSF_forward_returns_iff (rng : Draws) (x : Vector) :
  ((2 <= length x)%nat <->
     exists out, SourceModuleHnNSF.forward src rng x = Ok out)
  /\ (length x = 0%nat ->
        SourceModuleHnNSF.forward src rng x = Raise IndexError)
  /\ (length x = 1%nat ->
        SourceModuleHnNSF.forward src rng x = Raise RuntimeError).
Proof.
  assert (H0 : length x = 0%nat ->
               SourceModuleHnNSF.forward src rng x = Raise IndexError).
  { intros Hx. destruct x; [|discriminate].
    unfold SourceModuleHnNSF.forward, SineGen.forward.
    cbn [src SourceModuleHnNSF.__init__ SourceModuleHnNSF.l_sin_gen
         SineGen.fn map].
    rewrite (f02sine_no_time_step sr hn amp ns thr). reflexivity. }
  assert (H1 : length x = 1%nat ->
               SourceModuleHnNSF.forward src rng x = Raise RuntimeError).
  { intros Hx. destruct x as [|v [|v' x]]; try discriminate.
    unfold SourceModuleHnNSF.forward, SineGen.forward.
    cbn [src SourceModuleHnNSF.__init__ SourceModuleHnNSF.l_sin_gen
         SineGen.fn map].
    rewrite (f02sine_one_time_step sr hn amp ns thr); [reflexivity|].
    unfold SineGen.harmonics. rewrite !length_map, length_seq. reflexivity. }
  split; [|split; assumption].
  split.
  - intros HL.
    destruct (source_forward_returns sr hn amp ns thr W b rng x HL)
      as [sine_wavs [uv [noise0 [Y [_ [_ [_ [_ E]]]]]]]].
    eexists. exact E.
  - intros [out E]. destruct (length x) as [|[|n]] eqn:Hlen; [| |lia].
    + rewrite H0 in E by reflexivity. discriminate.
    + rewrite H1 in E by reflexivity. discriminate.
Qed.

(** X9: what the source module returns on L >= 2 time steps: one merged
    channel of shape (1, L, 1) with every value strictly between -1 and
    1, a noise of L values, each the draw scaled by sine_amp / 3 whether
    the step is voiced or not, and the voicing flags of the sine
    generator. *)
Theorem SourceModuleHnNSF_forward_outputs (rng : Draws) (x : Vector) :
  (2 <= length x)%nat ->
  exists (sine_merge : Matrix) (noise uv : Vector),
    SourceModuleHnNSF.forward src rng x = Ok (sine_merge, noise, uv)
    /\ has_shape (length x) 1 sine_merge
    /\ (forall t, (t < length x)%nat -> -1 < entry sine_merge t 0 < 1)
    /\ length noise = length x
    /\ (forall t, (t < length x)%nat ->
          nth t noise 0 = randn_noise rng t * (amp / 3))
    /\ uv = map (gt thr) x.
Proof.
  intros HL.
  destruct (source_forward_returns sr hn amp ns thr W b rng x HL)
    as [sine_wavs [uv [noise0 [Y [Ef [_ [HY [_ E]]]]]]]].
  destruct (forward_sines_ok sr hn amp ns thr (rand_ini rng) x HL)
    as [sines [Es Hs]].
  destruct (forward_entries sr hn amp ns thr (rand_ini rng) (randn_sine rng)
              x sines Es Hs) as [sw' [uv' [n' [Ef' [Euv _]]]]].
  rewrite Ef in Ef'. injection Ef' as _ <- _.
  assert (Huv : length uv = length x) by (rewrite Euv; apply length_map).
  do 3 eexists. split; [exact E|].
  split; [apply has_shape_mmap, HY|].
  split.
  { intros t Ht. rewrite (entry_mmap tanh (length x) 1) by (auto; lia).
    apply tanh_bounds. }
  split; [rewrite length_map, length_seq; exact Huv|].
  split; [|exact Euv].
  intros t Ht.
  rewrite (nth_map_in _ _ t 0%nat 0) by (rewrite length_seq; lia).
  rewrite seq_nth by lia. reflexivity.
Qed.

End SourceModule.

Lemma SourceModuleHnNSF_forward_outputs_witness :
  exists (sine_merge : Matrix) (noise uv : Vector),
    SourceModuleHnNSF.forward
      (SourceModuleHnNSF.__init__ 4 1 0.1 0.003 0 (fun _ _ => 1) (fun _ => 0))
      example_rng example_f0 = Ok (sine_merge, noise, uv)
    /\ -1 < entry sine_merge 2 0 < 1
    /\ nth 1 noise 0 = 1 * (0.1 / 3)
    /\ uv = map (gt 0) example_f0.
Proof.
  destruct (SourceModuleHnNSF_forward_outputs 4 1 0.1 0.003 0 (fun _ _ => 1)
              (fun _ => 0) example_rng example_f0)
    as [sine_merge [noise [uv [E [_ [H1 [_ [H2 H3]]]]]]]]; [simpl; lia|].
  exists sine_merge, noise, uv. split; [exact E|].
  split; [apply H1; simpl; lia|]. split; [apply (H2 1%nat); simpl; lia | exact H3].
Defined.

(** ** [Generator.__init__] and the module lists *)

Lemma lookup_in_range {A : Type} (xs : list A) (i : nat) :
  (i < length xs)%nat -> exists x, lookup xs i = Ok x.
Proof.
  intros Hi. unfold lookup.
  destruct (nth_error xs i) as [x|] eqn:E; [exists x; reflexivity|].
  apply nth_error_None in E. lia.
Qed.

Lemma lookup_out_of_range {A : Type} (xs : list A) (i : nat) :
  (length xs <= i)%nat -> lookup xs i = Raise IndexError.
Proof.
  intros Hi. unfold lookup.
  apply nth_error_None in Hi. rewrite Hi. reflexivity.
Qed.

Lemma lookup_map {A B : Type} (f : A -> B) (xs : list A) (i : nat) :
  lookup (map f xs) i = (x <- lookup xs i ;; Ok (f x)).
Proof.
  unfold lookup. rewrite nth_error_map.
  destruct (nth_error xs i); reflexivity.
Qed.

Lemma length_concat_uniform {A : Type} (n : nat) (xss : list (list A)) :
  Forall (fun xs => length xs = n) xss ->
  length (concat xss) = (length xss * n)%nat.
Proof.
  induction 1 as [|xs xss Hxs _ IH]; [reflexivity|].
  cbn [concat length]. rewrite length_app, IH, Hxs. reflexivity.
Qed.

(** What [Generator.__init__] has built on a run that returns. *)
Lemma Generator_init_lengths (nn : Modules) (h : AttrDict) (G : Generator.t) :
  Generator.__init__ nn h = Ok G ->
  let n_ups :=
    Nat.min (length (upsample_rates h)) (length (upsample_kernel_sizes h)) in
  let n_blocks :=
    Nat.min (length (resblock_kernel_sizes h))
            (length (resblock_dilation_sizes h)) in
  n_ups <> 0%nat
  /\ length (Generator.ups G) = n_ups
  /\ length (Generator.noise_convs G) = n_ups
  /\ length (Generator.resblocks G) = (n_ups * n_blocks)%nat
  /\ Generator.num_upsamples G = length (upsample_rates h)
  /\ Generator.num_kernels G = length (resblock_kernel_sizes h)
  /\ Upsample.scale_factor (Generator.f0_upsamp G) = prod (upsample_rates h)
  /\ Generator.training G = true
  /\ Forall (fun m => weight_normed m = false) (Generator.noise_convs G).
Proof.
  intros E n_ups n_blocks.
  apply Generator_init_inv in E. cbv zeta in E.
  destruct E as [pre [post [stages [blocks [conv_pre [conv_post
                 [_ [_ [Hst [Hbl [Hne [_ [_ ->]]]]]]]]]]]]].
  assert (HL : length stages = n_ups).
  { rewrite (mapM_length _ _ _ Hst), length_combine, length_seq, Nat.min_id.
    apply length_combine. }
  assert (HB : Forall (fun bs : list ResBlock.t => length bs = n_blocks) blocks).
  { apply (mapM_Forall _ _ _ _
             (fun i bs (H : Generator.init_blocks nn h i = Ok bs) =>
                eq_trans (mapM_length _ _ _ H) (length_combine _ _)) Hbl). }
  cbn [Generator.ups Generator.noise_convs Generator.resblocks
       Generator.num_upsamples Generator.num_kernels Generator.f0_upsamp
       Generator.training Upsample.__init__ Upsample.scale_factor].
  split; [rewrite <- HL; destruct stages; [contradiction | discriminate]|].
  split; [rewrite length_map; exact HL|].
  split; [rewrite length_map; exact HL|].
  split.
  { rewrite (length_concat_uniform n_blocks blocks HB).
    rewrite (mapM_length _ _ _ Hbl), length_seq, HL. reflexivity. }
  repeat (split; [reflexivity|]).
  apply Forall_map.
  apply (mapM_Forall _ (fun st => weight_normed (snd st) = false) _ _
           (fun iuk st H => proj2 (init_stage_weight_normed nn h iuk st H)) Hst).
Qed.

(** X10: what [Generator.__init__] has built when it returns: at least
    one upsampling layer, one upsampling layer and one noise convolution
    per (rate, kernel size) pair, one residual block per such pair and
    per (kernel, dilation) pair; every layer wrapped in [weight_norm]
    holds its weight norm, the noise convolutions hold none, and the
    module is in training mode. *)
Theorem Generator_init_structure (nn : Modules) (h : AttrDict) (G : Generator.t) :
  Generator.__init__ nn h = Ok G ->
  let n_ups :=
    Nat.min (length (upsample_rates h)) (length (upsample_kernel_sizes h)) in
  let n_blocks :=
    Nat.min (length (resblock_kernel_sizes h))
            (length (resblock_dilation_sizes h)) in
  n_ups <> 0%nat
  /\ length (Generator.ups G) = n_ups
  /\ length (Generator.noise_convs G) = n_ups
  /\ length (Generator.resblocks G) = (n_ups * n_blocks)%nat
  /\ Generator.num_upsamples G = length (upsample_rates h)
  /\ Generator.num_kernels G = length (resblock_kernel_sizes h)
  /\ Upsample.scale_factor (Generator.f0_upsamp G) = prod (upsample_rates h)
  /\ Generator.training G = true
  /\ all_weight_normed G
  /\ Forall (fun m => weight_normed m = false) (Generator.noise_convs G).
Proof.
  intros E n_ups n_blocks.
  destruct (Generator_init_lengths nn h G E)
    as [H1 [H2 [H3 [H4 [H5 [H6 [H7 [H8 H9]]]]]]]].
  pose proof (init_all_weight_normed nn h G E) as Hall.
  repeat (split; [assumption|]). exact H9.
Qed.

Lemma Generator_init_structure_witness :
  Generator.__init__ example_nn example_h = Ok example_generator0
  /\ length (Generator.ups example_generator0) = 1%nat
  /\ length (Generator.resblocks example_generator0) = 1%nat
  /\ Generator.training example_generator0 = true
  /\ all_weight_normed example_generator0.
Proof.
  destruct (Generator_init_structure example_nn example_h example_generator0)
    as [_ [H1 [_ [H2 [_ [_ [_ [H3 [H4 _]]]]]]]]].
  - reflexivity.
  - split; [reflexivity|]. split; [exact H1|]. split; [exact H2|].
    split; [exact H3 | exact H4].
Defined.

(** X11: [forward] indexes the module lists by [num_upsamples] and
    [num_kernels], which count the rates and the kernel sizes alone.
    When the kernel-size list of the upsampling layers and the dilation
    list of the blocks are at least as long, every index [forward] uses
    is in range; when the upsampling kernel sizes are fewer than the
    rates, the stage after the last layer is out of range. *)
Theorem Generator_module_lists_in_range
    (nn : Modules) (h : AttrDict) (G : Generator.t) :
  Generator.__init__ nn h = Ok G ->
  ((length (upsample_rates h) <= length (upsample_kernel_sizes h))%nat ->
   (length (resblock_kernel_sizes h) <= length (resblock_dilation_sizes h))%nat ->
   forall i, (i < Generator.num_upsamples G)%nat ->
     (exists up, lookup (Generator.ups G) i = Ok up)
     /\ (exists noise_conv, lookup (Generator.noise_convs G) i = Ok noise_conv)
     /\ forall j, (j < Generator.num_kernels G)%nat ->
          exists block,
            lookup (Generator.resblocks G) (i * Generator.num_kernels G + j)
            = Ok block)
  /\ ((length (upsample_kernel_sizes h) < length (upsample_rates h))%nat ->
      (length (upsample_kernel_sizes h) < Generator.num_upsamples G)%nat
      /\ lookup (Generator.ups G) (length (upsample_kernel_sizes h))
         = Raise IndexError).
Proof.
  intros E.
  destruct (Generator_init_lengths nn h G E)
    as [_ [H2 [H3 [H4 [H5 [H6 _]]]]]].
  rewrite H5, H6.
  split.
  - intros Hr Hk i Hi. split; [|split].
    + apply lookup_in_range. rewrite H2. lia.
    + apply lookup_in_range. rewrite H3. lia.
    + intros j Hj. apply lookup_in_range. rewrite H4.
      rewrite !Nat.min_l by lia. nia.
  - intros Hlt. split; [exact Hlt|].
    apply lookup_out_of_range. rewrite H2. lia.
Qed.

Lemma Generator_module_lists_in_range_witness :
  (exists up, lookup (Generator.ups example_generator0) 0 = Ok up)
  /\ (exists block, lookup (Generator.resblocks example_generator0) 0 = Ok block).
Proof.
  destruct (Generator_module_lists_in_range example_nn example_h
              example_generator0 eq_refl) as [H _].
  destruct (H (le_n 1) (le_n 1) 0%nat) as [H1 [_ H3]]; [simpl; lia|].
  split; [exact H1|].
  destruct (H3 0%nat) as [block Hb]; [simpl; lia|].
  exists block. exact Hb.
Defined.

(** ** [Generator.forward] and [Generator.remove_weight_norm] *)

(** X12: with no residual kernel size [xs] is still None when it is
    divided by [num_kernels]: no upsampling stage returns, the exception
    is TypeError when the layers of the stage return, and so [forward]
    never returns on a generator with an upsampling rate and no residual
    kernel size. *)
Theorem Generator_forward_needs_a_residual_kernel (G : Generator.t) :
  Generator.num_kernels G = 0%nat ->
  (forall har_source i stage x,
     exists e, Generator.stages G har_source (i :: stage) x = Raise e)
  /\ (forall har_source i stage x up noise_conv x1 x_source x2,
        lookup (Generator.ups G) i = Ok up ->
        call up (tmap (leaky_relu LRELU_SLOPE) x) = Ok x1 ->
        lookup (Generator.noise_convs G) i = Ok noise_conv ->
        call noise_conv har_source = Ok x_source ->
        broadcast 0 Rplus x1 x_source = Ok x2 ->
        Generator.stages G har_source (i :: stage) x = Raise TypeError)
  /\ (Generator.num_upsamples G <> 0%nat ->
      forall rng x f0 wav, Generator.forward G rng x f0 <> Ok wav).
Proof.
  intros Hk.
  assert (Hstage : forall har_source i stage x,
            exists e, Generator.stages G har_source (i :: stage) x = Raise e).
  { intros har_source i stage x. cbn [Generator.stages]. rewrite Hk.
    cbn [seq Generator.sum_resblocks].
    destruct (lookup (Generator.ups G) i) as [up|e]; cbn [rbind]; [|eauto].
    destruct (call up _) as [x1|e]; cbn [rbind]; [|eauto].
    destruct (lookup (Generator.noise_convs G) i) as [nc|e]; cbn [rbind]; [|eauto].
    destruct (call nc har_source) as [xs|e]; cbn [rbind]; [|eauto].
    destruct (broadcast 0 Rplus x1 xs) as [x2|e]; cbn [rbind]; eauto. }
  split; [exact Hstage|]. split.
  - intros har_source i stage x up noise_conv x1 x_source x2 H1 H2 H3 H4 H5.
    cbn [Generator.stages]. rewrite Hk, H1. cbn [rbind]. rewrite H2. cbn [rbind].
    rewrite H3. cbn [rbind]. rewrite H4. cbn [rbind]. rewrite H5. reflexivity.
  - intros Hu rng x f0 wav. unfold Generator.forward.
    destruct (mapM _ f0) as [f0u|e]; cbn [rbind]; [|discriminate].
    destruct (Generator.source G rng f0u) as [[[har noi] uv]|e];
      cbn [rbind]; [|discriminate].
    destruct (call (Generator.conv_pre G) x) as [y|e]; cbn [rbind]; [|discriminate].
    destruct (Generator.num_upsamples G) as [|n]; [contradiction|].
    cbn [seq].
    match goal with
    | |- context [Generator.stages G ?hs (0%nat :: ?st) y] =>
        destruct (Hstage hs 0%nat st y) as [e ->]
    end.
    discriminate.
Qed.

Lemma Generator_forward_needs_a_residual_kernel_witness :
  Generator.stages example_generator_no_kernel
    {| size0 := 1; size1 := 1; size2 := 4; data := [[[0; 0; 0; 0]]] |}
    [0%nat]
    {| size0 := 1; size1 := 2; size2 := 2; data := [[[1; 2]; [3; 4]]] |}
    = Raise TypeError
  /\ forall wav,
       Generator.forward example_generator_no_kernel example_rng example_mel
         [[220; 220]] <> Ok wav.
Proof.
  destruct (Generator_forward_needs_a_residual_kernel
              example_generator_no_kernel eq_refl) as [_ [H1 H2]].
  split.
  - eapply H1; reflexivity.
  - apply H2. simpl. discriminate.
Defined.

(** X13: the weight norm can be removed once.  On the generator that
    [remove_weight_norm] has returned, a second call raises ValueError
    at the first upsampling layer: [ups] is not empty, its first layer
    holds no weight norm any more, so that
    [torch.nn.utils.remove_weight_norm] raises ValueError on it, and
    this is the first thing the method does after its [print], whatever
    the other layers are. *)
Theorem Generator_remove_weight_norm_twice
    (nn : Modules) (h : AttrDict) (G G' : Generator.t) :
  Generator.__init__ nn h = Ok G ->
  Generator.remove_weight_norm G = Ok G' ->
  Generator.remove_weight_norm G' = Raise ValueError
  /\ exists (up : Layer) (rest : list Layer),
       Generator.ups G' = up :: rest
       /\ weight_normed up = false
       /\ utils.remove_weight_norm up = Raise ValueError
       /\ forall G'' : Generator.t,
            hd_error (Generator.ups G'') = Some up ->
            Generator.remove_weight_norm G'' = Raise ValueError.
Proof.
  intros Hinit Hrm.
  rewrite (remove_weight_norm_strips G (init_all_weight_normed nn h G Hinit)) in Hrm.
  injection Hrm as <-.
  destruct (Generator_init_lengths nn h G Hinit) as [Hne [Hlen _]].
  cbv zeta in Hne, Hlen.
  destruct (Generator.ups G) as [|up ups] eqn:Eups;
    [cbn [length] in Hlen; congruence|].
  assert (Hfirst : forall G'' : Generator.t,
            hd_error (Generator.ups G'') = Some (stripped_layer up) ->
            Generator.remove_weight_norm G'' = Raise ValueError).
  { intros G'' Hhd. unfold Generator.remove_weight_norm.
    destruct (Generator.ups G'') as [|up' ups']; [discriminate|].
    injection Hhd as ->. reflexivity. }
  split.
  - apply Hfirst. cbn [stripped Generator.ups]. rewrite Eups. reflexivity.
  - exists (stripped_layer up), (map stripped_layer ups).
    split; [cbn [stripped Generator.ups]; rewrite Eups; reflexivity|].
    split; [reflexivity|]. split; [reflexivity | exact Hfirst].
Qed.

Lemma Generator_remove_weight_norm_twice_witness :
  exists G' : Generator.t,
    Generator.__init__ example_nn example_h = Ok example_generator0
    /\ Generator.remove_weight_norm example_generator0 = Ok G'
    /\ Generator.remove_weight_norm G' = Raise ValueError
    /\ exists (up : Layer) (rest : list Layer),
         Generator.ups G' = up :: rest
         /\ utils.remove_weight_norm up = Raise ValueError.
Proof.
  pose proof (remove_weight_norm_strips example_generator0
                (init_all_weight_normed example_nn example_h
                   example_generator0 eq_refl)) as Hrm.
  exists (stripped example_generator0).
  split; [reflexivity|]. split; [exact Hrm|].
  destruct (Generator_remove_weight_norm_twice example_nn example_h
              example_generator0 (stripped example_generator0) eq_refl Hrm)
    as [H1 [up [rest [H2 [_ [H3 _]]]]]].
  split; [exact H1|]. exists up, rest. split; [exact H2 | exact H3].
Defined.

Lemma call_stripped_layer (m : Layer) : call (stripped_layer m) = call m.
Proof. reflexivity. Qed.

Lemma forward_stripped_block (block : ResBlock.t) (x : Tensor3) :
  ResBlock.forward (stripped_block block) x = ResBlock.forward block x.
Proof.
  unfold ResBlock.forward, stripped_block. cbn [ResBlock.convs ResBlock.body].
  rewrite map_map.
  rewrite (map_ext _ call call_stripped_layer). reflexivity.
Qed.

Lemma sum_resblocks_stripped (G : Generator.t) (i : nat) (x : Tensor3)
    (js : list nat) (xs : option Tensor3) :
  Generator.sum_resblocks (stripped G) i x js xs
  = Generator.sum_resblocks G i x js xs.
Proof.
  revert xs. induction js as [|j js IH]; intros xs; [reflexivity|].
  cbn [Generator.sum_resblocks stripped Generator.resblocks Generator.num_kernels].
  rewrite lookup_map.
  destruct (lookup (Generator.resblocks G) _) as [block|e]; cbn [rbind];
    [|reflexivity].
  rewrite forward_stripped_block.
  destruct (ResBlock.forward block x) as [r|e]; cbn [rbind]; [|reflexivity].
  destruct (match xs with None => Ok r | Some s => broadcast_ 0 Rplus s r end)
    as [xs'|e]; cbn [rbind]; [|reflexivity].
  apply IH.
Qed.

Lemma stages_stripped (G : Generator.t) (har_source : Tensor3)
    (stage : list nat) (x : Tensor3) :
  Generator.stages (stripped G) har_source stage x
  = Generator.stages G har_source stage x.
Proof.
  revert x. induction stage as [|i stage IH]; intros x; [reflexivity|].
  cbn [Generator.stages].
  change (Generator.ups (stripped G)) with (map stripped_layer (Generator.ups G)).
  change (Generator.noise_convs (stripped G)) with (Generator.noise_convs G).
  change (Generator.num_kernels (stripped G)) with (Generator.num_kernels G).
  rewrite lookup_map.
  destruct (lookup (Generator.ups G) i) as [up|e]; cbn [rbind]; [|reflexivity].
  rewrite call_stripped_layer.
  destruct (call up _) as [x1|e]; cbn [rbind]; [|reflexivity].
  destruct (lookup (Generator.noise_convs G) i) as [nc|e]; cbn [rbind];
    [|reflexivity].
  destruct (call nc har_source) as [xs|e]; cbn [rbind]; [|reflexivity].
  destruct (broadcast 0 Rplus x1 xs) as [x2|e]; cbn [rbind]; [|reflexivity].
  rewrite sum_resblocks_stripped.
  destruct (Generator.sum_resblocks G i x2 _ None) as [[s|]|e]; cbn [rbind];
    try reflexivity.
  apply IH.
Qed.

(** Removing the weight norm does not change what the generator
    computes: [forward] on the stripped generator returns, or raises,
    what it does on the generator it was stripped from. *)
Theorem Generator_forward_after_remove_weight_norm
    (G : Generator.t) (rng : Draws) (x : Tensor3) (f0 : list Vector) :
  Generator.forward (stripped G) rng x f0 = Generator.forward G rng x f0
  /\ forall G', all_weight_normed G -> Generator.remove_weight_norm G = Ok G' ->
       Generator.forward G' rng x f0 = Generator.forward G rng x f0.
Proof.
  assert (H : Generator.forward (stripped G) rng x f0
              = Generator.forward G rng x f0).
  { unfold Generator.forward.
    change (Generator.f0_upsamp (stripped G)) with (Generator.f0_upsamp G).
    change (Generator.source (stripped G)) with (Generator.source G).
    change (Generator.num_upsamples (stripped G))
      with (Generator.num_upsamples G).
    change (call (Generator.conv_pre (stripped G)))
      with (call (Generator.conv_pre G)).
    change (call (Generator.conv_post (stripped G)))
      with (call (Generator.conv_post G)).
    destruct (mapM _ f0) as [f0u|e]; cbn [rbind]; [|reflexivity].
    destruct (Generator.source G rng f0u) as [[[har noi] uv]|e];
      cbn [rbind]; [|reflexivity].
    destruct (call (Generator.conv_pre G) x) as [y|e]; cbn [rbind];
      [|reflexivity].
    rewrite stages_stripped. reflexivity. }
  split; [exact H|].
  intros G' Hall Hrm.
  rewrite (remove_weight_norm_strips G Hall) in Hrm. injection Hrm as <-.
  exact H.
Qed.
(** ** The script: what it reads and writes *)

Ltac world_step :=
  match goal with
  | |- context [match ?x with _ => _ end] =>
      lazymatch x with
      | context [match _ with _ => _ end] => fail
      | String.eqb _ _ => fail
      | _ => destruct x
      end
  end.

Ltac world_cases :=
  unfold bind, read, ret, raise, lift, record, print, write;
  cbn [files stdout argv hparams calls fst snd];
  repeat (world_step; cbn [files stdout argv hparams calls fst snd rbind]).

Lemma load_model_reads_only_files
    (ext : Externals) (model_path device : string) (w : World) :
  files (snd (load_model ext model_path device w)) = files w
  /\ argv (snd (load_model ext model_path device w)) = argv w
  /\ hparams (snd (load_model ext model_path device w)) = hparams w.
Proof.
  unfold load_model, Generator_remove_weight_norm.
  world_cases; repeat split; reflexivity.
Qed.

Lemma simplify_touches_only_target
    (ext : Externals) (src target : string) (w : World) (p : string) :
  p <> target ->
  files (snd (simplify ext src target w)) p = files w p.
Proof.
  intros Hp. unfold simplify. world_cases; try reflexivity;
    destruct (String.eqb_spec p target); (contradiction || reflexivity).
Qed.

Lemma export_touches_only_path
    (ext : Externals) (path : string) (w : World) (p : string) :
  p <> path ->
  files (snd (export ext path w)) p = files w p.
Proof.
  intros Hp.
  unfold export, NsfHiFiGAN.__init__, load_model, Generator_remove_weight_norm.
  world_cases; try reflexivity;
    destruct (String.eqb_spec p path); (contradiction || reflexivity).
Qed.

(** X14: [load_model] only reads.  Whatever it returns or raises, every
    file, [sys.argv] and the global hparams are as before; when it
    returns it has called [torch.load] once, on the model path, and
    printed the one line of [remove_weight_norm]. *)
Theorem load_model_only_reads
    (ext : Externals) (model_path device : string) (w : World) :
  files (snd (load_model ext model_path device w)) = files w
  /\ argv (snd (load_model ext model_path device w)) = argv w
  /\ hparams (snd (load_model ext model_path device w)) = hparams w
  /\ forall loaded, fst (load_model ext model_path device w) = Ok loaded ->
       calls (snd (load_model ext model_path device w))
         = calls w ++ [torch_load model_path]
       /\ stdout (snd (load_model ext model_path device w))
          = stdout w ++ ["Removing weight norm..."].
Proof.
  destruct (load_model_reads_only_files ext model_path device w) as [H1 [H2 H3]].
  split; [exact H1|]. split; [exact H2|]. split; [exact H3|].
  unfold load_model, Generator_remove_weight_norm.
  world_cases; intros loaded E; try discriminate; split; reflexivity.
Qed.

(** X15: how [load_model] fails.  A missing config.json raises
    FileNotFoundError before anything else happens; a generator that
    cannot be built raises before [torch.load] is called; a missing
    checkpoint raises FileNotFoundError at [torch.load]; a checkpoint
    with no 'generator' entry raises KeyError; a state dict that
    [load_state_dict] refuses (a parameter of another shape) raises its
    exception after [torch.load]; in none of these cases is the weight
    norm removed (nothing is printed). *)
Theorem load_model_failures
    (ext : Externals) (model_path device : string) (w : World) :
  let config_file :=
    os_path_join ext (fst (os_path_split ext model_path)) "config.json" in
  let loading :=
    {| files := files w;
       stdout := stdout w;
       argv := argv w;
       hparams := hparams w;
       calls := calls w ++ [torch_load model_path] |} in
  (files w config_file = None ->
     load_model ext model_path device w = (Raise FileNotFoundError, w))
  /\ (forall data h e,
        files w config_file = Some (TextFile data) ->
        json_loads ext data = Ok h ->
        Generator.__init__ (nn ext) h = Raise e ->
        load_model ext model_path device w = (Raise e, w))
  /\ (forall data h G0,
        files w config_file = Some (TextFile data) ->
        json_loads ext data = Ok h ->
        Generator.__init__ (nn ext) h = Ok G0 ->
        files w model_path = None ->
        load_model ext model_path device w = (Raise FileNotFoundError, loading))
  /\ (forall data h G0 cp_dict,
        files w config_file = Some (TextFile data) ->
        json_loads ext data = Ok h ->
        Generator.__init__ (nn ext) h = Ok G0 ->
        files w model_path = Some (CheckpointFile cp_dict) ->
        cp_dict "generator" = None ->
        load_model ext model_path device w = (Raise KeyError, loading))
  /\ (forall data h G0 cp_dict sd e,
        files w config_file = Some (TextFile data) ->
        json_loads ext data = Ok h ->
        Generator.__init__ (nn ext) h = Ok G0 ->
        files w model_path = Some (CheckpointFile cp_dict) ->
        cp_dict "generator" = Some sd ->
        Generator.load_state_dict G0 sd = Raise e ->
        load_model ext model_path device w = (Raise e, loading)).
Proof.
  intros config_file loading. unfold load_model. fold config_file.
  split; [|split; [|split; [|split]]].
  - intros H. unfold bind at 1. unfold read at 1. rewrite H. reflexivity.
  - intros data h e H1 H2 H3.
    unfold bind at 1. unfold read at 1. rewrite H1.
    unfold bind at 1. unfold ret at 1.
    unfold bind at 1. unfold lift at 1. rewrite H2.
    unfold bind at 1. unfold lift at 1. rewrite H3. reflexivity.
  - intros data h G0 H1 H2 H3 H4.
    unfold bind at 1. unfold read at 1. rewrite H1.
    unfold bind at 1. unfold ret at 1.
    unfold bind at 1. unfold lift at 1. rewrite H2.
    unfold bind at 1. unfold lift at 1. rewrite H3.
    unfold bind at 1. unfold record at 1.
    unfold bind at 1. unfold read at 1. cbn [files]. rewrite H4. reflexivity.
  - intros data h G0 cp_dict H1 H2 H3 H4 H5.
    unfold bind at 1. unfold read at 1. rewrite H1.
    unfold bind at 1. unfold ret at 1.
    unfold bind at 1. unfold lift at 1. rewrite H2.
    unfold bind at 1. unfold lift at 1. rewrite H3.
    unfold bind at 1. unfold record at 1.
    unfold bind at 1. unfold read at 1. cbn [files]. rewrite H4.
    unfold bind at 1. unfold ret at 1.
    unfold bind at 1. rewrite H5. reflexivity.
  - intros data h G0 cp_dict sd e H1 H2 H3 H4 H5 H6.
    unfold bind at 1. unfold read at 1. rewrite H1.
    unfold bind at 1. unfold ret at 1.
    unfold bind at 1. unfold lift at 1. rewrite H2.
    unfold bind at 1. unfold lift at 1. rewrite H3.
    unfold bind at 1. unfold record at 1.
    unfold bind at 1. unfold read at 1. cbn [files]. rewrite H4.
    unfold bind at 1. unfold ret at 1.
    unfold bind at 1. rewrite H5. unfold ret at 1.
    unfold bind at 1. unfold lift at 1. rewrite H6. reflexivity.
Qed.

(** A state dict whose [conv_pre.weight_v] has another shape than the
    parameter is refused, and [load_model] raises RuntimeError after
    [torch.load]. *)
Example load_state_dict_shape_mismatch :
  Generator.load_state_dict example_generator0 example_state_dict_mismatch
  = Raise RuntimeError.
Proof. reflexivity. Qed.

(** The keys [weight_g] and [weight_v] are not read on a layer that
    holds no weight norm: on the stripped generator the state dict
    changes nothing of [conv_pre]. *)
Example load_state_dict_after_removal :
  exists G : Generator.t,
    Generator.load_state_dict (stripped example_generator0) example_state_dict
    = Ok G
    /\ Generator.conv_pre G
       = Generator.conv_pre (stripped example_generator0).
Proof. eexists. split; reflexivity. Qed.

(** X16: [simplify] is all or nothing on the files.  When it raises, no
    file has changed; when it returns, the target holds a model that was
    passed to [onnx.save]; no other file changes in either case. *)
Theorem simplify_all_or_nothing
    (ext : Externals) (src target : string) (w : World) :
  (forall e, fst (simplify ext src target w) = Raise e ->
     files (snd (simplify ext src target w)) = files w)
  /\ (fst (simplify ext src target w) = Ok tt ->
        exists m,
          files (snd (simplify ext src target w)) target = Some (OnnxFile m)
          /\ In (onnx_save m target) (calls (snd (simplify ext src target w))))
  /\ (forall p, p <> target ->
        files (snd (simplify ext src target w)) p = files w p).
Proof.
  split; [|split].
  - unfold simplify. world_cases; intros ? E; try discriminate; reflexivity.
  - unfold simplify. world_cases; intros E; try discriminate.
    eexists. split.
    + rewrite String.eqb_refl. reflexivity.
    + apply in_or_app. right. left. reflexivity.
  - intros p Hp. apply simplify_touches_only_target, Hp.
Qed.

(** X17: [simplify] indexes the first graph input, the first graph
    output and the first dimension of the first input.  On a model
    without one of them it raises IndexError after [onnx.load]: the
    simplifier is not called, nothing is printed and no file is
    written. *)
Theorem simplify_needs_input_output_and_dimension
    (ext : Externals) (src target : string) (model : onnx.ModelProto)
    (w : World) :
  files w src = Some (OnnxFile model) ->
  onnx.input model = []
  \/ onnx.output model = []
  \/ (exists input0 inputs,
        onnx.input model = input0 :: inputs /\ onnx.shape input0 = []) ->
  simplify ext src target w =
    (Raise IndexError,
     {| files := files w;
        stdout := stdout w;
        argv := argv w;
        hparams := hparams w;
        calls := calls w ++ [onnx_load src] |}).
Proof.
  intros Hsrc Hcase. unfold simplify.
  unfold bind at 1. unfold record at 1.
  unfold bind at 1. unfold read at 1. cbn [files]. rewrite Hsrc.
  unfold bind at 1. unfold ret at 1.
  unfold bind at 1. unfold lift at 1.
  destruct (onnx.input model) as [|input0 inputs] eqn:Ein; [reflexivity|].
  cbn [lookup nth_error].
  unfold bind at 1. unfold lift at 1.
  destruct (onnx.output model) as [|output0 outputs] eqn:Eout; [reflexivity|].
  cbn [lookup nth_error].
  unfold bind at 1. unfold lift at 1.
  destruct Hcase as [H|[H|[i0 [ins [H1 H2]]]]]; try discriminate.
  injection H1 as <- <-. rewrite H2. reflexivity.
Qed.

Lemma simplify_needs_input_output_and_dimension_witness :
  fst (simplify example_ext "a.onnx" "b.onnx"
         {| files := fun _ =>
              Some (OnnxFile {| onnx.input := [example_mel_info];
                                onnx.output := [];
                                onnx.node := [];
                                onnx.opset := 11 |});
            stdout := [];
            argv := [];
            hparams := fun _ => None;
            calls := [] |})
  = Raise IndexError.
Proof.
  rewrite (simplify_needs_input_output_and_dimension example_ext "a.onnx" "b.onnx"
             {| onnx.input := [example_mel_info];
                onnx.output := [];
                onnx.node := [];
                onnx.opset := 11 |}).
  - reflexivity.
  - reflexivity.
  - right. left. reflexivity.
Defined.

(** X18: what [simplify] hands to the simplifier.  Only the first graph
    output is replaced: the inputs, the nodes, the opset and the other
    outputs are those of the loaded model; and when the first dimension
    of the first input is symbolic, its [dim_value] reads 0, so the
    output is declared with the first dimension 0. *)
Theorem simplify_rewrites_first_output_only
    (ext : Externals) (src target : string) (model : onnx.ModelProto)
    (input0 output0 : onnx.ValueInfoProto)
    (inputs outputs : list onnx.ValueInfoProto)
    (in_dim0 : onnx.Dimension) (dims : list onnx.Dimension) (w : World) :
  files w src = Some (OnnxFile model) ->
  onnx.input model = input0 :: inputs ->
  onnx.shape input0 = in_dim0 :: dims ->
  onnx.output model = output0 :: outputs ->
  exists m : onnx.ModelProto,
    In (onnxsim_simplify m true) (calls (snd (simplify ext src target w)))
    /\ onnx.input m = onnx.input model
    /\ onnx.node m = onnx.node model
    /\ onnx.opset m = onnx.opset model
    /\ tl (onnx.output m) = outputs
    /\ length (onnx.output m) = length (onnx.output model)
    /\ (forall s, in_dim0 = onnx.Param s ->
          option_map onnx.shape (hd_error (onnx.output m))
          = Some [onnx.Value 0; onnx.Param "n_samples"]).
Proof.
  intros Hsrc Hin Hshape Hout.
  exists (fixed_model model output0 outputs in_dim0).
  split.
  - rewrite (simplify_runs ext src target model input0 output0 inputs outputs
               in_dim0 dims Hin Hshape Hout w Hsrc).
    cbv zeta.
    destruct (snd (simplify_model ext _ true)); cbn [snd calls];
      apply in_or_app; right; simpl; auto.
  - repeat split; try reflexivity.
    + rewrite Hout. reflexivity.
    + intros s ->. reflexivity.
Qed.

Lemma simplify_rewrites_first_output_only_witness :
  exists m : onnx.ModelProto,
    In (onnxsim_simplify m true)
       (calls (snd (simplify example_ext "a.onnx" "b.onnx" example_world)))
    /\ onnx.input m = [example_mel_info; example_f0_info]
    /\ tl (onnx.output m) = [].
Proof.
  destruct (simplify_rewrites_first_output_only example_ext "a.onnx" "b.onnx"
              example_graph example_mel_info example_waveform_info
              [example_f0_info] [] (onnx.Value 1)
              [onnx.Param "n_frames"; onnx.Value 128] example_world)
    as [m [H1 [H2 [_ [_ [H3 _]]]]]]; try reflexivity.
  exists m. split; [exact H1|]. split; [exact H2 | exact H3].
Defined.

(** X19: [export] without a model to load.  When [set_hparams] raises,
    [export] raises the same and changes nothing; when the hyperparameters
    have no 'vocoder_ckpt' entry it raises KeyError with the
    hyperparameters set: [torch.onnx.export] is not called and no file
    is written. *)
Theorem export_without_checkpoint_entry
    (ext : Externals) (path : string) (w : World) :
  (forall e, read_hparams ext (argv w) (files w) = Raise e ->
     export ext path w = (Raise e, w))
  /\ (forall hp, read_hparams ext (argv w) (files w) = Ok hp ->
        hp "vocoder_ckpt" = None ->
        export ext path w =
          (Raise KeyError,
           {| files := files w;
              stdout := stdout w;
              argv := argv w;
              hparams := hp;
              calls := calls w |})).
Proof.
  split.
  - intros e H. unfold export. unfold bind at 1. rewrite H. reflexivity.
  - intros hp H1 H2. unfold export. unfold bind at 1. rewrite H1.
    unfold bind at 1. unfold bind at 1.
    unfold NsfHiFiGAN.__init__. unfold bind at 1. cbn [hparams].
    rewrite H2. reflexivity.
Qed.

(** X20: when the tracing of [torch.onnx.export] raises, the script stops
    there: it raises the same exception, [simplify] is not run (neither
    [onnx.load] nor the simplifier is called) and no file is written. *)
Theorem main_stops_when_export_raises
    (ext : Externals) (w : World) (hp : string -> option string)
    (ckpt data : string) (h : AttrDict) (cp_dict : string -> option StateDict)
    (sd : StateDict) (G0 G1 : Generator.t) (e : Exn) :
  let V : NsfHiFiGAN.t :=
    {| device := if cuda_is_available ext then "cuda" else "cpu";
       generator := stripped (Generator.eval G1);
       vocoder_hparams := h |} in
  read_hparams ext
    ["inference/svs/ds_e2e.py"; "--config";
     "configs/midi/cascade/opencs/test.yaml"] (files w) = Ok hp ->
  hp "vocoder_ckpt" = Some ckpt ->
  files w (os_path_join ext (fst (os_path_split ext ckpt)) "config.json")
    = Some (TextFile data) ->
  json_loads ext data = Ok h ->
  Generator.__init__ (nn ext) h = Ok G0 ->
  files w ckpt = Some (CheckpointFile cp_dict) ->
  cp_dict "generator" = Some sd ->
  Generator.load_state_dict G0 sd = Ok G1 ->
  trace ext V (export_mel ext 10) (export_f0 ext 10) export_options = Raise e ->
  exists w' : World,
    main ext w = (Raise e, w')
    /\ files w' = files w
    /\ calls w' =
         calls w ++ [torch_load ckpt;
                     torch_onnx_export V exported_path export_options].
Proof.
  intros V Hhp Hck Hcfg Hjson Hinit Hckpt Hsd Hload Htrace.
  unfold main. unfold bind at 1. unfold bind at 1.
  rewrite (export_runs ext exported_path ckpt data h cp_dict sd G0 G1 hp
             Hck Hjson Hinit Hsd Hload)
    by (cbn [files argv]; assumption).
  cbv zeta. fold V. rewrite Htrace.
  eexists. split; [reflexivity|]. split; reflexivity.
Qed.

Lemma main_stops_when_export_raises_witness :
  exists w' : World,
    main {| cuda_is_available := false;
            os_path_split := os_path_split example_ext;
            os_path_join := os_path_join example_ext;
            json_loads := json_loads example_ext;
            read_hparams := read_hparams example_ext;
            nn := nn example_ext;
            trace := fun _ _ _ _ => Raise RuntimeError;
            simplify_model := simplify_model example_ext;
            rand_mel := rand_mel example_ext;
            rand_f0 := rand_f0 example_ext |}
         example_world = (Raise RuntimeError, w')
    /\ files w' = files example_world.
Proof.
  destruct (main_stops_when_export_raises
              {| cuda_is_available := false;
                 os_path_split := os_path_split example_ext;
                 os_path_join := os_path_join example_ext;
                 json_loads := json_loads example_ext;
                 read_hparams := read_hparams example_ext;
                 nn := nn example_ext;
                 trace := fun _ _ _ _ => Raise RuntimeError;
                 simplify_model := simplify_model example_ext;
                 rand_mel := rand_mel example_ext;
                 rand_f0 := rand_f0 example_ext |}
              example_world example_hparams "checkpoints/model" "{}" example_h
              example_cp_dict example_state_dict
              example_generator0 example_generator1 RuntimeError)
    as [w' [H1 [H2 _]]]; try reflexivity.
  exists w'. split; [exact H1 | exact H2].
Defined.

(** X21: the script writes one file.  Whatever [export] and [main] return
    or raise, every file other than the exported path is as it was. *)
Theorem main_writes_only_the_exported_file
    (ext : Externals) (w : World) (p : string) :
  p <> "onnx/assets/nsf_hifigan.onnx" ->
  files (snd (export ext "onnx/assets/nsf_hifigan.onnx" w)) p = files w p
  /\ files (snd (main ext w)) p = files w p.
Proof.
  intros Hp. split; [apply export_touches_only_path, Hp|].
  unfold main. unfold bind at 1. unfold bind at 1.
  set (w0 := {| files := files w;
                stdout := stdout w;
                argv := ["inference/svs/ds_e2e.py"; "--config";
                         "configs/midi/cascade/opencs/test.yaml"];
                hparams := hparams w;
                calls := calls w |}).
  pose proof (export_touches_only_path ext "onnx/assets/nsf_hifigan.onnx" w0 p Hp)
    as Hex.
  destruct (export ext "onnx/assets/nsf_hifigan.onnx" w0) as [[[]|e] w1];
    cbn [snd] in *.
  - rewrite simplify_touches_only_target by exact Hp. exact Hex.
  - exact Hex.
Qed.

Lemma main_writes_only_the_exported_file_witness :
  files (snd (main example_ext example_world)) "a.onnx"
  = files example_world "a.onnx".
Proof.
  apply (main_writes_only_the_exported_file example_ext example_world "a.onnx").
  discriminate.
Defined.
